(** * github-repos-management: the in-memory Store and the sync service

    A shallow embedding of [internal/cache/memory] (the [Cache] type, kept in
    the second half of [internal/db/file/file.go]) and of
    [internal/service/service.go], followed by the properties that the
    specification states about them; then the store of [internal/db/file]
    that is written to a JSON file, and the pagination parameters and the
    repository listing of the HTTP handlers in [internal/api], with
    further properties of all four.

    Conventions of the embedding
    - Go's [int] is a 64-bit two's complement integer: values are [Z] and
      every arithmetic operation wraps explicitly ([go.wrap]).
    - A Go call either returns or panics; fallible calls return an [error].
      Mutating Store methods return the Store after the call together with
      the returned error, so that "the Store is unchanged" is a statement to
      prove and not a convention.
    - Go maps are [gmap]s, sets written as [map[string]struct{}] are [gset]s.
      The order in which [range] visits a map and the arrangement
      [sort.Slice] leaves behind are chosen by the Go runtime: they are
      fields of [go.Runtime], constrained only by what the language
      guarantees (a permutation of the entries). *)

From Stdlib Require Import ZArith Lia String Ascii List.
From stdpp Require Import base option list gmap strings pretty fin_maps sorting.

Local Open Scope Z_scope.
Local Open Scope string_scope.

(* ===================================================================== *)
(** ** The Go language and the standard library functions that are used *)
(* ===================================================================== *)

Module go.

(** [int] on the 64-bit platforms the program is built for. *)
Definition MinInt : Z := - 2 ^ 63.
Definition MaxInt : Z := 2 ^ 63 - 1.

Definition wrap (z : Z) : Z := (z + 2 ^ 63) `mod` 2 ^ 64 - 2 ^ 63.

Definition in_int (z : Z) : Prop := MinInt <= z <= MaxInt.

Definition add (a b : Z) : Z := wrap (a + b).
Definition sub (a b : Z) : Z := wrap (a - b).
Definition mul (a b : Z) : Z := wrap (a * b).

(** The outcome of a Go call: a value, a returned [error], or a run-time
    panic. *)
Inductive panic : Type :=
| DivideByZero                        (* integer divide by zero *)
| SliceBounds (lo hi cap : Z).        (* slice bounds out of range *)

(** [error] values: [errors.New]/[fmt.Errorf] carry their message,
    [fmt.Errorf("...: %w", err)] wraps the cause. *)
Inductive error : Type :=
| errorString (msg : string)
| wrapError (msg : string) (cause : error).

Fixpoint Error (e : error) : string :=
  match e with
  | errorString m => m
  | wrapError m c => m ++ Error c
  end.

(** A Go result list [(A, error)]. *)
Inductive result (A : Type) : Type :=
| Ok (a : A)
| Err (e : error).
Arguments Ok {A} a.
Arguments Err {A} e.

(** A call that can panic: it returns, or the goroutine panics. *)
Inductive exec (A : Type) : Type :=
| Returns (a : A)
| Panics (p : panic).
Arguments Returns {A} a.
Arguments Panics {A} p.

Definition bind {A B} (r : exec A) (k : A -> exec B) : exec B :=
  match r with
  | Returns a => k a
  | Panics p => Panics p
  end.

(** Truncated division; the only run-time failure is a zero divisor. *)
Definition div (a b : Z) : exec Z :=
  if decide (b = 0) then Panics DivideByZero else Returns (wrap (Z.quot a b)).

(** [len] of a slice or map. *)
Definition len {A} (l : list A) : Z := Z.of_nat (length l).

(** [s[lo:hi]] for a slice whose capacity equals its length. *)
Definition slice {A} (s : list A) (lo hi : Z) : exec (list A) :=
  if decide (0 <= lo /\ lo <= hi /\ hi <= len s)
  then Returns (take (Z.to_nat (hi - lo)) (drop (Z.to_nat lo) s))
  else Panics (SliceBounds lo hi (len s)).

(** [time.Time], as seconds counted from the zero [Time]. *)
Definition Time : Type := Z.
Definition zeroTime : Time := 0.
Definition After (t u : Time) : bool := bool_decide (u < t).
Definition Before (t u : Time) : bool := bool_decide (t < u).

(** [strings.Split(s, sep)] for a one-character separator: the pieces
    between the separators, always at least one piece. *)
Fixpoint Split (s : string) (sep : ascii) : list string :=
  match s with
  | EmptyString => [EmptyString]
  | String c s' =>
      if decide (c = sep) then EmptyString :: Split s' sep
      else
        match Split s' sep with
        | piece :: pieces => String c piece :: pieces
        | [] => [String c EmptyString]
        end
  end.

(** [strings.HasPrefix(s, prefix)]. *)
Definition HasPrefix (s p : string) : bool := String.prefix p s.

(** ASCII case folding, the part of [strings.EqualFold] that the default
    runtime below implements. *)
Definition lower (c : ascii) : ascii :=
  let n := nat_of_ascii c in
  if decide (65 <= n <= 90)%nat then ascii_of_nat (n + 32) else c.

Fixpoint equal_fold_ascii (a b : string) : bool :=
  match a, b with
  | EmptyString, EmptyString => true
  | String x a', String y b' =>
      bool_decide (lower x = lower y) && equal_fold_ascii a' b'
  | _, _ => false
  end.

Fixpoint insert_sorted {A} (less : A -> A -> bool) (x : A) (l : list A) : list A :=
  match l with
  | [] => [x]
  | y :: l' => if less y x then y :: insert_sorted less x l' else x :: l
  end.

Definition insertion_sort {A} (less : A -> A -> bool) (l : list A) : list A :=
  foldr (insert_sorted less) [] l.

(** What the program takes from the Go runtime and library without
    fixing it: the visiting order of [range] over a map, the arrangement
    produced by [sort.Slice] (not stable), and [strings.EqualFold]. *)
Record Runtime : Type := {
  range : forall (K : Type) `{Countable K} (V : Type), gmap K V -> list (K * V);
  range_perm : forall (K : Type) `{Countable K} (V : Type) (m : gmap K V),
      range K V m ≡ₚ map_to_list m;
  sort_Slice : forall (A : Type), (A -> A -> bool) -> list A -> list A;
  sort_Slice_perm : forall (A : Type) (less : A -> A -> bool) (l : list A),
      sort_Slice A less l ≡ₚ l;
  EqualFold : string -> string -> bool;
}.

End go.

#[global] Instance exec_ret : MRet go.exec := @go.Returns.
#[global] Instance exec_bind : MBind go.exec :=
  fun A B k r => go.bind r k.

(* ===================================================================== *)
(** ** internal/models *)
(* ===================================================================== *)

Module models.

Record Repository : Type := {
  Owner : string;
  Name : string;
  FullName : string;
  Description : string;
  URL : string;
  HTMLURL : string;
  IsPrivate : bool;
  LastSyncedAt : go.Time;
  CreatedAt : go.Time;
  UpdatedAt : go.Time;
}.

Record PullRequest : Type := {
  pr_RepositoryFullName : string;
  pr_Number : Z;
  pr_Title : string;
  pr_Body : string;
  pr_State : string;
  pr_URL : string;
  pr_HTMLURL : string;
  pr_UserLogin : string;
  pr_UserAvatarURL : string;
  pr_UserURL : string;
  pr_UserHTMLURL : string;
  pr_CreatedAt : go.Time;
  pr_UpdatedAt : go.Time;
  pr_ClosedAt : option go.Time;
  pr_MergedAt : option go.Time;
}.

Record Issue : Type := {
  is_RepositoryFullName : string;
  is_Number : Z;
  is_Title : string;
  is_Body : string;
  is_State : string;
  is_URL : string;
  is_HTMLURL : string;
  is_UserLogin : string;
  is_UserAvatarURL : string;
  is_UserURL : string;
  is_UserHTMLURL : string;
  is_CreatedAt : go.Time;
  is_UpdatedAt : go.Time;
  is_ClosedAt : option go.Time;
}.

Record Label : Type := {
  lb_Name : string;
  lb_Color : string;
  lb_Description : string;
}.

Record PullRequestFilter : Type := {
  f_State : string;
  f_Author : string;
  f_Repo : string;
  f_Label : string;
  f_SortBy : string;
  f_Direction : string;
  f_Since : go.Time;
  f_GroupBy : string;
  f_Page : Z;
  f_PerPage : Z;
}.

(** [IssueFilter] has the fields of [PullRequestFilter]. *)
Definition IssueFilter : Type := PullRequestFilter.

Record Pagination : Type := {
  Page : Z;
  PerPage : Z;
  Total : Z;
  TotalPages : Z;
}.

End models.

(* ===================================================================== *)
(** ** internal/cache/memory: the in-memory Store *)
(* ===================================================================== *)

Module memory.
Import go models.

(** The [Cache] struct without its [sync.RWMutex]: every method holds the
    lock from entry to return, so each method below is one atomic step. *)
Record Cache : Type := {
  repositories : gmap string Repository;
  pullRequests : gmap string (gmap Z PullRequest);
  issues : gmap string (gmap Z Issue);
  labels : gmap string Label;
  prLabels : gmap string (gmap Z (gmap string unit));
  issueLabels : gmap string (gmap Z (gmap string unit));
}.

Definition with_repositories (m : gmap string Repository) (c : Cache) : Cache :=
  {| repositories := m; pullRequests := pullRequests c; issues := issues c;
     labels := labels c; prLabels := prLabels c; issueLabels := issueLabels c |}.
Definition with_pullRequests (m : gmap string (gmap Z PullRequest)) (c : Cache) : Cache :=
  {| repositories := repositories c; pullRequests := m; issues := issues c;
     labels := labels c; prLabels := prLabels c; issueLabels := issueLabels c |}.
Definition with_issues (m : gmap string (gmap Z Issue)) (c : Cache) : Cache :=
  {| repositories := repositories c; pullRequests := pullRequests c; issues := m;
     labels := labels c; prLabels := prLabels c; issueLabels := issueLabels c |}.
Definition with_labels (m : gmap string Label) (c : Cache) : Cache :=
  {| repositories := repositories c; pullRequests := pullRequests c; issues := issues c;
     labels := m; prLabels := prLabels c; issueLabels := issueLabels c |}.
Definition with_prLabels (m : gmap string (gmap Z (gmap string unit))) (c : Cache) : Cache :=
  {| repositories := repositories c; pullRequests := pullRequests c; issues := issues c;
     labels := labels c; prLabels := m; issueLabels := issueLabels c |}.
Definition with_issueLabels (m : gmap string (gmap Z (gmap string unit))) (c : Cache) : Cache :=
  {| repositories := repositories c; pullRequests := pullRequests c; issues := issues c;
     labels := labels c; prLabels := prLabels c; issueLabels := m |}.

Definition NewCache : Cache :=
  {| repositories := ∅; pullRequests := ∅; issues := ∅;
     labels := ∅; prLabels := ∅; issueLabels := ∅ |}.

(** [fmt.Sprintf("%s/%s", owner, name)] *)
Definition fullNameOf (owner name : string) : string := owner ++ "/" ++ name.

(** [if _, exists := m[k]; !exists { m[k] = make(...) }] *)
Definition init_key {K} `{Countable K} {V} `{Empty V} (k : K) (m : gmap K V) : gmap K V :=
  match m !! k with
  | Some _ => m
  | None => <[k := ∅]> m
  end.

(** The value of [m[k]] in Go: the zero value (a nil map, which reads as
    empty) when the key is absent. *)
Definition at_key {K} `{Countable K} {V} `{Empty V} (k : K) (m : gmap K V) : V :=
  default ∅ (m !! k).

(** *** Error values built with [fmt.Errorf] *)

Definition errRepositoryExists (fullName : string) : error :=
  errorString ("repository " ++ fullName ++ " already exists").
Definition errRepositoryNotFound (fullName : string) : error :=
  errorString ("repository " ++ fullName ++ " not found").
Definition errNoPullRequests (fullName : string) : error :=
  errorString ("no pull requests found for repository " ++ fullName).
Definition errPullRequestExists (fullName : string) (n : Z) : error :=
  errorString ("pull request " ++ fullName ++ "#" ++ pretty n ++ " already exists").
Definition errPullRequestNotFound (fullName : string) (n : Z) : error :=
  errorString ("pull request " ++ fullName ++ "#" ++ pretty n ++ " not found").
Definition errNoIssues (fullName : string) : error :=
  errorString ("no issues found for repository " ++ fullName).
Definition errIssueExists (fullName : string) (n : Z) : error :=
  errorString ("issue " ++ fullName ++ "#" ++ pretty n ++ " already exists").
Definition errIssueNotFound (fullName : string) (n : Z) : error :=
  errorString ("issue " ++ fullName ++ "#" ++ pretty n ++ " not found").
Definition errLabelExists (name : string) : error :=
  errorString ("label " ++ name ++ " already exists").
Definition errLabelNotFound (name : string) : error :=
  errorString ("label " ++ name ++ " not found").

(** *** Repository operations *)

Definition AddRepository (repo : Repository) (c : Cache) : Cache * option error :=
  let fullName := fullNameOf (Owner repo) (Name repo) in
  match repositories c !! fullName with
  | Some _ => (c, Some (errRepositoryExists fullName))
  | None =>
      let c := with_repositories (<[fullName := repo]> (repositories c)) c in
      let c := with_pullRequests (init_key fullName (pullRequests c)) c in
      let c := with_issues (init_key fullName (issues c)) c in
      let c := with_prLabels (init_key fullName (prLabels c)) c in
      let c := with_issueLabels (init_key fullName (issueLabels c)) c in
      (c, None)
  end.

Definition GetRepository (owner name : string) (c : Cache) : result Repository :=
  let fullName := fullNameOf owner name in
  match repositories c !! fullName with
  | None => Err (errRepositoryNotFound fullName)
  | Some repo => Ok repo
  end.

Definition UpdateRepository (repo : Repository) (c : Cache) : Cache * option error :=
  let fullName := fullNameOf (Owner repo) (Name repo) in
  match repositories c !! fullName with
  | None => (c, Some (errRepositoryNotFound fullName))
  | Some _ => (with_repositories (<[fullName := repo]> (repositories c)) c, None)
  end.

Definition DeleteRepository (owner name : string) (c : Cache) : Cache * option error :=
  let fullName := fullNameOf owner name in
  match repositories c !! fullName with
  | None => (c, Some (errRepositoryNotFound fullName))
  | Some _ =>
      let c := with_repositories (delete fullName (repositories c)) c in
      let c := with_pullRequests (delete fullName (pullRequests c)) c in
      let c := with_issues (delete fullName (issues c)) c in
      let c := with_prLabels (delete fullName (prLabels c)) c in
      let c := with_issueLabels (delete fullName (issueLabels c)) c in
      (c, None)
  end.

(** The pagination shared by every [List...] method: [items] is the slice
    the map was converted to, [total] its length. *)
Definition paginate {A} (items : list A) (total page perPage : Z)
  : exec (result (list A * Z)) :=
  let start := mul (sub page 1) perPage in
  if decide (start >= total) then Returns (Ok ([], total))
  else
    let end_ := add start perPage in
    let end_ := if decide (end_ > total) then total else end_ in
    page_items ← slice items start end_;
    Returns (Ok (page_items, total)).

Definition ListRepositories (rt : Runtime) (page perPage : Z) (c : Cache)
  : exec (result (list Repository * Z)) :=
  let total := Z.of_nat (size (repositories c)) in
  if decide (total = 0) then Returns (Ok ([], 0))
  else
    let repos := (range rt _ _ (repositories c)).*2 in
    paginate repos total page perPage.

(** *** Pull request operations *)

Definition AddPullRequest (pr : PullRequest) (c : Cache) : Cache * option error :=
  let fullName := pr_RepositoryFullName pr in
  match repositories c !! fullName with
  | None => (c, Some (errRepositoryNotFound fullName))
  | Some _ =>
      let c := with_pullRequests (init_key fullName (pullRequests c)) c in
      match at_key fullName (pullRequests c) !! pr_Number pr with
      | Some _ => (c, Some (errPullRequestExists fullName (pr_Number pr)))
      | None =>
          (with_pullRequests
             (<[fullName := <[pr_Number pr := pr]> (at_key fullName (pullRequests c))]>
                (pullRequests c)) c, None)
      end
  end.

Definition GetPullRequest (repoFullName : string) (number : Z) (c : Cache)
  : result PullRequest :=
  match repositories c !! repoFullName with
  | None => Err (errRepositoryNotFound repoFullName)
  | Some _ =>
      match pullRequests c !! repoFullName with
      | None => Err (errNoPullRequests repoFullName)
      | Some repoMap =>
          match repoMap !! number with
          | None => Err (errPullRequestNotFound repoFullName number)
          | Some pr => Ok pr
          end
      end
  end.

Definition UpdatePullRequest (pr : PullRequest) (c : Cache) : Cache * option error :=
  let fullName := pr_RepositoryFullName pr in
  match repositories c !! fullName with
  | None => (c, Some (errRepositoryNotFound fullName))
  | Some _ =>
      match pullRequests c !! fullName with
      | None => (c, Some (errNoPullRequests fullName))
      | Some repoMap =>
          match repoMap !! pr_Number pr with
          | None => (c, Some (errPullRequestNotFound fullName (pr_Number pr)))
          | Some _ =>
              (with_pullRequests
                 (<[fullName := <[pr_Number pr := pr]> repoMap]> (pullRequests c)) c, None)
          end
      end
  end.

Definition ListPullRequests (rt : Runtime) (repoFullName : string) (page perPage : Z)
    (c : Cache) : exec (result (list PullRequest * Z)) :=
  match repositories c !! repoFullName with
  | None => Returns (Err (errRepositoryNotFound repoFullName))
  | Some _ =>
      match pullRequests c !! repoFullName with
      | None => Returns (Ok ([], 0))
      | Some repoMap =>
          let total := Z.of_nat (size repoMap) in
          let prs := (range rt _ _ repoMap).*2 in
          paginate prs total page perPage
      end
  end.

(** *** Issue operations *)

Definition AddIssue (issue : Issue) (c : Cache) : Cache * option error :=
  let fullName := is_RepositoryFullName issue in
  match repositories c !! fullName with
  | None => (c, Some (errRepositoryNotFound fullName))
  | Some _ =>
      let c := with_issues (init_key fullName (issues c)) c in
      match at_key fullName (issues c) !! is_Number issue with
      | Some _ => (c, Some (errIssueExists fullName (is_Number issue)))
      | None =>
          (with_issues
             (<[fullName := <[is_Number issue := issue]> (at_key fullName (issues c))]>
                (issues c)) c, None)
      end
  end.

Definition GetIssue (repoFullName : string) (number : Z) (c : Cache) : result Issue :=
  match repositories c !! repoFullName with
  | None => Err (errRepositoryNotFound repoFullName)
  | Some _ =>
      match issues c !! repoFullName with
      | None => Err (errNoIssues repoFullName)
      | Some repoMap =>
          match repoMap !! number with
          | None => Err (errIssueNotFound repoFullName number)
          | Some issue => Ok issue
          end
      end
  end.

Definition UpdateIssue (issue : Issue) (c : Cache) : Cache * option error :=
  let fullName := is_RepositoryFullName issue in
  match repositories c !! fullName with
  | None => (c, Some (errRepositoryNotFound fullName))
  | Some _ =>
      match issues c !! fullName with
      | None => (c, Some (errNoIssues fullName))
      | Some repoMap =>
          match repoMap !! is_Number issue with
          | None => (c, Some (errIssueNotFound fullName (is_Number issue)))
          | Some _ =>
              (with_issues
                 (<[fullName := <[is_Number issue := issue]> repoMap]> (issues c)) c, None)
          end
      end
  end.

Definition ListIssues (rt : Runtime) (repoFullName : string) (page perPage : Z)
    (c : Cache) : exec (result (list Issue * Z)) :=
  match repositories c !! repoFullName with
  | None => Returns (Err (errRepositoryNotFound repoFullName))
  | Some _ =>
      match issues c !! repoFullName with
      | None => Returns (Ok ([], 0))
      | Some repoMap =>
          let total := Z.of_nat (size repoMap) in
          let all := (range rt _ _ repoMap).*2 in
          paginate all total page perPage
      end
  end.

(** *** Label operations *)

Definition AddLabel (label : Label) (c : Cache) : Cache * option error :=
  match labels c !! lb_Name label with
  | Some _ => (c, Some (errLabelExists (lb_Name label)))
  | None => (with_labels (<[lb_Name label := label]> (labels c)) c, None)
  end.

Definition GetLabel (name : string) (c : Cache) : result Label :=
  match labels c !! name with
  | None => Err (errLabelNotFound name)
  | Some label => Ok label
  end.

(** [m[repoFullName][number][labelName] = struct{}{}] after the two
    [init_key] steps of the caller. *)
Definition attach (repoFullName : string) (number : Z) (labelName : string)
    (m : gmap string (gmap Z (gmap string unit))) : gmap string (gmap Z (gmap string unit)) :=
  let m := init_key repoFullName m in
  let byNumber := init_key number (at_key repoFullName m) in
  <[repoFullName := <[number := <[labelName := tt]> (at_key number byNumber)]> byNumber]> m.

Definition AddPullRequestLabel (repoFullName : string) (prNumber : Z) (labelName : string)
    (c : Cache) : Cache * option error :=
  match repositories c !! repoFullName with
  | None => (c, Some (errRepositoryNotFound repoFullName))
  | Some _ =>
      match pullRequests c !! repoFullName with
      | None => (c, Some (errNoPullRequests repoFullName))
      | Some repoMap =>
          match repoMap !! prNumber with
          | None => (c, Some (errPullRequestNotFound repoFullName prNumber))
          | Some _ =>
              match labels c !! labelName with
              | None => (c, Some (errLabelNotFound labelName))
              | Some _ =>
                  (with_prLabels (attach repoFullName prNumber labelName (prLabels c)) c, None)
              end
          end
      end
  end.

(** The label names attached to one item, in the runtime's [range] order,
    resolved against the label registry. *)
Definition resolve_labels (rt : Runtime) (names : gmap string unit) (c : Cache) : list Label :=
  omap (fun kv => labels c !! kv.1) (range rt _ _ names).

Definition ListPullRequestLabels (rt : Runtime) (repoFullName : string) (prNumber : Z)
    (c : Cache) : result (list Label) :=
  match repositories c !! repoFullName with
  | None => Err (errRepositoryNotFound repoFullName)
  | Some _ =>
      match pullRequests c !! repoFullName with
      | None => Err (errNoPullRequests repoFullName)
      | Some repoMap =>
          match repoMap !! prNumber with
          | None => Err (errPullRequestNotFound repoFullName prNumber)
          | Some _ =>
              match prLabels c !! repoFullName with
              | None => Ok []
              | Some byNumber =>
                  match byNumber !! prNumber with
                  | None => Ok []
                  | Some names => Ok (resolve_labels rt names c)
                  end
              end
          end
      end
  end.

Definition AddIssueLabel (repoFullName : string) (issueNumber : Z) (labelName : string)
    (c : Cache) : Cache * option error :=
  match repositories c !! repoFullName with
  | None => (c, Some (errRepositoryNotFound repoFullName))
  | Some _ =>
      match issues c !! repoFullName with
      | None => (c, Some (errNoIssues repoFullName))
      | Some repoMap =>
          match repoMap !! issueNumber with
          | None => (c, Some (errIssueNotFound repoFullName issueNumber))
          | Some _ =>
              match labels c !! labelName with
              | None => (c, Some (errLabelNotFound labelName))
              | Some _ =>
                  (with_issueLabels
                     (attach repoFullName issueNumber labelName (issueLabels c)) c, None)
              end
          end
      end
  end.

Definition ListIssueLabels (rt : Runtime) (repoFullName : string) (issueNumber : Z)
    (c : Cache) : result (list Label) :=
  match repositories c !! repoFullName with
  | None => Err (errRepositoryNotFound repoFullName)
  | Some _ =>
      match issues c !! repoFullName with
      | None => Err (errNoIssues repoFullName)
      | Some repoMap =>
          match repoMap !! issueNumber with
          | None => Err (errIssueNotFound repoFullName issueNumber)
          | Some _ =>
              match issueLabels c !! repoFullName with
              | None => Ok []
              | Some byNumber =>
                  match byNumber !! issueNumber with
                  | None => Ok []
                  | Some names => Ok (resolve_labels rt names c)
                  end
              end
          end
      end
  end.

(** *** The remaining methods of [Cache] *)

Definition errNoLabelsForRepository (fullName : string) : error :=
  errorString ("no labels found for repository " ++ fullName).
Definition errNoLabelsForPullRequest (fullName : string) (n : Z) : error :=
  errorString ("no labels found for pull request " ++ fullName ++ "#" ++ pretty n).
Definition errNoLabelsForIssue (fullName : string) (n : Z) : error :=
  errorString ("no labels found for issue " ++ fullName ++ "#" ++ pretty n).

(** [delete(m[repoFullName], number)] when [m[repoFullName]] exists. *)
Definition delete_in {V} (repoFullName : string) (number : Z) (m : gmap string (gmap Z V))
  : gmap string (gmap Z V) :=
  match m !! repoFullName with
  | Some byNumber => <[repoFullName := delete number byNumber]> m
  | None => m
  end.

Definition DeletePullRequest (repoFullName : string) (number : Z) (c : Cache)
  : Cache * option error :=
  match repositories c !! repoFullName with
  | None => (c, Some (errRepositoryNotFound repoFullName))
  | Some _ =>
      match pullRequests c !! repoFullName with
      | None => (c, Some (errNoPullRequests repoFullName))
      | Some repoMap =>
          match repoMap !! number with
          | None => (c, Some (errPullRequestNotFound repoFullName number))
          | Some _ =>
              let c := with_pullRequests
                         (<[repoFullName := delete number repoMap]> (pullRequests c)) c in
              let c := with_prLabels (delete_in repoFullName number (prLabels c)) c in
              (c, None)
          end
      end
  end.

Definition DeleteIssue (repoFullName : string) (number : Z) (c : Cache)
  : Cache * option error :=
  match repositories c !! repoFullName with
  | None => (c, Some (errRepositoryNotFound repoFullName))
  | Some _ =>
      match issues c !! repoFullName with
      | None => (c, Some (errNoIssues repoFullName))
      | Some repoMap =>
          match repoMap !! number with
          | None => (c, Some (errIssueNotFound repoFullName number))
          | Some _ =>
              let c := with_issues (<[repoFullName := delete number repoMap]> (issues c)) c in
              let c := with_issueLabels (delete_in repoFullName number (issueLabels c)) c in
              (c, None)
          end
      end
  end.

Definition UpdateLabel (label : Label) (c : Cache) : Cache * option error :=
  match labels c !! lb_Name label with
  | None => (c, Some (errLabelNotFound (lb_Name label)))
  | Some _ => (with_labels (<[lb_Name label := label]> (labels c)) c, None)
  end.

Definition ListLabels (rt : Runtime) (page perPage : Z) (c : Cache)
  : exec (result (list Label * Z)) :=
  let total := Z.of_nat (size (labels c)) in
  let all := (range rt _ _ (labels c)).*2 in
  paginate all total page perPage.

(** The body of the inner loop of [DeleteLabel]: [labels] is the set that
    the loop variable points to, stored under [number] in [byNumber]. *)
Definition detachFromItem (name : string) (byNumber : gmap Z (gmap string unit))
    (entry : Z * gmap string unit) : gmap Z (gmap string unit) :=
  let labels := delete name entry.2 in
  let byNumber := <[entry.1 := labels]> byNumber in
  if decide (Z.of_nat (size labels) = 0) then delete entry.1 byNumber else byNumber.

(** The body of the outer loop of [DeleteLabel]. *)
Definition detachFromRepository (rt : Runtime) (name : string)
    (m : gmap string (gmap Z (gmap string unit)))
    (entry : string * gmap Z (gmap string unit)) : gmap string (gmap Z (gmap string unit)) :=
  let byNumber := foldl (detachFromItem name) entry.2 (range rt _ _ entry.2) in
  let m := <[entry.1 := byNumber]> m in
  if decide (Z.of_nat (size byNumber) = 0) then delete entry.1 m else m.

Definition detachEverywhere (rt : Runtime) (name : string)
    (m : gmap string (gmap Z (gmap string unit))) : gmap string (gmap Z (gmap string unit)) :=
  foldl (detachFromRepository rt name) m (range rt _ _ m).

Definition DeleteLabel (rt : Runtime) (name : string) (c : Cache) : Cache * option error :=
  match labels c !! name with
  | None => (c, Some (errLabelNotFound name))
  | Some _ =>
      let c := with_labels (delete name (labels c)) c in
      let c := with_prLabels (detachEverywhere rt name (prLabels c)) c in
      let c := with_issueLabels (detachEverywhere rt name (issueLabels c)) c in
      (c, None)
  end.

(** The last block of [RemovePullRequestLabel] and [RemoveIssueLabel]: the
    delete and the clean-up of empty maps, once both levels exist. *)
Definition detach (repoFullName : string) (number : Z) (labelName : string)
    (byNumber : gmap Z (gmap string unit)) (names : gmap string unit)
    (m : gmap string (gmap Z (gmap string unit))) : gmap string (gmap Z (gmap string unit)) :=
  let names := delete labelName names in
  let byNumber := <[number := names]> byNumber in
  let byNumber := if decide (Z.of_nat (size names) = 0) then delete number byNumber
                  else byNumber in
  let m := <[repoFullName := byNumber]> m in
  if decide (Z.of_nat (size byNumber) = 0) then delete repoFullName m else m.

Definition RemovePullRequestLabel (repoFullName : string) (prNumber : Z) (labelName : string)
    (c : Cache) : Cache * option error :=
  match repositories c !! repoFullName with
  | None => (c, Some (errRepositoryNotFound repoFullName))
  | Some _ =>
      match pullRequests c !! repoFullName with
      | None => (c, Some (errNoPullRequests repoFullName))
      | Some repoMap =>
          match repoMap !! prNumber with
          | None => (c, Some (errPullRequestNotFound repoFullName prNumber))
          | Some _ =>
              match labels c !! labelName with
              | None => (c, Some (errLabelNotFound labelName))
              | Some _ =>
                  match prLabels c !! repoFullName with
                  | None => (c, Some (errNoLabelsForRepository repoFullName))
                  | Some byNumber =>
                      match byNumber !! prNumber with
                      | None => (c, Some (errNoLabelsForPullRequest repoFullName prNumber))
                      | Some names =>
                          (with_prLabels
                             (detach repoFullName prNumber labelName byNumber names
                                (prLabels c)) c, None)
                      end
                  end
              end
          end
      end
  end.

Definition RemoveIssueLabel (repoFullName : string) (issueNumber : Z) (labelName : string)
    (c : Cache) : Cache * option error :=
  match repositories c !! repoFullName with
  | None => (c, Some (errRepositoryNotFound repoFullName))
  | Some _ =>
      match issues c !! repoFullName with
      | None => (c, Some (errNoIssues repoFullName))
      | Some repoMap =>
          match repoMap !! issueNumber with
          | None => (c, Some (errIssueNotFound repoFullName issueNumber))
          | Some _ =>
              match labels c !! labelName with
              | None => (c, Some (errLabelNotFound labelName))
              | Some _ =>
                  match issueLabels c !! repoFullName with
                  | None => (c, Some (errNoLabelsForRepository repoFullName))
                  | Some byNumber =>
                      match byNumber !! issueNumber with
                      | None => (c, Some (errNoLabelsForIssue repoFullName issueNumber))
                      | Some names =>
                          (with_issueLabels
                             (detach repoFullName issueNumber labelName byNumber names
                                (issueLabels c)) c, None)
                      end
                  end
              end
          end
      end
  end.

End memory.

(* ===================================================================== *)
(** ** internal/github: the records and the client interface *)
(* ===================================================================== *)

Module github.
Import go.

Record User : Type := {
  Login : string;
  AvatarURL : string;
  u_URL : string;
  u_HTMLURL : string;
}.

Record Label : Type := {
  l_Name : string;
  l_Color : string;
  l_Description : string;
}.

Record Repository : Type := {
  Owner : User;
  Name : string;
  FullName : string;
  Description : string;
  URL : string;
  HTMLURL : string;
  Private : bool;
  CreatedAt : Time;
  UpdatedAt : Time;
}.

Record PullRequest : Type := {
  Number : Z;
  Title : string;
  Body : string;
  State : string;
  p_URL : string;
  p_HTMLURL : string;
  p_User : User;
  p_CreatedAt : Time;
  p_UpdatedAt : Time;
  ClosedAt : option Time;
  MergedAt : option Time;
  Labels : list Label;
}.

Record Issue : Type := {
  i_Number : Z;
  i_Title : string;
  i_Body : string;
  i_State : string;
  i_URL : string;
  i_HTMLURL : string;
  i_User : User;
  i_CreatedAt : Time;
  i_UpdatedAt : Time;
  i_ClosedAt : option Time;
  i_Labels : list Label;
}.

Record RateLimit : Type := {
  Limit : Z;
  Remaining : Z;
  Reset : Z;
}.

(** [PullRequestOptions] and [IssueOptions] have the same fields. *)
Record Options : Type := {
  o_State : string;
  o_Sort : string;
  o_Direction : string;
  o_PerPage : Z;
  o_Page : Z;
}.

(** [ClientInterface]. An implementation talks to the network, so the
    service operations below take the client that answers their calls as
    an argument: different calls may be answered by different clients. *)
Record ClientInterface : Type := {
  GetRepository : string -> string -> result Repository;
  ListPullRequests : string -> string -> Options -> result (list PullRequest);
  ListIssues : string -> string -> Options -> result (list Issue);
  GetRateLimit : result RateLimit;
}.

End github.

(* ===================================================================== *)
(** ** internal/service *)
(* ===================================================================== *)

Module service.
Import go models.

Definition ErrRepositoryExists : error := errorString "repository already exists".
Definition ErrRepositoryNotFound : error := errorString "repository not found".
Definition ErrInvalidRepositoryName : error := errorString "invalid repository name format".

(** What the service does to the outside, in program order: the requests
    sent to the GitHub client and the goroutines started with [go]. This
    log is not a field of the Go struct; it records the calls so that
    "no fetch" and "no dispatch" can be stated. *)
Inductive Event : Type :=
| CallGetRepository (owner name : string)
| CallListPullRequests (owner name : string) (options : github.Options)
| CallListIssues (owner name : string) (options : github.Options)
| CallGetRateLimit
| GoSyncRepository (owner name : string).

Record Service : Type := {
  cache : memory.Cache;
  syncStatus : gmap string string;
  startTime : Time;
  events : list Event;
}.

Definition with_cache (c : memory.Cache) (s : Service) : Service :=
  {| cache := c; syncStatus := syncStatus s; startTime := startTime s; events := events s |}.
Definition with_syncStatus (m : gmap string string) (s : Service) : Service :=
  {| cache := cache s; syncStatus := m; startTime := startTime s; events := events s |}.
Definition emit (e : Event) (s : Service) : Service :=
  {| cache := cache s; syncStatus := syncStatus s; startTime := startTime s;
     events := (events s ++ [e])%list |}.

Definition NewService (now : Time) : Service :=
  {| cache := memory.NewCache; syncStatus := ∅; startTime := now; events := [] |}.

(** *** Repository operations *)

Definition AddRepository (gh : github.ClientInterface) (now : Time) (fullName : string)
    (s : Service) : Service * result Repository :=
  match Split fullName "/" with
  | [owner; name] =>
      match memory.GetRepository owner name (cache s) with
      | Ok existingRepo => (s, Ok existingRepo)
      | _ =>
          let s := emit (CallGetRepository owner name) s in
          match github.GetRepository gh owner name with
          | Err err =>
              (s, Err (wrapError "failed to get repository from GitHub: " err))
          | Ok ghRepo =>
              let repo :=
                {| Owner := github.Login (github.Owner ghRepo);
                   Name := github.Name ghRepo;
                   FullName := github.FullName ghRepo;
                   Description := github.Description ghRepo;
                   URL := github.URL ghRepo;
                   HTMLURL := github.HTMLURL ghRepo;
                   IsPrivate := github.Private ghRepo;
                   LastSyncedAt := now;
                   CreatedAt := github.CreatedAt ghRepo;
                   UpdatedAt := github.UpdatedAt ghRepo |} in
              match memory.AddRepository repo (cache s) with
              | (c, Some err) =>
                  (with_cache c s, Err (wrapError "failed to add repository to cache: " err))
              | (c, None) =>
                  (emit (GoSyncRepository owner name) (with_cache c s), Ok repo)
              end
          end
      end
  | _ => (s, Err ErrInvalidRepositoryName)
  end.

Definition GetRepository (owner name : string) (s : Service) : result Repository :=
  match memory.GetRepository owner name (cache s) with
  | Ok repo => Ok repo
  | _ => Err ErrRepositoryNotFound
  end.

Definition ListRepositories (rt : Runtime) (page perPage : Z) (s : Service)
  : exec (result (list Repository * Z)) :=
  memory.ListRepositories rt page perPage (cache s).

Definition DeleteRepository (owner name : string) (s : Service) : Service * option error :=
  match memory.DeleteRepository owner name (cache s) with
  | (c, Some _) => (with_cache c s, Some ErrRepositoryNotFound)
  | (c, None) => (with_cache c s, None)
  end.

Definition RefreshRepository (owner name : string) (s : Service) : Service * option error :=
  match memory.GetRepository owner name (cache s) with
  | Ok _ => (emit (GoSyncRepository owner name) s, None)
  | _ => (s, Some ErrRepositoryNotFound)
  end.

(** [RefreshAll]: one [go] statement per listed repository, for the owner
    and the name of its record. *)
Definition RefreshAll (rt : Runtime) (s : Service) : exec (Service * option error) :=
  r ← memory.ListRepositories rt 1 1000 (cache s);
  match r with
  | Err err => Returns (s, Some (wrapError "failed to list repositories: " err))
  | Ok (repos, _) =>
      Returns (foldl (fun s repo => emit (GoSyncRepository (Owner repo) (Name repo)) s)
                 s repos,
               None)
  end.

(** *** One sync cycle *)

Definition syncOptions : github.Options :=
  {| github.o_State := "all"; github.o_Sort := "updated"; github.o_Direction := "desc";
     github.o_PerPage := 100; github.o_Page := 1 |}.

(** The body of the inner loop over [ghPR.Labels]. *)
Definition syncPullRequestLabel (fullName : string) (number : Z) (c : memory.Cache)
    (ghLabel : github.Label) : memory.Cache :=
  let label := {| lb_Name := github.l_Name ghLabel; lb_Color := github.l_Color ghLabel;
                  lb_Description := github.l_Description ghLabel |} in
  let attach c := (memory.AddPullRequestLabel fullName number (github.l_Name ghLabel) c).1 in
  match memory.GetLabel (github.l_Name ghLabel) c with
  | Ok _ => attach c
  | _ =>
      match memory.AddLabel label c with
      | (c, Some _) => c
      | (c, None) => attach c
      end
  end.

(** The body of the loop over the fetched pull requests. *)
Definition syncPullRequest (repo : Repository) (c : memory.Cache)
    (ghPR : github.PullRequest) : memory.Cache :=
  let pr :=
    {| pr_RepositoryFullName := FullName repo;
       pr_Number := github.Number ghPR;
       pr_Title := github.Title ghPR;
       pr_Body := github.Body ghPR;
       pr_State := github.State ghPR;
       pr_URL := github.p_URL ghPR;
       pr_HTMLURL := github.p_HTMLURL ghPR;
       pr_UserLogin := github.Login (github.p_User ghPR);
       pr_UserAvatarURL := github.AvatarURL (github.p_User ghPR);
       pr_UserURL := github.u_URL (github.p_User ghPR);
       pr_UserHTMLURL := github.u_HTMLURL (github.p_User ghPR);
       pr_CreatedAt := github.p_CreatedAt ghPR;
       pr_UpdatedAt := github.p_UpdatedAt ghPR;
       pr_ClosedAt := github.ClosedAt ghPR;
       pr_MergedAt := github.MergedAt ghPR |} in
  let upsert :=
    match memory.GetPullRequest (FullName repo) (github.Number ghPR) c with
    | Ok _ => memory.UpdatePullRequest pr c
    | _ => memory.AddPullRequest pr c
    end in
  match upsert with
  | (c, Some _) => c
  | (c, None) =>
      foldl (syncPullRequestLabel (FullName repo) (github.Number ghPR)) c (github.Labels ghPR)
  end.

Definition syncPullRequests (gh : github.ClientInterface) (owner name : string)
    (s : Service) : Service * option error :=
  match memory.GetRepository owner name (cache s) with
  | Ok repo =>
      let s := emit (CallListPullRequests owner name syncOptions) s in
      match github.ListPullRequests gh owner name syncOptions with
      | Err err => (s, Some (wrapError "failed to list pull requests: " err))
      | Ok prs => (with_cache (foldl (syncPullRequest repo) (cache s) prs) s, None)
      end
  | Err err => (s, Some (wrapError "repository not found: " err))
  end.

Definition syncIssueLabel (fullName : string) (number : Z) (c : memory.Cache)
    (ghLabel : github.Label) : memory.Cache :=
  let label := {| lb_Name := github.l_Name ghLabel; lb_Color := github.l_Color ghLabel;
                  lb_Description := github.l_Description ghLabel |} in
  let attach c := (memory.AddIssueLabel fullName number (github.l_Name ghLabel) c).1 in
  match memory.GetLabel (github.l_Name ghLabel) c with
  | Ok _ => attach c
  | _ =>
      match memory.AddLabel label c with
      | (c, Some _) => c
      | (c, None) => attach c
      end
  end.

Definition syncIssue (repo : Repository) (c : memory.Cache) (ghIssue : github.Issue)
  : memory.Cache :=
  let issue :=
    {| is_RepositoryFullName := FullName repo;
       is_Number := github.i_Number ghIssue;
       is_Title := github.i_Title ghIssue;
       is_Body := github.i_Body ghIssue;
       is_State := github.i_State ghIssue;
       is_URL := github.i_URL ghIssue;
       is_HTMLURL := github.i_HTMLURL ghIssue;
       is_UserLogin := github.Login (github.i_User ghIssue);
       is_UserAvatarURL := github.AvatarURL (github.i_User ghIssue);
       is_UserURL := github.u_URL (github.i_User ghIssue);
       is_UserHTMLURL := github.u_HTMLURL (github.i_User ghIssue);
       is_CreatedAt := github.i_CreatedAt ghIssue;
       is_UpdatedAt := github.i_UpdatedAt ghIssue;
       is_ClosedAt := github.i_ClosedAt ghIssue |} in
  let upsert :=
    match memory.GetIssue (FullName repo) (github.i_Number ghIssue) c with
    | Ok _ => memory.UpdateIssue issue c
    | _ => memory.AddIssue issue c
    end in
  match upsert with
  | (c, Some _) => c
  | (c, None) =>
      foldl (syncIssueLabel (FullName repo) (github.i_Number ghIssue)) c
        (github.i_Labels ghIssue)
  end.

Definition syncIssues (gh : github.ClientInterface) (owner name : string)
    (s : Service) : Service * option error :=
  match memory.GetRepository owner name (cache s) with
  | Ok repo =>
      let s := emit (CallListIssues owner name syncOptions) s in
      match github.ListIssues gh owner name syncOptions with
      | Err err => (s, Some (wrapError "failed to list issues: " err))
      | Ok issues => (with_cache (foldl (syncIssue repo) (cache s) issues) s, None)
      end
  | Err err => (s, Some (wrapError "repository not found: " err))
  end.

(** [s.syncStatus[fullName] = status] under [syncMutex]. *)
Definition setStatus (fullName status : string) (s : Service) : Service :=
  with_syncStatus (<[fullName := status]> (syncStatus s)) s.

Definition withLastSyncedAt (t : Time) (r : Repository) : Repository :=
  {| Owner := Owner r; Name := Name r; FullName := FullName r;
     Description := Description r; URL := URL r; HTMLURL := HTMLURL r;
     IsPrivate := IsPrivate r; LastSyncedAt := t;
     CreatedAt := CreatedAt r; UpdatedAt := UpdatedAt r |}.

(** [syncRepository] from its first statement to the evaluation of its
    [return]: everything except the deferred function. *)
Definition syncRepository_body (gh : github.ClientInterface) (now : Time)
    (owner name : string) (s : Service) : Service * option error :=
  let fullName := memory.fullNameOf owner name in
  let s := setStatus fullName "syncing" s in
  match memory.GetRepository owner name (cache s) with
  | Ok repo =>
      match syncPullRequests gh owner name s with
      | (s, Some err) =>
          (setStatus fullName ("error syncing pull requests: " ++ Error err) s,
           Some (wrapError "failed to sync pull requests: " err))
      | (s, None) =>
          match syncIssues gh owner name s with
          | (s, Some err) =>
              (setStatus fullName ("error syncing issues: " ++ Error err) s,
               Some (wrapError "failed to sync issues: " err))
          | (s, None) =>
              (* [repo.LastSyncedAt = time.Now()]: [repo] is the pointer that
                 the Store holds under [fullName] (neither stage replaces it),
                 so the assignment changes the stored record in place. *)
              let repo := withLastSyncedAt now repo in
              let c := memory.with_repositories
                         (alter (fun _ => repo) fullName (memory.repositories (cache s)))
                         (cache s) in
              match memory.UpdateRepository repo c with
              | (c, Some err) =>
                  (with_cache c s, Some (wrapError "failed to update last synced time: " err))
              | (c, None) => (with_cache c s, None)
              end
          end
      end
  | Err err =>
      (setStatus fullName ("error: " ++ Error err) s,
       Some (wrapError "repository not found: " err))
  end.

(** The deferred function: [delete(s.syncStatus, fullName)]. *)
Definition syncRepository_deferred (owner name : string) (s : Service) : Service :=
  with_syncStatus (delete (memory.fullNameOf owner name) (syncStatus s)) s.

Definition syncRepository (gh : github.ClientInterface) (now : Time)
    (owner name : string) (s : Service) : Service * option error :=
  let (s, err) := syncRepository_body gh now owner name s in
  (syncRepository_deferred owner name s, err).

(** *** Pull request and issue queries *)

(** The first block of [listAllPullRequests] and [listAllIssues]: the
    repositories to process. *)
Definition reposToProcess (rt : Runtime) (repoFilter : string) (s : Service)
  : exec (result (list Repository)) :=
  if decide (repoFilter <> "") then
    match Split repoFilter "/" with
    | [owner; name] =>
        match memory.GetRepository owner name (cache s) with
        | Ok repo => Returns (Ok [repo])
        | Err _ => Returns (Err ErrRepositoryNotFound)
        end
    | _ => Returns (Err ErrInvalidRepositoryName)
    end
  else
    r ← memory.ListRepositories rt 1 1000 (cache s);
    match r with
    | Ok (repos, _) => Returns (Ok repos)
    | Err err => Returns (Err (wrapError "failed to list repositories: " err))
    end.

(** The pagination block at the end of both list functions. *)
Definition paginateFiltered {A} (sorted : list A) (page perPage : Z)
  : exec (result (list A * Pagination)) :=
  let total := len sorted in
  let start := mul (sub page 1) perPage in
  if decide (start >= total) then
    totalPages ← div (sub (add total perPage) 1) perPage;
    Returns (Ok ([], {| Page := page; PerPage := perPage; Total := total;
                        TotalPages := totalPages |}))
  else
    let end_ := add start perPage in
    let end_ := if decide (end_ > total) then total else end_ in
    totalPages ← div (sub (add total perPage) 1) perPage;
    items ← slice sorted start end_;
    Returns (Ok (items, {| Page := page; PerPage := perPage; Total := total;
                           TotalPages := totalPages |})).

Fixpoint collectPullRequests (rt : Runtime) (c : memory.Cache) (repos : list Repository)
  : exec (list PullRequest) :=
  match repos with
  | [] => Returns []
  | repo :: repos =>
      r ← memory.ListPullRequests rt (FullName repo) 1 1000 c;
      rest ← collectPullRequests rt c repos;
      Returns (match r with
               | Ok (prs, _) => (prs ++ rest)%list
               | Err _ => rest
               end)
  end.

Definition keepPullRequest (rt : Runtime) (filter : PullRequestFilter) (pr : PullRequest)
  : bool :=
  if bool_decide (f_State filter <> "") && negb (EqualFold rt (pr_State pr) (f_State filter))
  then false
  else if bool_decide (f_Author filter <> "")
          && negb (EqualFold rt (pr_UserLogin pr) (f_Author filter))
  then false
  else true.

Definition lessPullRequest (filter : PullRequestFilter) (a b : PullRequest) : bool :=
  if decide (f_Direction filter = "asc") then Before (pr_CreatedAt a) (pr_CreatedAt b)
  else After (pr_CreatedAt a) (pr_CreatedAt b).

(** [filteredPRs] after the filter loop and [sort.Slice]: the post-filter,
    pre-pagination result set. *)
Definition filteredPullRequests (rt : Runtime) (filter : PullRequestFilter)
    (allPRs : list PullRequest) : list PullRequest :=
  sort_Slice rt _ (lessPullRequest filter) (List.filter (keepPullRequest rt filter) allPRs).

Definition listAllPullRequests (rt : Runtime) (filter : PullRequestFilter) (s : Service)
  : exec (result (list PullRequest * Pagination)) :=
  repos ← reposToProcess rt (f_Repo filter) s;
  match repos with
  | Err err => Returns (Err err)
  | Ok repos =>
      allPRs ← collectPullRequests rt (cache s) repos;
      paginateFiltered (filteredPullRequests rt filter allPRs)
        (f_Page filter) (f_PerPage filter)
  end.

Definition ListPullRequests := listAllPullRequests.

Fixpoint collectIssues (rt : Runtime) (c : memory.Cache) (repos : list Repository)
  : exec (list Issue) :=
  match repos with
  | [] => Returns []
  | repo :: repos =>
      r ← memory.ListIssues rt (FullName repo) 1 1000 c;
      rest ← collectIssues rt c repos;
      Returns (match r with
               | Ok (issues, _) => (issues ++ rest)%list
               | Err _ => rest
               end)
  end.

Definition keepIssue (rt : Runtime) (filter : IssueFilter) (issue : Issue) : bool :=
  if bool_decide (f_State filter <> "") && negb (EqualFold rt (is_State issue) (f_State filter))
  then false
  else if bool_decide (f_Author filter <> "")
          && negb (EqualFold rt (is_UserLogin issue) (f_Author filter))
  then false
  else true.

Definition lessIssue (filter : IssueFilter) (a b : Issue) : bool :=
  if decide (f_Direction filter = "asc") then Before (is_CreatedAt a) (is_CreatedAt b)
  else After (is_CreatedAt a) (is_CreatedAt b).

Definition filteredIssues (rt : Runtime) (filter : IssueFilter) (allIssues : list Issue)
  : list Issue :=
  sort_Slice rt _ (lessIssue filter) (List.filter (keepIssue rt filter) allIssues).

Definition listAllIssues (rt : Runtime) (filter : IssueFilter) (s : Service)
  : exec (result (list Issue * Pagination)) :=
  repos ← reposToProcess rt (f_Repo filter) s;
  match repos with
  | Err err => Returns (Err err)
  | Ok repos =>
      allIssues ← collectIssues rt (cache s) repos;
      paginateFiltered (filteredIssues rt filter allIssues)
        (f_Page filter) (f_PerPage filter)
  end.

Definition ListIssues := listAllIssues.

(** *** Service status *)

(** The [map[string]interface{}] that [GetStatus] builds, as a record. *)
Record Status : Type := {
  status : string;
  version : string;
  uptime : Z;
  repositories_total : Z;
  repositories_syncing : Z;
  repositories_error : Z;
  last_sync : Time;
  rate_limit : Z;
  rate_remaining : Z;
  rate_reset_at : Time;
}.

(** The loop [for _, status := range s.syncStatus] that counts into
    [errors]. *)
Definition countErrors (rt : Runtime) (m : gmap string string) : Z :=
  foldl (fun errors kv => if HasPrefix kv.2 "error" then add errors 1 else errors)
    0 (range rt _ _ m).

Definition lastSyncOf (repos : list Repository) : Time :=
  foldl (fun lastSync repo =>
           if After (LastSyncedAt repo) lastSync then LastSyncedAt repo else lastSync)
    zeroTime repos.

Definition GetStatus (rt : Runtime) (gh : github.ClientInterface) (now : Time) (s : Service)
  : Service * exec (result Status) :=
  match memory.ListRepositories rt 1 1000 (cache s) with
  | Panics p => (s, Panics p)
  | Returns (Err err) => (s, Returns (Err (wrapError "failed to list repositories: " err)))
  | Returns (Ok (repos, total)) =>
      let syncing := Z.of_nat (size (syncStatus s)) in
      let errors := countErrors rt (syncStatus s) in
      let s := emit CallGetRateLimit s in
      match github.GetRateLimit gh with
      | Err err => (s, Returns (Err (wrapError "failed to get rate limit: " err)))
      | Ok rateLimit =>
          (s, Returns (Ok
             {| status := "ok";
                version := "1.0.0";
                uptime := now - startTime s;
                repositories_total := total;
                repositories_syncing := syncing;
                repositories_error := errors;
                last_sync := lastSyncOf repos;
                rate_limit := github.Limit rateLimit;
                rate_remaining := github.Remaining rateLimit;
                rate_reset_at := github.Reset rateLimit |}))
      end
  end.

(** *** The running service

    Request handlers and sync goroutines interleave. A [System] is the
    service together with the goroutines that [go] has started and that
    have not begun ([pending]), and those whose [syncRepository] has
    evaluated its [return] and still has its deferred function to run
    ([unwinding]). The mutex is free between the two, so a request can
    observe that state. Running a whole body as one step leaves out
    interleavings inside a cycle: every state reachable here is reachable
    in the program. *)
Record System : Type := {
  svc : Service;
  pending : list (string * string);
  unwinding : list (string * string);
}.

Definition spawned (before after : Service) : list (string * string) :=
  omap (fun e => match e with
                 | GoSyncRepository owner name => Some (owner, name)
                 | _ => None
                 end)
       (drop (length (events before)) (events after)).

Definition request (sys : System) (s' : Service) : System :=
  {| svc := s'; pending := (pending sys ++ spawned (svc sys) s')%list; unwinding := unwinding sys |}.

Inductive step (rt : Runtime) : System -> System -> Prop :=
| step_AddRepository sys gh now fullName :
    step rt sys (request sys (AddRepository gh now fullName (svc sys)).1)
| step_DeleteRepository sys owner name :
    step rt sys (request sys (DeleteRepository owner name (svc sys)).1)
| step_RefreshRepository sys owner name :
    step rt sys (request sys (RefreshRepository owner name (svc sys)).1)
| step_GetStatus sys gh now :
    step rt sys (request sys (GetStatus rt gh now (svc sys)).1)
| step_sync_body sys gh now i owner name :
    pending sys !! i = Some (owner, name) ->
    step rt sys {| svc := (syncRepository_body gh now owner name (svc sys)).1;
                   pending := delete i (pending sys);
                   unwinding := (unwinding sys ++ [(owner, name)])%list |}
| step_sync_deferred sys i owner name :
    unwinding sys !! i = Some (owner, name) ->
    step rt sys {| svc := syncRepository_deferred owner name (svc sys);
                   pending := pending sys;
                   unwinding := delete i (unwinding sys) |}.

Definition initial (now : Time) : System :=
  {| svc := NewService now; pending := []; unwinding := [] |}.

Definition reachable (rt : Runtime) (sys : System) : Prop :=
  exists now, rtc (step rt) (initial now) sys.

End service.

(* ===================================================================== *)
(** ** internal/db/file: the store that is written to a JSON file *)
(* ===================================================================== *)

Module file.
Import go models.

(** The [DB] struct without its lock and its [path]. The maps are
    allocated, as [NewDB] leaves them; the lists of numbers and of label
    names are Go slices, which keep their order and their duplicates. *)
Record DB : Type := {
  repositories : gmap string Repository;
  pullRequests : gmap string (gmap Z PullRequest);
  issues : gmap string (gmap Z Issue);
  labels : gmap string (gmap string Label);
  repoPRs : gmap string (list Z);
  repoIssues : gmap string (list Z);
  repoLabels : gmap string (gmap string Label);
  prLabels : gmap string (gmap Z (list string));
  issueLabels : gmap string (gmap Z (list string));
}.

Definition with_repositories (m : gmap string Repository) (db : DB) : DB :=
  {| repositories := m; pullRequests := pullRequests db; issues := issues db;
     labels := labels db; repoPRs := repoPRs db; repoIssues := repoIssues db;
     repoLabels := repoLabels db; prLabels := prLabels db;
     issueLabels := issueLabels db |}.
Definition with_pullRequests (m : gmap string (gmap Z PullRequest)) (db : DB) : DB :=
  {| repositories := repositories db; pullRequests := m; issues := issues db;
     labels := labels db; repoPRs := repoPRs db; repoIssues := repoIssues db;
     repoLabels := repoLabels db; prLabels := prLabels db;
     issueLabels := issueLabels db |}.
Definition with_labels (m : gmap string (gmap string Label)) (db : DB) : DB :=
  {| repositories := repositories db; pullRequests := pullRequests db; issues := issues db;
     labels := m; repoPRs := repoPRs db; repoIssues := repoIssues db;
     repoLabels := repoLabels db; prLabels := prLabels db;
     issueLabels := issueLabels db |}.
Definition with_repoPRs (m : gmap string (list Z)) (db : DB) : DB :=
  {| repositories := repositories db; pullRequests := pullRequests db; issues := issues db;
     labels := labels db; repoPRs := m; repoIssues := repoIssues db;
     repoLabels := repoLabels db; prLabels := prLabels db;
     issueLabels := issueLabels db |}.
Definition with_repoLabels (m : gmap string (gmap string Label)) (db : DB) : DB :=
  {| repositories := repositories db; pullRequests := pullRequests db; issues := issues db;
     labels := labels db; repoPRs := repoPRs db; repoIssues := repoIssues db;
     repoLabels := m; prLabels := prLabels db;
     issueLabels := issueLabels db |}.
Definition with_prLabels (m : gmap string (gmap Z (list string))) (db : DB) : DB :=
  {| repositories := repositories db; pullRequests := pullRequests db; issues := issues db;
     labels := labels db; repoPRs := repoPRs db; repoIssues := repoIssues db;
     repoLabels := repoLabels db; prLabels := m;
     issueLabels := issueLabels db |}.

(** [NewDB] for a path at which there is no file to load. *)
Definition NewDB : DB :=
  {| repositories := ∅; pullRequests := ∅; issues := ∅; labels := ∅; repoPRs := ∅;
     repoIssues := ∅; repoLabels := ∅; prLabels := ∅; issueLabels := ∅ |}.

(** What [db.sync()] returns: the error of [json.MarshalIndent] or of
    [os.WriteFile], or none. The file system decides; every mutating
    method below takes the outcome of its write as an argument. *)
Definition written : Type := option error.

(** The element of a slice held in a map: [nil], which reads as empty,
    when the key is absent. *)
Definition slice_at {K} `{Countable K} {A} (k : K) (m : gmap K (list A)) : list A :=
  default [] (m !! k).

(** [append(s[:i], s[i+1:]...)] for the first [i] with [s[i] == x], as the
    loops that end in [break] compute it; [s] when there is no such [i]. *)
Fixpoint remove_first {A} `{EqDecision A} (x : A) (s : list A) : list A :=
  match s with
  | [] => []
  | y :: s' => if decide (y = x) then s' else y :: remove_first x s'
  end.

Definition ErrRepositoryNotFound (fullName : string) : error :=
  errorString ("repository " ++ fullName ++ " not found").
Definition ErrPullRequestNotFound (fullName : string) (number : Z) : error :=
  errorString ("pull request " ++ pretty number ++ " not found in repository " ++ fullName).
Definition ErrLabelNotFound (fullName name : string) : error :=
  errorString ("label " ++ name ++ " not found in repository " ++ fullName).

(** *** Repository operations *)

Definition AddRepository (repo : Repository) (db : DB) (w : written) : DB * option error :=
  (with_repositories (<[FullName repo := repo]> (repositories db)) db, w).

Definition GetRepository (owner name : string) (db : DB) : result Repository :=
  let fullName := owner ++ "/" ++ name in
  match repositories db !! fullName with
  | None => Err (ErrRepositoryNotFound fullName)
  | Some repo => Ok repo
  end.

Definition UpdateRepository (repo : Repository) (db : DB) (w : written)
  : DB * option error :=
  match repositories db !! FullName repo with
  | None => (db, Some (ErrRepositoryNotFound (FullName repo)))
  | Some _ => (with_repositories (<[FullName repo := repo]> (repositories db)) db, w)
  end.

Definition DeleteRepository (owner name : string) (db : DB) (w : written)
  : DB * option error :=
  let fullName := owner ++ "/" ++ name in
  match repositories db !! fullName with
  | None => (db, Some (ErrRepositoryNotFound fullName))
  | Some _ =>
      ({| repositories := delete fullName (repositories db);
          pullRequests := delete fullName (pullRequests db);
          issues := delete fullName (issues db);
          labels := delete fullName (labels db);
          repoPRs := delete fullName (repoPRs db);
          repoIssues := delete fullName (repoIssues db);
          repoLabels := delete fullName (repoLabels db);
          prLabels := delete fullName (prLabels db);
          issueLabels := delete fullName (issueLabels db) |}, w)
  end.

(** *** Pull request operations *)

Definition AddPullRequest (pr : PullRequest) (db : DB) (w : written) : DB * option error :=
  let fullName := pr_RepositoryFullName pr in
  let db := with_pullRequests
              (<[fullName := <[pr_Number pr := pr]>
                               (memory.at_key fullName (pullRequests db))]>
                 (pullRequests db)) db in
  let db := with_repoPRs
              (<[fullName := (slice_at fullName (repoPRs db) ++ [pr_Number pr])%list]>
                 (repoPRs db)) db in
  (db, w).

Definition GetPullRequest (repoFullName : string) (number : Z) (db : DB)
  : result PullRequest :=
  match pullRequests db !! repoFullName with
  | None => Err (ErrPullRequestNotFound repoFullName number)
  | Some repoPRs =>
      match repoPRs !! number with
      | None => Err (ErrPullRequestNotFound repoFullName number)
      | Some pr => Ok pr
      end
  end.

(** [ListPullRequests] returns no error. It allocates the page with
    [make([]*models.PullRequest, 0, end-offset)] and then slices
    [numbers[offset:end]]: [None] stands for a call that does not return,
    because the capacity is negative or the slice expression is out of
    range (with a negative offset the allocation can fail before the slice
    expression panics). *)
Definition ListPullRequests (repoFullName : string) (page perPage : Z) (db : DB)
  : option (list PullRequest * Z) :=
  match repoPRs db !! repoFullName with
  | None => Some ([], 0)
  | Some numbers =>
      let total := len numbers in
      let offset := mul (sub page 1) perPage in
      if decide (offset >= total) then Some ([], total)
      else
        let end_ := add offset perPage in
        let end_ := if decide (end_ > total) then total else end_ in
        if decide (0 <= offset /\ offset <= end_)
        then
          let page_numbers :=
            take (Z.to_nat (end_ - offset)) (drop (Z.to_nat offset) numbers) in
          Some (omap (fun number =>
                        memory.at_key repoFullName (pullRequests db) !! number)
                  page_numbers,
                total)
        else None
  end.

(** "Just reuse the add method since it will overwrite". *)
Definition UpdatePullRequest := AddPullRequest.

Definition DeletePullRequest (repoFullName : string) (number : Z) (db : DB) (w : written)
  : DB * option error :=
  match pullRequests db !! repoFullName with
  | None => (db, Some (ErrPullRequestNotFound repoFullName number))
  | Some prs =>
      match prs !! number with
      | None => (db, Some (ErrPullRequestNotFound repoFullName number))
      | Some _ =>
          let db := with_pullRequests
                      (<[repoFullName := delete number prs]> (pullRequests db)) db in
          let db :=
            match repoPRs db !! repoFullName with
            | None => db
            | Some numbers =>
                with_repoPRs (<[repoFullName := remove_first number numbers]> (repoPRs db))
                  db
            end in
          (db, w)
      end
  end.

(** *** Label operations: every label is kept under the name [global] *)

Definition AddLabel (label : Label) (db : DB) (w : written) : DB * option error :=
  let repoName := "global" in
  let db := with_labels
              (<[repoName := <[lb_Name label := label]>
                               (memory.at_key repoName (labels db))]> (labels db)) db in
  let db := with_repoLabels
              (<[repoName := <[lb_Name label := label]>
                               (memory.at_key repoName (repoLabels db))]> (repoLabels db))
              db in
  (db, w).

Definition GetLabel (name : string) (db : DB) : result Label :=
  let repoName := "global" in
  match labels db !! repoName with
  | None => Err (ErrLabelNotFound repoName name)
  | Some repoLabels =>
      match repoLabels !! name with
      | None => Err (ErrLabelNotFound repoName name)
      | Some label => Ok label
      end
  end.

(** *** Pull request label operations *)

(** The two [if _, ok := ...; !ok] blocks that open [AddPullRequestLabel]:
    they allocate the entries and change nothing that can be read. *)
Definition init_prLabels (repoFullName : string) (prNumber : Z) (db : DB) : DB :=
  with_prLabels
    (<[repoFullName := <[prNumber := slice_at prNumber
                                       (memory.at_key repoFullName (prLabels db))]>
                         (memory.at_key repoFullName (prLabels db))]> (prLabels db)) db.

Definition AddPullRequestLabel (repoFullName : string) (prNumber : Z) (labelName : string)
    (db : DB) (w : written) : DB * option error :=
  let db := init_prLabels repoFullName prNumber db in
  let names := slice_at prNumber (memory.at_key repoFullName (prLabels db)) in
  if bool_decide (labelName ∈ names) then (db, None)
  else
    (with_prLabels
       (<[repoFullName := <[prNumber := (names ++ [labelName])%list]>
                            (memory.at_key repoFullName (prLabels db))]> (prLabels db)) db,
     w).

Definition ListPullRequestLabels (repoFullName : string) (prNumber : Z) (db : DB)
  : list Label :=
  match prLabels db !! repoFullName with
  | None => []
  | Some byNumber =>
      match byNumber !! prNumber with
      | None => []
      | Some labelNames =>
          omap (fun name => memory.at_key "global" (labels db) !! name) labelNames
      end
  end.

Definition RemovePullRequestLabel (repoFullName : string) (prNumber : Z)
    (labelName : string) (db : DB) (w : written) : DB * option error :=
  match prLabels db !! repoFullName with
  | None => (db, None)
  | Some byNumber =>
      match byNumber !! prNumber with
      | None => (db, None)
      | Some names =>
          (with_prLabels
             (<[repoFullName := <[prNumber := remove_first labelName names]> byNumber]>
                (prLabels db)) db,
           w)
      end
  end.

End file.

(* ===================================================================== *)
(** ** internal/api: the HTTP handlers *)
(* ===================================================================== *)

Module api.
Import go models.

(** [url.Values]: the values of each key of the query string. *)
Definition Values : Type := gmap string (list string).

(** [Values.Get]: the first value of the key, or the empty string. *)
Definition Get (query : Values) (key : string) : string :=
  match query !! key with
  | Some (value :: _) => value
  | _ => ""
  end.

Section handlers.

(** [strconv.Atoi]. *)
Variable Atoi : string -> result Z.

Definition getPaginationParams (query : Values) : Z * Z :=
  let page := 1 in
  let perPage := 30 in
  let page :=
    if decide (Get query "page" <> "") then
      match Atoi (Get query "page") with
      | Ok p => if decide (p > 0) then p else page
      | Err _ => page
      end
    else page in
  let perPage :=
    if decide (Get query "per_page" <> "") then
      match Atoi (Get query "per_page") with
      | Ok pp => if decide (pp > 0 /\ pp <= 100) then pp else perPage
      | Err _ => perPage
      end
    else perPage in
  (page, perPage).

(** The handler [ListRepositories]: what it renders, the error standing
    for the response [ErrInternalServer(err)]. The [Pagination] of this
    package has the fields of [models.Pagination]. *)
Definition ListRepositories (rt : Runtime) (query : Values) (s : service.Service)
  : exec (result (list Repository * Pagination)) :=
  let (page, perPage) := getPaginationParams query in
  r ← service.ListRepositories rt page perPage s;
  match r with
  | Err err => Returns (Err err)
  | Ok (repos, total) =>
      totalPages ← div (sub (add total perPage) 1) perPage;
      Returns (Ok (repos, {| Page := page; PerPage := perPage; Total := total;
                             TotalPages := totalPages |}))
  end.

End handlers.

End api.

(* ===================================================================== *)
(** ** A runtime to execute the model with *)
(* ===================================================================== *)

Lemma insert_sorted_perm {A} (less : A -> A -> bool) (x : A) (l : list A) :
  go.insert_sorted less x l ≡ₚ x :: l.
Proof.
  induction l as [|y l IH]; simpl; [done|].
  destruct (less y x); [|done].
  rewrite IH. apply Permutation_swap.
Qed.

Lemma insertion_sort_perm {A} (less : A -> A -> bool) (l : list A) :
  go.insertion_sort less l ≡ₚ l.
Proof.
  induction l as [|x l IH]; simpl; [done|].
  unfold go.insertion_sort in *. simpl.
  rewrite insert_sorted_perm. by rewrite IH.
Qed.

(** One admissible runtime: [range] visits the entries in key order,
    [sort.Slice] is an insertion sort, [EqualFold] folds ASCII letters. *)
Definition runtime0 : go.Runtime :=
  {| go.range := fun K _ _ V m => map_to_list m;
     go.range_perm := fun K _ _ V m => reflexivity _;
     go.sort_Slice := @go.insertion_sort;
     go.sort_Slice_perm := @insertion_sort_perm;
     go.EqualFold := go.equal_fold_ascii |}.

(* ===================================================================== *)
(** ** Example data *)
(* ===================================================================== *)

Module example.
Import go models.

Definition repo : Repository :=
  {| Owner := "acme"; Name := "widgets"; FullName := "acme/widgets";
     Description := "widgets"; URL := "https://api.github.com/repos/acme/widgets";
     HTMLURL := "https://github.com/acme/widgets"; IsPrivate := false;
     LastSyncedAt := 100; CreatedAt := 10; UpdatedAt := 20 |}.

Definition pr (name : string) (number : Z) (state : string) : PullRequest :=
  {| pr_RepositoryFullName := name; pr_Number := number; pr_Title := "fix";
     pr_Body := ""; pr_State := state; pr_URL := ""; pr_HTMLURL := "";
     pr_UserLogin := "alice"; pr_UserAvatarURL := ""; pr_UserURL := "";
     pr_UserHTMLURL := ""; pr_CreatedAt := 30 + number; pr_UpdatedAt := 40;
     pr_ClosedAt := None; pr_MergedAt := None |}.

Definition issue (name : string) (number : Z) : Issue :=
  {| is_RepositoryFullName := name; is_Number := number; is_Title := "bug";
     is_Body := ""; is_State := "open"; is_URL := ""; is_HTMLURL := "";
     is_UserLogin := "bob"; is_UserAvatarURL := ""; is_UserURL := "";
     is_UserHTMLURL := ""; is_CreatedAt := 50; is_UpdatedAt := 60;
     is_ClosedAt := None |}.

Definition label : Label :=
  {| lb_Name := "bug"; lb_Color := "d73a4a"; lb_Description := "" |}.

(** A Store tracking [acme/widgets] only. *)
Definition store1 : memory.Cache := (memory.AddRepository repo memory.NewCache).1.

(** [store1] with pull request #5, issue #7 and the label [bug]. *)
Definition store2 : memory.Cache :=
  (memory.AddLabel label
     (memory.AddIssue (issue "acme/widgets" 7)
        (memory.AddPullRequest (pr "acme/widgets" 5 "open") store1).1).1).1.

Definition ghUser : github.User :=
  {| github.Login := "acme"; github.AvatarURL := ""; github.u_URL := "";
     github.u_HTMLURL := "" |}.

Definition ghRepo : github.Repository :=
  {| github.Owner := ghUser; github.Name := "widgets"; github.FullName := "acme/widgets";
     github.Description := "widgets"; github.URL := ""; github.HTMLURL := "";
     github.Private := false; github.CreatedAt := 10; github.UpdatedAt := 20 |}.

Definition ghLabel : github.Label :=
  {| github.l_Name := "bug"; github.l_Color := "d73a4a"; github.l_Description := "" |}.

Definition ghPR : github.PullRequest :=
  {| github.Number := 5; github.Title := "fix"; github.Body := ""; github.State := "open";
     github.p_URL := ""; github.p_HTMLURL := ""; github.p_User := ghUser;
     github.p_CreatedAt := 35; github.p_UpdatedAt := 40; github.ClosedAt := None;
     github.MergedAt := None; github.Labels := [ghLabel] |}.

Definition ghIssue : github.Issue :=
  {| github.i_Number := 7; github.i_Title := "bug"; github.i_Body := "";
     github.i_State := "open"; github.i_URL := ""; github.i_HTMLURL := "";
     github.i_User := ghUser; github.i_CreatedAt := 50; github.i_UpdatedAt := 60;
     github.i_ClosedAt := None; github.i_Labels := [ghLabel] |}.

Definition rateLimit : github.RateLimit :=
  {| github.Limit := 5000; github.Remaining := 4999; github.Reset := 1700000000 |}.

Definition upstreamFailure : error := errorString "gh: HTTP 502".

(** A client that answers every call. *)
Definition ghUp : github.ClientInterface :=
  {| github.GetRepository := fun _ _ => Ok ghRepo;
     github.ListPullRequests := fun _ _ _ => Ok [ghPR];
     github.ListIssues := fun _ _ _ => Ok [ghIssue];
     github.GetRateLimit := Ok rateLimit |}.

(** A client whose pull request listing fails. *)
Definition ghNoPulls : github.ClientInterface :=
  {| github.GetRepository := fun _ _ => Ok ghRepo;
     github.ListPullRequests := fun _ _ _ => Err upstreamFailure;
     github.ListIssues := fun _ _ _ => Ok [ghIssue];
     github.GetRateLimit := Ok rateLimit |}.

(** A service tracking [acme/widgets], with no cycle in flight. *)
Definition tracking : service.Service :=
  service.with_cache store2 (service.NewService 0).

Definition query (page perPage : Z) : PullRequestFilter :=
  {| f_State := ""; f_Author := ""; f_Repo := ""; f_Label := ""; f_SortBy := "";
     f_Direction := ""; f_Since := 0; f_GroupBy := ""; f_Page := page;
     f_PerPage := perPage |}.

Definition scoped (repo : string) (page perPage : Z) : PullRequestFilter :=
  {| f_State := ""; f_Author := ""; f_Repo := repo; f_Label := ""; f_SortBy := "";
     f_Direction := ""; f_Since := 0; f_GroupBy := ""; f_Page := page;
     f_PerPage := perPage |}.

(** A service that tracks [acme/widgets] with the 1001 pull requests #1
    to #1001, each stored by [AddPullRequest]. *)
Definition crowded : service.Service :=
  service.with_cache
    (foldl (fun c number => (memory.AddPullRequest (pr "acme/widgets" number "open") c).1)
       store1 (Z.of_nat <$> seq 1 1001))
    (service.NewService 0).





End example.

(* ===================================================================== *)
(** ** Notions used in the statements *)
(* ===================================================================== *)

Section statements.
Import go models service.

(** The label names attached to a pull request, as a [range] over the
    innermost map visits them. *)
Definition attachedNames (rt : Runtime) (repoFullName : string) (number : Z)
    (m : gmap string (gmap Z (gmap string unit))) : list string :=
  (range rt _ _ (memory.at_key number (memory.at_key repoFullName m))).*1.

(** *** The result set of a list query, in the words of the specification

    "If scope is given, resolve it to exactly one repository (fails with
    InvalidName if the scope string is not in owner/name form, NotFound if
    untracked); otherwise aggregate over every tracked repository. Collect
    all matching items unpaginated, apply state/author filters." The
    definitions below follow this sentence and not the code: the
    repositories are the names under which the Store tracks them, the items
    of a repository are all the items that the Store holds under its name,
    and nothing is cut to a page. *)

(** The names of the repositories in scope; [None] when the scope string
    does not resolve. *)
Definition spec_scope (filter : PullRequestFilter) (c : memory.Cache)
  : option (list string) :=
  if decide (f_Repo filter = "") then Some (map_to_list (memory.repositories c)).*1
  else
    match Split (f_Repo filter) "/" with
    | [owner; name] =>
        if decide (is_Some (memory.repositories c !! memory.fullNameOf owner name))
        then Some [memory.fullNameOf owner name]
        else None
    | _ => None
    end.

(** "state (case-insensitive exact match), author login (case-insensitive
    exact match)", each applied when the filter gives it. *)
Definition spec_matches (rt : Runtime) (filter : PullRequestFilter) (state login : string)
  : bool :=
  (bool_decide (f_State filter = "") || EqualFold rt state (f_State filter))
  && (bool_decide (f_Author filter = "") || EqualFold rt login (f_Author filter)).

(** The post-filter, pre-pagination result set, in some order. *)
Definition spec_pullRequests (rt : Runtime) (filter : PullRequestFilter)
    (c : memory.Cache) (scope : list string) : list PullRequest :=
  List.filter (fun pr => spec_matches rt filter (pr_State pr) (pr_UserLogin pr))
    (concat ((fun name =>
                (map_to_list (memory.at_key name (memory.pullRequests c))).*2) <$> scope)).

Definition spec_issues (rt : Runtime) (filter : IssueFilter)
    (c : memory.Cache) (scope : list string) : list Issue :=
  List.filter (fun issue => spec_matches rt filter (is_State issue) (is_UserLogin issue))
    (concat ((fun name =>
                (map_to_list (memory.at_key name (memory.issues c))).*2) <$> scope)).

(** Every repository record carries the name under which it is tracked as
    its [FullName]: the queries look the items up under [FullName]. *)
Definition full_names_are_keys (c : memory.Cache) : Prop :=
  map_Forall (fun key repo => FullName repo = key) (memory.repositories c).

(** The items of the requested page and the pagination descriptor for a
    result set of a given size. *)
Definition pageWindow {A} (filter : PullRequestFilter) (set : list A) : list A :=
  take (Z.to_nat (f_PerPage filter))
    (drop (Z.to_nat ((f_Page filter - 1) * f_PerPage filter)) set).

Definition descriptor (filter : PullRequestFilter) (total : Z) : Pagination :=
  {| Page := f_Page filter; PerPage := f_PerPage filter; Total := total;
     TotalPages := (total + f_PerPage filter - 1) `div` f_PerPage filter |}.

(** The record that [syncPullRequests] builds from a fetched pull request. *)
Definition toPullRequest (repo : Repository) (ghPR : github.PullRequest) : PullRequest :=
  {| pr_RepositoryFullName := FullName repo;
     pr_Number := github.Number ghPR;
     pr_Title := github.Title ghPR;
     pr_Body := github.Body ghPR;
     pr_State := github.State ghPR;
     pr_URL := github.p_URL ghPR;
     pr_HTMLURL := github.p_HTMLURL ghPR;
     pr_UserLogin := github.Login (github.p_User ghPR);
     pr_UserAvatarURL := github.AvatarURL (github.p_User ghPR);
     pr_UserURL := github.u_URL (github.p_User ghPR);
     pr_UserHTMLURL := github.u_HTMLURL (github.p_User ghPR);
     pr_CreatedAt := github.p_CreatedAt ghPR;
     pr_UpdatedAt := github.p_UpdatedAt ghPR;
     pr_ClosedAt := github.ClosedAt ghPR;
     pr_MergedAt := github.MergedAt ghPR |}.




(** The Store holds every repository under the key composed from its
    owner and name: [AddRepository] and [UpdateRepository] compute the key
    that way. *)
Definition cache_wf (c : memory.Cache) : Prop :=
  map_Forall (fun key repo => memory.fullNameOf (Owner repo) (Name repo) = key)
    (memory.repositories c).

(** The system after [AddRepository("acme/widgets")] has returned and the
    sync goroutine that it started has run up to its [return] with the
    pull request listing failing: the deferred function has not run yet. *)
Definition added : System :=
  request (initial 0) (AddRepository example.ghUp 100 "acme/widgets" (svc (initial 0))).1.

Definition failing : System :=
  {| svc := (syncRepository_body example.ghNoPulls 200 "acme" "widgets" (svc added)).1;
     pending := delete 0%nat (pending added);
     unwinding := (unwinding added ++ [("acme", "widgets")])%list |}.

(** [c] occurs in [s]. *)
Fixpoint has_char (c : ascii) (s : string) : bool :=
  match s with
  | EmptyString => false
  | String x s' => bool_decide (x = c) || has_char c s'
  end.

(** The claim of the specification about [last_synced_at], read for
    [AddRepository]: the call writes no [LastSyncedAt], so every stored
    value is the one stored before the call or the zero [Time] of a
    repository that has never been synced. *)
Definition AddRepository_leaves_last_synced_at : Prop :=
  forall (gh : github.ClientInterface) (now : Time) (fullName : string)
         (s s' : Service) (repo : Repository),
    AddRepository gh now fullName s = (s', Ok repo) ->
    forall key stored,
      memory.repositories (cache s') !! key = Some stored ->
      LastSyncedAt <$> memory.repositories (cache s) !! key = Some (LastSyncedAt stored)
      \/ LastSyncedAt stored = zeroTime.

End statements.

(* ===================================================================== *)
(** ** Properties of the Store *)
(* ===================================================================== *)

Section store.
Import go models memory.

Lemma init_key_lookup {K} `{Countable K} {V} `{Empty V} (k : K) (m : gmap K V) :
  init_key k m !! k = Some (at_key k m).
Proof.
  unfold init_key, at_key. destruct (m !! k) eqn:E; simpl.
  - done.
  - by rewrite lookup_insert_eq.
Qed.

Lemma init_key_lookup_ne {K} `{Countable K} {V} `{Empty V} (k k' : K) (m : gmap K V) :
  k <> k' -> init_key k m !! k' = m !! k'.
Proof.
  intros Hne. unfold init_key. destruct (m !! k); [done|].
  by rewrite lookup_insert_ne.
Qed.

Lemma init_key_present {K} `{Countable K} {V} `{Empty V} (k : K) (m : gmap K V) :
  is_Some (m !! k) -> init_key k m = m.
Proof. intros [v Hv]. unfold init_key. by rewrite Hv. Qed.

Lemma init_key_idemp {K} `{Countable K} {V} `{Empty V} (k : K) (m : gmap K V) :
  init_key k (init_key k m) = init_key k m.
Proof. apply init_key_present. rewrite init_key_lookup. eauto. Qed.

Lemma at_key_init_key {K} `{Countable K} {V} `{Empty V} (k : K) (m : gmap K V) :
  at_key k (init_key k m) = at_key k m.
Proof. unfold at_key at 1. by rewrite init_key_lookup. Qed.

Lemma insert_init_key {K} `{Countable K} {V} `{Empty V} (k : K) (v : V) (m : gmap K V) :
  <[k := v]> (init_key k m) = <[k := v]> m.
Proof. unfold init_key. destruct (m !! k); [done|]. by rewrite insert_insert_eq. Qed.

Lemma at_key_insert {K} `{Countable K} {V} `{Empty V} (k : K) (v : V) (m : gmap K V) :
  at_key k (<[k := v]> m) = v.
Proof. unfold at_key. by rewrite lookup_insert_eq. Qed.

(** [attach] without the initialisation steps. *)
Lemma attach_eq (repoFullName : string) (number : Z) (labelName : string)
    (m : gmap string (gmap Z (gmap string unit))) :
  attach repoFullName number labelName m
  = <[repoFullName :=
        <[number := <[labelName := tt]> (at_key number (at_key repoFullName m))]>
          (at_key repoFullName m)]> m.
Proof.
  unfold attach.
  rewrite insert_init_key, !at_key_init_key, insert_init_key. done.
Qed.

(** Attaching is a set insertion: a second attach changes nothing. *)
Lemma attach_idemp (repoFullName : string) (number : Z) (labelName : string)
    (m : gmap string (gmap Z (gmap string unit))) :
  attach repoFullName number labelName (attach repoFullName number labelName m)
  = attach repoFullName number labelName m.
Proof.
  rewrite (attach_eq _ _ _ (attach _ _ _ m)).
  rewrite (attach_eq _ _ _ m).
  rewrite !at_key_insert. by rewrite !insert_insert_eq.
Qed.

Lemma attach_lookup (repoFullName : string) (number : Z) (labelName : string)
    (m : gmap string (gmap Z (gmap string unit))) :
  exists byNumber names,
    attach repoFullName number labelName m !! repoFullName = Some byNumber
    /\ byNumber !! number = Some names
    /\ names !! labelName = Some tt.
Proof.
  unfold attach. eexists _, _. rewrite lookup_insert_eq. split; [done|].
  rewrite lookup_insert_eq. split; [done|]. by rewrite lookup_insert_eq.
Qed.

Lemma range_keys_NoDup (rt : Runtime) {V} (m : gmap string V) :
  NoDup (range rt _ _ m).*1.
Proof. rewrite (range_perm rt). apply NoDup_fst_map_to_list. Qed.

Lemma range_keys_elem (rt : Runtime) {V} (m : gmap string V) (k : string) :
  k ∈ (range rt _ _ m).*1 <-> is_Some (m !! k).
Proof.
  rewrite (range_perm rt). rewrite list_elem_of_fmap. split.
  - intros [[k' v] [-> Hin]]. apply elem_of_map_to_list in Hin. simpl. eauto.
  - intros [v Hv]. exists (k, v). split; [done|]. by apply elem_of_map_to_list.
Qed.

Lemma NoDup_count_one (l : list string) (x : string) :
  NoDup l -> x ∈ l -> length (List.filter (fun y => bool_decide (y = x)) l) = 1%nat.
Proof.
  induction 1 as [|y l Hy Hnd IH]; intros Hin.
  - by apply elem_of_nil in Hin.
  - simpl. apply elem_of_cons in Hin. case_bool_decide as Hyx.
    + subst y. simpl. f_equal.
      clear IH Hin. induction l as [|z l IHl]; [done|]. simpl.
      apply not_elem_of_cons in Hy as [Hne Hy]. apply NoDup_cons in Hnd as [_ Hnd].
      case_bool_decide; [congruence|]. by apply IHl.
    + destruct Hin as [->|Hin]; [done|]. by apply IH.
Qed.


(** C7. For an existing pull request and an existing label, attaching the
    label succeeds, attaching it again succeeds and leaves the Store as the
    first call left it, and the pull request then carries the label exactly
    once. *)
Theorem AddPullRequestLabel_idempotent (rt : Runtime) (c : Cache)
    (repoFullName : string) (prNumber : Z) (labelName : string)
    (pr : PullRequest) (label : Label) :
  GetPullRequest repoFullName prNumber c = Ok pr ->
  GetLabel labelName c = Ok label ->
  exists c1,
    AddPullRequestLabel repoFullName prNumber labelName c = (c1, None)
    /\ AddPullRequestLabel repoFullName prNumber labelName c1 = (c1, None)
    /\ length (List.filter (fun name => bool_decide (name = labelName))
                 (attachedNames rt repoFullName prNumber (prLabels c1))) = 1%nat.
Proof.
  unfold GetPullRequest, GetLabel. intros Hpr Hlabel.
  destruct (repositories c !! repoFullName) as [repo|] eqn:Hrepo; [|done].
  destruct (pullRequests c !! repoFullName) as [repoMap|] eqn:Hmap; [|done].
  destruct (repoMap !! prNumber) as [pr'|] eqn:Hnum; [|done].
  destruct (labels c !! labelName) as [label'|] eqn:Hlab; [|done].
  eexists. split; [|split].
  - unfold AddPullRequestLabel. rewrite Hrepo, Hmap, Hnum, Hlab. reflexivity.
  - unfold AddPullRequestLabel. simpl. rewrite Hrepo, Hmap, Hnum, Hlab.
    by rewrite attach_idemp.
  - simpl. apply NoDup_count_one; [apply range_keys_NoDup|].
    apply range_keys_elem.
    destruct (attach_lookup repoFullName prNumber labelName (prLabels c))
      as (byNumber & names & H1 & H2 & H3).
    unfold at_key. rewrite H1. simpl. rewrite H2. simpl. rewrite H3. eauto.
Qed.

(** C8. Deleting a tracked repository succeeds; afterwards the repository,
    its pull requests, issues and label associations are gone and every
    query for it answers not-found, while the records of every other
    repository and the label registry are as before. *)
Theorem DeleteRepository_cascades (rt : Runtime) (c : Cache) (owner name : string) :
  is_Some (repositories c !! fullNameOf owner name) ->
  exists c',
    DeleteRepository owner name c = (c', None)
    /\ (repositories c' !! fullNameOf owner name = None
        /\ pullRequests c' !! fullNameOf owner name = None
        /\ issues c' !! fullNameOf owner name = None
        /\ prLabels c' !! fullNameOf owner name = None
        /\ issueLabels c' !! fullNameOf owner name = None)
    /\ (GetRepository owner name c' = Err (errRepositoryNotFound (fullNameOf owner name))
        /\ (forall page perPage,
               ListPullRequests rt (fullNameOf owner name) page perPage c'
               = Returns (Err (errRepositoryNotFound (fullNameOf owner name))))
        /\ (forall page perPage,
               ListIssues rt (fullNameOf owner name) page perPage c'
               = Returns (Err (errRepositoryNotFound (fullNameOf owner name))))
        /\ (forall n, GetPullRequest (fullNameOf owner name) n c'
                      = Err (errRepositoryNotFound (fullNameOf owner name)))
        /\ (forall n, GetIssue (fullNameOf owner name) n c'
                      = Err (errRepositoryNotFound (fullNameOf owner name)))
        /\ (forall n, ListPullRequestLabels rt (fullNameOf owner name) n c'
                      = Err (errRepositoryNotFound (fullNameOf owner name)))
        /\ (forall n, ListIssueLabels rt (fullNameOf owner name) n c'
                      = Err (errRepositoryNotFound (fullNameOf owner name))))
    /\ (forall other, other <> fullNameOf owner name ->
           repositories c' !! other = repositories c !! other
           /\ pullRequests c' !! other = pullRequests c !! other
           /\ issues c' !! other = issues c !! other
           /\ prLabels c' !! other = prLabels c !! other
           /\ issueLabels c' !! other = issueLabels c !! other)
    /\ labels c' = labels c.
Proof.
  intros [repo Hrepo]. eexists. split.
  { unfold DeleteRepository. rewrite Hrepo. reflexivity. }
  simpl. split; [|split; [|split]].
  - by rewrite !lookup_delete_eq.
  - unfold GetRepository, ListPullRequests, ListIssues, GetPullRequest, GetIssue,
      ListPullRequestLabels, ListIssueLabels. simpl.
    by rewrite !lookup_delete_eq.
  - intros other Hne. by rewrite !lookup_delete_ne.
  - done.
Qed.


(** C7 for pull request #5 of [acme/widgets] and the label [bug]. *)
Lemma AddPullRequestLabel_idempotent_witness :
  exists c1,
    AddPullRequestLabel "acme/widgets" 5 "bug" example.store2 = (c1, None)
    /\ AddPullRequestLabel "acme/widgets" 5 "bug" c1 = (c1, None)
    /\ length (List.filter (fun name => bool_decide (name = "bug"))
                 (attachedNames runtime0 "acme/widgets" 5 (prLabels c1))) = 1%nat.
Proof.
  apply (AddPullRequestLabel_idempotent runtime0 example.store2 "acme/widgets" 5 "bug"
           (example.pr "acme/widgets" 5 "open") example.label).
  - reflexivity.
  - reflexivity.
Defined.

(** C8 for [acme/widgets] with its pull request, issue and label. *)
Lemma DeleteRepository_cascades_witness :
  exists c',
    DeleteRepository "acme" "widgets" example.store2 = (c', None)
    /\ GetPullRequest "acme/widgets" 5 c' = Err (errRepositoryNotFound "acme/widgets")
    /\ labels c' = labels example.store2.
Proof.
  destruct (DeleteRepository_cascades runtime0 example.store2 "acme" "widgets")
    as (c' & Hdel & _ & (_ & _ & _ & Hpr & _) & _ & Hlabels).
  - vm_compute. eauto.
  - exists c'. split; [exact Hdel|]. split; [apply Hpr | exact Hlabels].
Defined.

End store.

(* ===================================================================== *)
(** ** Pagination *)
(* ===================================================================== *)

Section pagination.
Import go models memory.

Lemma wrap_id (z : Z) : in_int z -> wrap z = z.
Proof.
  unfold in_int, wrap, MinInt, MaxInt. intros Hz.
  rewrite Z.mod_small by lia. lia.
Qed.

Lemma wrap_sub_wrap (x y : Z) : wrap (wrap x - y) = wrap (x - y).
Proof.
  unfold wrap. f_equal.
  replace ((x + 2 ^ 63) `mod` 2 ^ 64 - 2 ^ 63 - y + 2 ^ 63)
    with ((x + 2 ^ 63) `mod` 2 ^ 64 - y) by lia.
  rewrite Zminus_mod_idemp_l. f_equal. lia.
Qed.

Lemma range_length (rt : Runtime) {K} `{Countable K} {V} (m : gmap K V) :
  length (range rt K V m) = size m.
Proof. rewrite (range_perm rt). apply length_map_to_list. Qed.

Lemma range_values_len (rt : Runtime) {K} `{Countable K} {V} (m : gmap K V) :
  len (range rt K V m).*2 = Z.of_nat (size m).
Proof. unfold len. by rewrite length_fmap, range_length. Qed.

(** Inside the range where the offset arithmetic does not wrap, a listing
    returns the requested window of the items and the total. *)
Lemma paginate_window {A} (items : list A) (page perPage : Z) :
  1 <= page -> 1 <= perPage ->
  (page - 1) * perPage <= MaxInt ->
  len items + perPage - 1 <= MaxInt ->
  paginate items (len items) page perPage
  = Returns (Ok (take (Z.to_nat perPage) (drop (Z.to_nat ((page - 1) * perPage)) items),
                 len items)).
Proof.
  intros Hpage Hper Hmul Hadd. unfold paginate, mul, sub, add.
  assert (Hp1 : wrap (page - 1) = page - 1).
  { apply wrap_id. unfold in_int, MinInt, MaxInt in *. nia. }
  rewrite Hp1.
  assert (Hst : wrap ((page - 1) * perPage) = (page - 1) * perPage).
  { apply wrap_id. unfold in_int, MinInt, MaxInt in *. nia. }
  rewrite Hst. set (start := (page - 1) * perPage) in *.
  assert (0 <= start) by (unfold start; nia).
  unfold len in *.
  case_decide as Hge.
  - rewrite drop_ge by lia. by rewrite take_nil.
  - assert (Hend : wrap (start + perPage) = start + perPage).
    { apply wrap_id. unfold in_int, MinInt, MaxInt in *. lia. }
    rewrite Hend.
    destruct (decide (start + perPage > Z.of_nat (length items))) as [Hgt|Hgt];
      unfold slice, len; rewrite decide_True by lia; simpl; do 3 f_equal.
    + rewrite !take_ge; [done| |]; rewrite length_drop; lia.
    + f_equal. lia.
Qed.

(** The call [List...(ctx, name, 1, 1000)] of the service never panics,
    whatever the size of the map. *)
Lemma paginate_first_1000 {A} (items : list A) :
  paginate items (len items) 1 1000 = Returns (Ok (take 1000 items, len items)).
Proof.
  unfold paginate, mul, sub, add. change (wrap (wrap (1 - 1) * 1000)) with 0.
  change (wrap (0 + 1000)) with 1000. unfold len.
  case_decide as Hge.
  - destruct items; [done|]. simpl in Hge. lia.
  - destruct (decide (1000 > Z.of_nat (length items))) as [Hgt|Hgt];
      unfold slice, len; rewrite decide_True by lia; simpl; do 3 f_equal.
    rewrite Z.sub_0_r, Nat2Z.id, drop_0. rewrite !take_ge; [done|lia|lia].
Qed.

End pagination.


(* ===================================================================== *)
(** ** ListRepositories *)
(* ===================================================================== *)

Section list_repositories.
Import go models memory.

(** Supporting fact: for a page number and a page size from 1 up, and
    as long as the offset arithmetic does not wrap, [ListRepositories]
    returns the requested window and the number of tracked repositories;
    past the last page the window is empty. *)
Lemma ListRepositories_window (rt : Runtime) (c : Cache) (page perPage : Z) :
  1 <= page -> 1 <= perPage ->
  (page - 1) * perPage <= MaxInt ->
  Z.of_nat (size (repositories c)) + perPage - 1 <= MaxInt ->
  ListRepositories rt page perPage c
  = Returns (Ok (take (Z.to_nat perPage)
                   (drop (Z.to_nat ((page - 1) * perPage))
                      (range rt _ _ (repositories c)).*2),
                 Z.of_nat (size (repositories c)))).
Proof.
  intros Hpage Hper Hmul Hadd. unfold ListRepositories.
  pose proof (range_values_len rt (repositories c)) as Hlen.
  case_decide as Hzero.
  - assert (Hnil : (range rt _ _ (repositories c)).*2 = []).
    { apply length_zero_iff_nil. unfold len in Hlen. lia. }
    rewrite Hnil, drop_nil, take_nil. by rewrite Hzero.
  - rewrite <- Hlen. apply paginate_window; try done. by rewrite Hlen.
Qed.

(** C9. [ListRepositories] is not total. On a Store that tracks one
    repository, page 0 makes the method slice from a negative offset and
    panic; so does a positive page number that passes the guard of the
    HTTP handler ([p > 0], [0 < pp <= 100]) and whose offset wraps around. *)
Theorem ListRepositories_panics (rt : Runtime) :
  ListRepositories rt 0 10 example.store1 = Panics (SliceBounds (-10) 0 1)
  /\ ListRepositories rt 184467440737095517 100 example.store1
     = Panics (SliceBounds (-16) 1 1).
Proof.
  pose proof (range_values_len rt (repositories example.store1)) as Hlen.
  change (Z.of_nat (size (repositories example.store1))) with 1 in Hlen.
  split.
  - unfold ListRepositories.
    change (Z.of_nat (size (repositories example.store1))) with 1.
    rewrite decide_False by lia.
    unfold paginate. change (mul (sub 0 1) 10) with (-10).
    rewrite decide_False by lia. change (add (-10) 10) with 0.
    rewrite decide_False by lia. unfold slice. rewrite Hlen.
    by rewrite decide_False by lia.
  - unfold ListRepositories.
    change (Z.of_nat (size (repositories example.store1))) with 1.
    rewrite decide_False by lia.
    unfold paginate. change (mul (sub 184467440737095517 1) 100) with (-16).
    rewrite decide_False by lia. change (add (-16) 100) with 84.
    rewrite decide_True by lia. unfold slice. rewrite Hlen.
    by rewrite decide_False by lia.
Qed.

End list_repositories.

(* ===================================================================== *)
(** ** The list queries of the service *)
(* ===================================================================== *)

Section list_queries.
Import go models service.

Lemma paginateFiltered_window {A} (filter : PullRequestFilter) (set : list A) :
  1 <= f_Page filter -> 1 <= f_PerPage filter ->
  (f_Page filter - 1) * f_PerPage filter <= MaxInt ->
  len set + f_PerPage filter - 1 <= MaxInt ->
  paginateFiltered set (f_Page filter) (f_PerPage filter)
  = Returns (Ok (pageWindow filter set, descriptor filter (len set))).
Proof.
  intros Hpage Hper Hmul Hadd. unfold paginateFiltered, pageWindow, descriptor.
  set (page := f_Page filter) in *. set (perPage := f_PerPage filter) in *.
  unfold mul, sub, add, div.
  assert (Hlen : 0 <= len set) by (unfold len; lia).
  assert (Hp1 : wrap (page - 1) = page - 1).
  { apply wrap_id. unfold in_int, MinInt, MaxInt in *. nia. }
  assert (Hst : wrap ((page - 1) * perPage) = (page - 1) * perPage).
  { apply wrap_id. unfold in_int, MinInt, MaxInt in *. nia. }
  assert (Hnum : wrap (wrap (len set + perPage) - 1) = len set + perPage - 1).
  { rewrite wrap_sub_wrap. apply wrap_id. unfold in_int, MinInt, MaxInt in *. lia. }
  assert (Hquot : wrap ((len set + perPage - 1) `quot` perPage)
                  = (len set + perPage - 1) `div` perPage).
  { rewrite Z.quot_div_nonneg by lia. apply wrap_id.
    assert (0 <= (len set + perPage - 1) `div` perPage) by (apply Z.div_pos; lia).
    assert ((len set + perPage - 1) `div` perPage <= len set + perPage - 1).
    { apply Z.div_le_upper_bound; nia. }
    unfold in_int, MinInt, MaxInt in *. lia. }
  rewrite Hp1, Hst, Hnum.
  rewrite (decide_False (P := perPage = 0)) by lia.
  set (start := (page - 1) * perPage) in *.
  assert (0 <= start) by (unfold start; nia).
  destruct (decide (start >= len set)) as [Hge|Hge]; simpl; rewrite Hquot.
  - unfold len in Hge. rewrite drop_ge by lia. by rewrite take_nil.
  - assert (Hend : wrap (start + perPage) = start + perPage).
    { apply wrap_id. unfold in_int, MinInt, MaxInt in *. lia. }
    rewrite Hend.
    destruct (decide (start + perPage > len set)) as [Hgt|Hgt];
      unfold slice; rewrite decide_True by lia; simpl; do 3 f_equal.
    + unfold len in *. rewrite !take_ge; [done| |]; rewrite length_drop; lia.
    + f_equal. lia.
Qed.

End list_queries.

Section list_queries_results.
Import go models service.

Lemma memory_ListRepositories_first_1000 (rt : Runtime) (c : memory.Cache) :
  memory.ListRepositories rt 1 1000 c
  = Returns (Ok (take 1000 (range rt _ _ (memory.repositories c)).*2,
                 Z.of_nat (size (memory.repositories c)))).
Proof.
  unfold memory.ListRepositories.
  pose proof (range_values_len rt (memory.repositories c)) as Hlen.
  case_decide as Hzero.
  - assert (Hnil : (range rt _ _ (memory.repositories c)).*2 = []).
    { apply length_zero_iff_nil. unfold len in Hlen. lia. }
    by rewrite Hnil, Hzero.
  - rewrite <- Hlen. apply paginate_first_1000.
Qed.

Lemma memory_ListPullRequests_first_1000 (rt : Runtime) (c : memory.Cache) (name : string) :
  exists r, memory.ListPullRequests rt name 1 1000 c = Returns r.
Proof.
  unfold memory.ListPullRequests.
  destruct (memory.repositories c !! name); [|eauto].
  destruct (memory.pullRequests c !! name) as [repoMap|]; [|eauto].
  rewrite <- (range_values_len rt repoMap), paginate_first_1000. eauto.
Qed.

Lemma memory_ListIssues_first_1000 (rt : Runtime) (c : memory.Cache) (name : string) :
  exists r, memory.ListIssues rt name 1 1000 c = Returns r.
Proof.
  unfold memory.ListIssues.
  destruct (memory.repositories c !! name); [|eauto].
  destruct (memory.issues c !! name) as [repoMap|]; [|eauto].
  rewrite <- (range_values_len rt repoMap), paginate_first_1000. eauto.
Qed.

(** The query functions check neither the page number nor the page size:
    page size 0, page 0 and an offset that wraps around panic. *)
Example page_size_zero_panics :
  listAllPullRequests runtime0 (example.query 1 0) (NewService 0) = Panics DivideByZero.
Proof. vm_compute. reflexivity. Qed.

Example page_zero_panics :
  listAllPullRequests runtime0 (example.query 0 10) example.tracking
  = Panics (SliceBounds (-10) 0 1).
Proof. vm_compute. reflexivity. Qed.

Example wrapped_offset_panics :
  listAllPullRequests runtime0 (example.query 184467440737095517 100) example.tracking
  = Panics (SliceBounds (-16) 1 1).
Proof. vm_compute. reflexivity. Qed.

End list_queries_results.

(* ===================================================================== *)
(** ** The sync cycle *)
(* ===================================================================== *)

Section sync_cycle.
Import go models service.

(** *** What the two stages leave alone *)

Lemma AddPullRequestLabel_frame (fullName : string) (n : Z) (l : string) (c : memory.Cache) :
  let c' := (memory.AddPullRequestLabel fullName n l c).1 in
  memory.repositories c' = memory.repositories c
  /\ memory.issues c' = memory.issues c
  /\ memory.issueLabels c' = memory.issueLabels c.
Proof.
  unfold memory.AddPullRequestLabel.
  destruct (memory.repositories c !! fullName); [|done].
  destruct (memory.pullRequests c !! fullName) as [repoMap|]; [|done].
  destruct (repoMap !! n); [|done].
  by destruct (memory.labels c !! l).
Qed.

Lemma AddIssueLabel_frame (fullName : string) (n : Z) (l : string) (c : memory.Cache) :
  let c' := (memory.AddIssueLabel fullName n l c).1 in
  memory.repositories c' = memory.repositories c
  /\ memory.pullRequests c' = memory.pullRequests c
  /\ memory.prLabels c' = memory.prLabels c.
Proof.
  unfold memory.AddIssueLabel.
  destruct (memory.repositories c !! fullName); [|done].
  destruct (memory.issues c !! fullName) as [repoMap|]; [|done].
  destruct (repoMap !! n); [|done].
  by destruct (memory.labels c !! l).
Qed.

Lemma AddLabel_frame (label : Label) (c : memory.Cache) :
  let c' := (memory.AddLabel label c).1 in
  memory.repositories c' = memory.repositories c
  /\ memory.pullRequests c' = memory.pullRequests c
  /\ memory.issues c' = memory.issues c
  /\ memory.prLabels c' = memory.prLabels c
  /\ memory.issueLabels c' = memory.issueLabels c.
Proof. unfold memory.AddLabel. by destruct (memory.labels c !! lb_Name label). Qed.

Lemma syncPullRequestLabel_frame (fullName : string) (n : Z) (c : memory.Cache)
    (ghLabel : github.Label) :
  let c' := syncPullRequestLabel fullName n c ghLabel in
  memory.repositories c' = memory.repositories c
  /\ memory.issues c' = memory.issues c
  /\ memory.issueLabels c' = memory.issueLabels c.
Proof.
  unfold syncPullRequestLabel.
  destruct (memory.GetLabel (github.l_Name ghLabel) c).
  - apply AddPullRequestLabel_frame.
  - match goal with |- context [memory.AddLabel ?l c] =>
      pose proof (AddLabel_frame l c) as Hl;
      destruct (memory.AddLabel l c) as [c1 [e1|]] end;
      simpl in Hl; destruct Hl as (Hr & _ & Hi & _ & Hil); [done|].
    destruct (AddPullRequestLabel_frame fullName n (github.l_Name ghLabel) c1)
      as (Hr' & Hi' & Hil').
    simpl. by rewrite Hr', Hi', Hil'.
Qed.

Lemma syncIssueLabel_frame (fullName : string) (n : Z) (c : memory.Cache)
    (ghLabel : github.Label) :
  let c' := syncIssueLabel fullName n c ghLabel in
  memory.repositories c' = memory.repositories c
  /\ memory.pullRequests c' = memory.pullRequests c
  /\ memory.prLabels c' = memory.prLabels c.
Proof.
  unfold syncIssueLabel.
  destruct (memory.GetLabel (github.l_Name ghLabel) c).
  - apply AddIssueLabel_frame.
  - match goal with |- context [memory.AddLabel ?l c] =>
      pose proof (AddLabel_frame l c) as Hl;
      destruct (memory.AddLabel l c) as [c1 [e1|]] end;
      simpl in Hl; destruct Hl as (Hr & Hp & _ & Hpl & _); [done|].
    destruct (AddIssueLabel_frame fullName n (github.l_Name ghLabel) c1)
      as (Hr' & Hp' & Hpl').
    simpl. by rewrite Hr', Hp', Hpl'.
Qed.

Lemma foldl_frame {A B} (f : memory.Cache -> A -> memory.Cache)
    (proj : memory.Cache -> B) (l : list A) :
  (forall c x, proj (f c x) = proj c) ->
  forall c, proj (foldl f c l) = proj c.
Proof.
  intros Hf. induction l as [|x l IH]; intros c; simpl; [done|].
  by rewrite IH.
Qed.

Lemma syncPullRequest_frame (repo : Repository) (c : memory.Cache)
    (ghPR : github.PullRequest) :
  let c' := syncPullRequest repo c ghPR in
  memory.repositories c' = memory.repositories c
  /\ memory.issues c' = memory.issues c
  /\ memory.issueLabels c' = memory.issueLabels c.
Proof.
  unfold syncPullRequest.
  cbv zeta. match goal with |- context [match ?u with (_, _) => _ end] =>
    assert (Hu : memory.repositories u.1 = memory.repositories c
                 /\ memory.issues u.1 = memory.issues c
                 /\ memory.issueLabels u.1 = memory.issueLabels c);
    [|destruct u as [c1 [e1|]]; simpl in Hu; [done|]] end.
  { destruct (memory.GetPullRequest _ _ c).
    - unfold memory.UpdatePullRequest. simpl.
      destruct (memory.repositories c !! FullName repo); [|done].
      destruct (memory.pullRequests c !! FullName repo) as [repoMap|]; [|done].
      by destruct (repoMap !! github.Number ghPR).
    - unfold memory.AddPullRequest. simpl.
      destruct (memory.repositories c !! FullName repo); [|done]. simpl.
      by destruct (memory.at_key _ _ !! _). }
  destruct Hu as (Hr & Hi & Hil). simpl.
  rewrite <- Hr, <- Hi, <- Hil.
  split; [|split]; apply foldl_frame; intros c2 x;
    apply (syncPullRequestLabel_frame _ _ c2 x).
Qed.

Lemma syncIssue_frame (repo : Repository) (c : memory.Cache) (ghIssue : github.Issue) :
  let c' := syncIssue repo c ghIssue in
  memory.repositories c' = memory.repositories c
  /\ memory.pullRequests c' = memory.pullRequests c
  /\ memory.prLabels c' = memory.prLabels c.
Proof.
  unfold syncIssue.
  cbv zeta. match goal with |- context [match ?u with (_, _) => _ end] =>
    assert (Hu : memory.repositories u.1 = memory.repositories c
                 /\ memory.pullRequests u.1 = memory.pullRequests c
                 /\ memory.prLabels u.1 = memory.prLabels c);
    [|destruct u as [c1 [e1|]]; simpl in Hu; [done|]] end.
  { destruct (memory.GetIssue _ _ c).
    - unfold memory.UpdateIssue. simpl.
      destruct (memory.repositories c !! FullName repo); [|done].
      destruct (memory.issues c !! FullName repo) as [repoMap|]; [|done].
      by destruct (repoMap !! github.i_Number ghIssue).
    - unfold memory.AddIssue. simpl.
      destruct (memory.repositories c !! FullName repo); [|done]. simpl.
      by destruct (memory.at_key _ _ !! _). }
  destruct Hu as (Hr & Hp & Hpl). simpl.
  rewrite <- Hr, <- Hp, <- Hpl.
  split; [|split]; apply foldl_frame; intros c2 x;
    apply (syncIssueLabel_frame _ _ c2 x).
Qed.

(** The pull request stage writes neither repositories nor issues. *)
Lemma syncPullRequests_frame (gh : github.ClientInterface) (owner name : string)
    (s : Service) :
  let s' := (syncPullRequests gh owner name s).1 in
  memory.repositories (cache s') = memory.repositories (cache s)
  /\ memory.issues (cache s') = memory.issues (cache s)
  /\ memory.issueLabels (cache s') = memory.issueLabels (cache s)
  /\ syncStatus s' = syncStatus s.
Proof.
  unfold syncPullRequests.
  destruct (memory.GetRepository owner name (cache s)) as [repo|err]; [|done].
  destruct (github.ListPullRequests gh owner name syncOptions) as [prs|err]; [|done].
  simpl. repeat split; try done; apply foldl_frame; intros c x;
    apply (syncPullRequest_frame repo c x).
Qed.

(** The issue stage does not write repositories. *)
Lemma syncIssues_frame (gh : github.ClientInterface) (owner name : string) (s : Service) :
  let s' := (syncIssues gh owner name s).1 in
  memory.repositories (cache s') = memory.repositories (cache s)
  /\ syncStatus s' = syncStatus s.
Proof.
  unfold syncIssues.
  destruct (memory.GetRepository owner name (cache s)) as [repo|err]; [|done].
  destruct (github.ListIssues gh owner name syncOptions) as [issues|err]; [|done].
  simpl. split; [|done]. apply foldl_frame. intros c x.
  apply (syncIssue_frame repo c x).
Qed.

(** A failing pull request stage has written nothing to the Store and has
    sent at most the pull request listing to GitHub. *)
Lemma syncPullRequests_failure (gh : github.ClientInterface) (owner name : string)
    (s : Service) (err : error) :
  (syncPullRequests gh owner name s).2 = Some err ->
  cache (syncPullRequests gh owner name s).1 = cache s
  /\ (events (syncPullRequests gh owner name s).1 = events s
      \/ events (syncPullRequests gh owner name s).1
         = (events s ++ [CallListPullRequests owner name syncOptions])%list).
Proof.
  unfold syncPullRequests.
  destruct (memory.GetRepository owner name (cache s)) as [repo|e]; [|by eauto].
  destruct (github.ListPullRequests gh owner name syncOptions) as [prs|e]; [done|].
  simpl. eauto.
Qed.


End sync_cycle.

Section sync_cycle_results.
Import go models service.




(** C2. The cycle deletes its status entry when it returns, also when it
    returns a failure: after a failed cycle the status map holds no entry
    for the repository. *)
Theorem failed_cycle_leaves_no_status (gh : github.ClientInterface) (now : Time)
    (owner name : string) (s : Service) (err : error) :
  (syncRepository gh now owner name s).2 = Some err ->
  syncStatus (syncRepository gh now owner name s).1 !! memory.fullNameOf owner name = None.
Proof.
  intros _. unfold syncRepository.
  destruct (syncRepository_body gh now owner name s) as [s1 r]. simpl.
  apply lookup_delete_eq.
Qed.

(** C2 for a cycle on [acme/widgets] whose pull request listing fails. *)
Lemma failed_cycle_leaves_no_status_witness :
  syncStatus (syncRepository example.ghNoPulls 200 "acme" "widgets" example.tracking).1
    !! "acme/widgets" = None.
Proof.
  apply (failed_cycle_leaves_no_status example.ghNoPulls 200 "acme" "widgets"
           example.tracking
           (wrapError "failed to sync pull requests: "
              (wrapError "failed to list pull requests: " example.upstreamFailure))).
  reflexivity.
Defined.

(** The status report after that failed cycle counts no errored
    repository. *)
Example status_after_failed_cycle :
  repositories_error
    <$> match (GetStatus runtime0 example.ghUp 300
                 (syncRepository example.ghNoPulls 200 "acme" "widgets"
                    example.tracking).1).2 with
        | Returns (Ok st) => Some st
        | _ => None
        end
  = Some 0.
Proof. vm_compute. reflexivity. Qed.

End sync_cycle_results.

(* ===================================================================== *)
(** ** The status report *)
(* ===================================================================== *)

Section status.
Import go models service.

(** [GetStatus] reports the size of the whole status map as the number of
    syncing repositories. *)
Lemma GetStatus_syncing_is_map_size (rt : Runtime) (gh : github.ClientInterface)
    (now : Time) (s : Service) (st : Status) :
  (GetStatus rt gh now s).2 = Returns (Ok st) ->
  repositories_syncing st = Z.of_nat (size (syncStatus s))
  /\ repositories_error st = countErrors rt (syncStatus s).
Proof.
  unfold GetStatus. rewrite memory_ListRepositories_first_1000.
  destruct (github.GetRateLimit gh) as [rateLimit|err]; simpl; [|done].
  intros [= <-]. done.
Qed.

Lemma countErrors_singleton (rt : Runtime) (key status : string) :
  countErrors rt {[key := status]} = if HasPrefix status "error" then 1 else 0.
Proof.
  unfold countErrors.
  pose proof (range_perm rt string string {[key := status]}) as Hperm.
  rewrite map_to_list_singleton in Hperm.
  apply Permutation_singleton_r in Hperm. rewrite Hperm. simpl.
  by destruct (HasPrefix status "error").
Qed.

Lemma failing_reachable (rt : Runtime) : reachable rt failing.
Proof.
  exists 0. eapply rtc_l; [apply step_AddRepository|].
  eapply rtc_l; [|apply rtc_refl].
  apply (step_sync_body rt added example.ghNoPulls 200 0%nat "acme" "widgets").
  reflexivity.
Qed.

Lemma failing_status :
  syncStatus (svc failing)
  = {[ "acme/widgets" :=
         "error syncing pull requests: failed to list pull requests: gh: HTTP 502" ]}.
Proof. reflexivity. Qed.

Lemma GetStatus_returns (rt : Runtime) (gh : github.ClientInterface) (now : Time)
    (s : Service) (rateLimit : github.RateLimit) :
  github.GetRateLimit gh = Ok rateLimit ->
  exists st, (GetStatus rt gh now s).2 = Returns (Ok st).
Proof.
  intros Hrate. unfold GetStatus. rewrite memory_ListRepositories_first_1000, Hrate.
  eexists. reflexivity.
Qed.

(** C1. In the reachable state [failing] the status map has one entry, an
    error string, and [GetStatus] counts it both as errored and as
    syncing. *)
Theorem errored_entry_is_counted_as_syncing (rt : Runtime) :
  reachable rt failing
  /\ syncStatus (svc failing)
     = {[ "acme/widgets" :=
            "error syncing pull requests: failed to list pull requests: gh: HTTP 502" ]}
  /\ exists st, (GetStatus rt example.ghUp 300 (svc failing)).2 = Returns (Ok st)
                /\ repositories_error st = 1
                /\ repositories_syncing st = 1.
Proof.
  split; [apply failing_reachable|]. split; [apply failing_status|].
  destruct (GetStatus_returns rt example.ghUp 300 (svc failing) example.rateLimit)
    as [st Hst]; [reflexivity|].
  exists st. split; [exact Hst|].
  destruct (GetStatus_syncing_is_map_size rt example.ghUp 300 (svc failing) st Hst)
    as [Hsync Herr].
  rewrite Hsync, Herr, failing_status, countErrors_singleton, map_size_singleton.
  split; reflexivity.
Qed.

End status.

(* ===================================================================== *)
(** ** Tracking a repository *)
(* ===================================================================== *)

Section add_repository.
Import go models service.

Lemma Split_no_separator (sep : ascii) (s : string) :
  has_char sep s = false -> Split s sep = [s].
Proof.
  induction s as [|c s IH]; simpl; [done|].
  intros Hfree. apply orb_false_iff in Hfree as [Hc Hs].
  apply bool_decide_eq_false in Hc. rewrite decide_False by done.
  by rewrite IH.
Qed.

Lemma Split_join (sep : ascii) (a b : string) :
  has_char sep a = false ->
  Split (a ++ String sep b) sep = a :: Split b sep.
Proof.
  induction a as [|c a IH]; simpl.
  - intros _. by rewrite decide_True.
  - intros Hfree. apply orb_false_iff in Hfree as [Hc Ha].
    apply bool_decide_eq_false in Hc. rewrite decide_False by done.
    by rewrite IH.
Qed.

Lemma Split_fullNameOf (owner name : string) :
  has_char "/" owner = false -> has_char "/" name = false ->
  Split (memory.fullNameOf owner name) "/" = [owner; name].
Proof.
  intros Ho Hn. unfold memory.fullNameOf.
  change (owner ++ "/" ++ name) with (owner ++ String "/" name).
  by rewrite Split_join, Split_no_separator.
Qed.

(** C10. For a full name [owner/name] that the Store already tracks,
    [AddRepository] returns the stored record and no error, and the service
    is exactly as before: nothing was requested from GitHub, nothing was
    written to the Store, no goroutine was started. *)
Theorem AddRepository_tracked_returns_existing (gh : github.ClientInterface) (now : Time)
    (owner name : string) (s : Service) (repo : Repository) :
  has_char "/" owner = false -> has_char "/" name = false ->
  memory.repositories (cache s) !! memory.fullNameOf owner name = Some repo ->
  AddRepository gh now (memory.fullNameOf owner name) s = (s, Ok repo).
Proof.
  intros Ho Hn Hrepo. unfold AddRepository.
  rewrite Split_fullNameOf by done.
  unfold memory.GetRepository. by rewrite Hrepo.
Qed.

(** C10 for [acme/widgets], with a client that is never called. *)
Lemma AddRepository_tracked_returns_existing_witness :
  AddRepository example.ghNoPulls 200 "acme/widgets" example.tracking
  = (example.tracking, Ok example.repo).
Proof.
  apply (AddRepository_tracked_returns_existing example.ghNoPulls 200 "acme" "widgets"
           example.tracking example.repo); reflexivity.
Defined.

(** The format check of [AddRepository] accepts exactly two pieces: a name
    with a second separator is refused before the Store is consulted. *)
Example AddRepository_three_pieces :
  AddRepository example.ghUp 200 "acme/widgets/extra" example.tracking
  = (example.tracking, Err ErrInvalidRepositoryName).
Proof. reflexivity. Qed.

End add_repository.

(* ===================================================================== *)
(** ** Who writes [LastSyncedAt] *)
(* ===================================================================== *)

Section last_synced_at.
Import go models service.

(** C4, counterexample. [AddRepository] stamps the record it stores with
    the current time. *)
Lemma AddRepository_sets_last_synced_at : ~ AddRepository_leaves_last_synced_at.
Proof.
  intros Hclaim.
  edestruct (Hclaim example.ghUp 100 "acme/widgets" (NewService 0)) as [Hsame|Hzero].
  - reflexivity.
  - instantiate (2 := "acme/widgets"). reflexivity.
  - vm_compute in Hsame. discriminate.
  - vm_compute in Hzero. discriminate.
Qed.

Lemma GetRepository_Ok (owner name : string) (c : memory.Cache) (repo : Repository) :
  memory.GetRepository owner name c = Ok repo
  <-> memory.repositories c !! memory.fullNameOf owner name = Some repo.
Proof.
  unfold memory.GetRepository.
  destruct (memory.repositories c !! memory.fullNameOf owner name); split; congruence.
Qed.

Lemma memory_AddRepository_added (repo : Repository) (c c' : memory.Cache) :
  memory.AddRepository repo c = (c', None) ->
  memory.repositories c !! memory.fullNameOf (Owner repo) (Name repo) = None
  /\ memory.repositories c'
     = <[memory.fullNameOf (Owner repo) (Name repo) := repo]> (memory.repositories c).
Proof.
  unfold memory.AddRepository.
  destruct (memory.repositories c !! memory.fullNameOf (Owner repo) (Name repo));
    [discriminate|].
  intros [= <-]. done.
Qed.

Lemma AddRepository_new_or_existing (gh : github.ClientInterface) (now : Time)
    (fullName : string) (s s' : Service) (repo : Repository) :
  AddRepository gh now fullName s = (s', Ok repo) ->
  (s' = s /\ exists key, memory.repositories (cache s) !! key = Some repo)
  \/ (LastSyncedAt repo = now
      /\ memory.repositories (cache s) !! memory.fullNameOf (Owner repo) (Name repo) = None
      /\ memory.repositories (cache s')
         = <[memory.fullNameOf (Owner repo) (Name repo) := repo]>
             (memory.repositories (cache s))).
Proof.
  unfold AddRepository.
  destruct (Split fullName "/") as [|owner [|name [|? ?]]]; try congruence.
  destruct (memory.GetRepository owner name (cache s)) as [existing|e] eqn:Hget.
  - intros [= <- <-]. left. split; [done|]. apply GetRepository_Ok in Hget. eauto.
  - destruct (github.GetRepository gh owner name) as [ghRepo|e']; [|congruence].
    match goal with |- context [memory.AddRepository ?r ?c] =>
      destruct (memory.AddRepository r c) as [c1 [e1|]] eqn:Hadd
    end; [congruence|].
    intros [= <- <-]. right.
    apply memory_AddRepository_added in Hadd as [Hfresh Hstored].
    simpl in *. done.
Qed.

Lemma syncRepository_repositories (gh : github.ClientInterface) (now : Time)
    (owner name : string) (s : Service) :
  cache_wf (cache s) ->
  match (syncRepository gh now owner name s).2 with
  | Some _ =>
      memory.repositories (cache (syncRepository gh now owner name s).1)
      = memory.repositories (cache s)
  | None =>
      exists repo,
        memory.repositories (cache s) !! memory.fullNameOf owner name = Some repo
        /\ memory.repositories (cache (syncRepository gh now owner name s).1)
           = <[memory.fullNameOf owner name := withLastSyncedAt now repo]>
               (memory.repositories (cache s))
  end.
Proof.
  intros Hwf. unfold syncRepository, syncRepository_body.
  set (fullName := memory.fullNameOf owner name).
  set (s0 := setStatus fullName "syncing" s).
  change (cache s0) with (cache s).
  destruct (memory.GetRepository owner name (cache s)) as [repo|e] eqn:Hget; [|done].
  apply GetRepository_Ok in Hget. fold fullName in Hget.
  pose proof (syncPullRequests_frame gh owner name s0) as (Hr1 & _).
  destruct (syncPullRequests gh owner name s0) as [s1 [e|]]; simpl in Hr1; [done|].
  pose proof (syncIssues_frame gh owner name s1) as (Hr2 & _).
  destruct (syncIssues gh owner name s1) as [s2 [e|]]; simpl in Hr2;
    [simpl; by rewrite Hr2, Hr1|].
  assert (Hkey : memory.fullNameOf (Owner repo) (Name repo) = fullName)
    by exact (Hwf fullName repo Hget).
  unfold memory.UpdateRepository. simpl. rewrite Hkey.
  rewrite lookup_alter_eq, Hr2, Hr1. change (cache s0) with (cache s).
  rewrite Hget. simpl. exists repo. split; [done|].
  apply map_eq. intros key. destruct (decide (key = fullName)) as [->|Hne].
  - by rewrite !lookup_insert_eq.
  - rewrite !lookup_insert_ne by done. by rewrite lookup_alter_ne.
Qed.

(** C4, amended. [AddRepository] sets [LastSyncedAt] of a repository that
    it starts to track to the current time and writes no other record;
    from then on a sync cycle is the only writer: a cycle that returns an
    error leaves every repository record as it was, a cycle that returns
    no error sets [LastSyncedAt] of its repository to the current time and
    changes nothing else in the record; deleting another repository,
    requesting a refresh and reading the status do not change it. *)
Theorem last_synced_at_writers (gh : github.ClientInterface) (now : Time) (s : Service) :
  cache_wf (cache s) ->
  (forall fullName s' repo,
      AddRepository gh now fullName s = (s', Ok repo) ->
      (s' = s /\ exists key, memory.repositories (cache s) !! key = Some repo)
      \/ (LastSyncedAt repo = now
          /\ memory.repositories (cache s) !! memory.fullNameOf (Owner repo) (Name repo)
             = None
          /\ memory.repositories (cache s')
             = <[memory.fullNameOf (Owner repo) (Name repo) := repo]>
                 (memory.repositories (cache s))))
  /\ (forall owner name,
         match (syncRepository gh now owner name s).2 with
         | Some _ =>
             memory.repositories (cache (syncRepository gh now owner name s).1)
             = memory.repositories (cache s)
         | None =>
             exists repo,
               memory.repositories (cache s) !! memory.fullNameOf owner name = Some repo
               /\ memory.repositories (cache (syncRepository gh now owner name s).1)
                  = <[memory.fullNameOf owner name := withLastSyncedAt now repo]>
                      (memory.repositories (cache s))
         end)
  /\ (forall owner name key,
         key <> memory.fullNameOf owner name ->
         memory.repositories (cache (DeleteRepository owner name s).1) !! key
         = memory.repositories (cache s) !! key)
  /\ (forall owner name, cache (RefreshRepository owner name s).1 = cache s)
  /\ (forall rt gh' now', cache (GetStatus rt gh' now' s).1 = cache s).
Proof.
  intros Hwf. split; [|split; [|split; [|split]]].
  - intros fullName s' repo. apply AddRepository_new_or_existing.
  - intros owner name. by apply syncRepository_repositories.
  - intros owner name key Hne. unfold DeleteRepository, memory.DeleteRepository.
    destruct (memory.repositories (cache s) !! memory.fullNameOf owner name); [|done].
    simpl. by rewrite lookup_delete_ne.
  - intros owner name. unfold RefreshRepository.
    by destruct (memory.GetRepository owner name (cache s)).
  - intros rt gh' now'. unfold GetStatus.
    rewrite memory_ListRepositories_first_1000.
    by destruct (github.GetRateLimit gh').
Qed.

Lemma tracking_wf : cache_wf (cache example.tracking).
Proof.
  unfold cache_wf.
  change (memory.repositories (cache example.tracking))
    with (<["acme/widgets" := example.repo]> (∅ : gmap string Repository)).
  apply map_Forall_insert; [done|]. split; [reflexivity|]. apply map_Forall_empty.
Qed.

(** C4, amended, for one cycle that succeeds at time 200 and one that fails. *)
Lemma last_synced_at_writers_witness :
  (syncRepository example.ghUp 200 "acme" "widgets" example.tracking).2 = None
  /\ LastSyncedAt
       <$> memory.repositories
             (cache (syncRepository example.ghUp 200 "acme" "widgets"
                       example.tracking).1) !! "acme/widgets"
     = Some 200
  /\ memory.repositories
       (cache (syncRepository example.ghNoPulls 200 "acme" "widgets"
                 example.tracking).1)
     = memory.repositories (cache example.tracking).
Proof.
  destruct (last_synced_at_writers example.ghUp 200 example.tracking tracking_wf)
    as (_ & Hup & _).
  destruct (last_synced_at_writers example.ghNoPulls 200 example.tracking tracking_wf)
    as (_ & Hdown & _).
  specialize (Hup "acme" "widgets"). specialize (Hdown "acme" "widgets").
  split; [reflexivity|]. split; [reflexivity|]. exact Hdown.
Defined.

End last_synced_at.

(* ===================================================================== *)
(** ** The key invariant of the Store holds in every reachable state *)
(* ===================================================================== *)

Section invariant.
Import go models service.

Lemma cache_wf_NewCache : cache_wf memory.NewCache.
Proof. apply map_Forall_empty. Qed.

Lemma cache_wf_same (c c' : memory.Cache) :
  memory.repositories c' = memory.repositories c -> cache_wf c -> cache_wf c'.
Proof. unfold cache_wf. by intros ->. Qed.

Lemma AddRepository_wf (gh : github.ClientInterface) (now : Time) (fullName : string)
    (s : Service) :
  cache_wf (cache s) -> cache_wf (cache (AddRepository gh now fullName s).1).
Proof.
  intros Hwf. unfold AddRepository.
  destruct (Split fullName "/") as [|owner [|name [|? ?]]]; try done.
  destruct (memory.GetRepository owner name (cache s)); [done|].
  destruct (github.GetRepository gh owner name) as [ghRepo|e']; [|done].
  match goal with |- context [memory.AddRepository ?r ?c] =>
    destruct (memory.AddRepository r c) as [c1 [e1|]] eqn:Hadd
  end.
  - unfold memory.AddRepository in Hadd.
    destruct (memory.repositories _ !! _) in Hadd; [|discriminate].
    by injection Hadd as <- _.
  - apply memory_AddRepository_added in Hadd as [_ Hstored].
    unfold cache_wf. simpl in *. rewrite Hstored.
    apply map_Forall_insert_2; [reflexivity | exact Hwf].
Qed.

Lemma DeleteRepository_wf (owner name : string) (s : Service) :
  cache_wf (cache s) -> cache_wf (cache (DeleteRepository owner name s).1).
Proof.
  intros Hwf. unfold DeleteRepository, memory.DeleteRepository.
  destruct (memory.repositories (cache s) !! memory.fullNameOf owner name); [|done].
  unfold cache_wf. simpl. by apply map_Forall_delete.
Qed.

Lemma syncRepository_body_cache (gh : github.ClientInterface) (now : Time)
    (owner name : string) (s : Service) :
  cache (syncRepository gh now owner name s).1
  = cache (syncRepository_body gh now owner name s).1.
Proof.
  unfold syncRepository. by destruct (syncRepository_body gh now owner name s).
Qed.

Lemma syncRepository_body_wf (gh : github.ClientInterface) (now : Time)
    (owner name : string) (s : Service) :
  cache_wf (cache s) -> cache_wf (cache (syncRepository_body gh now owner name s).1).
Proof.
  intros Hwf. rewrite <- syncRepository_body_cache.
  pose proof (syncRepository_repositories gh now owner name s Hwf) as Hsync.
  destruct ((syncRepository gh now owner name s).2).
  - by apply (cache_wf_same (cache s)).
  - destruct Hsync as (repo & Hrepo & Hstored). unfold cache_wf. rewrite Hstored.
    apply map_Forall_insert_2; [|exact Hwf]. exact (Hwf _ _ Hrepo).
Qed.

Lemma step_wf (rt : Runtime) (sys sys' : System) :
  step rt sys sys' -> cache_wf (cache (svc sys)) -> cache_wf (cache (svc sys')).
Proof.
  intros Hstep Hwf. destruct Hstep; simpl.
  - by apply AddRepository_wf.
  - by apply DeleteRepository_wf.
  - unfold RefreshRepository. by destruct (memory.GetRepository _ _ _).
  - unfold GetStatus. rewrite memory_ListRepositories_first_1000.
    by destruct (github.GetRateLimit gh).
  - by apply syncRepository_body_wf.
  - done.
Qed.

(** Every state that the running service reaches satisfies [cache_wf]. *)
Lemma reachable_wf (rt : Runtime) (sys : System) :
  reachable rt sys -> cache_wf (cache (svc sys)).
Proof.
  intros [now Hsteps]. apply rtc_nsteps in Hsteps as [n Hsteps].
  revert sys Hsteps. induction n as [|n IH]; intros sys Hsteps.
  - inversion Hsteps; subst. apply cache_wf_NewCache.
  - apply nsteps_inv_r in Hsteps as (mid & Hsteps & Hstep).
    apply (step_wf rt mid); [exact Hstep | by apply IH].
Qed.

(** The pull request stage returns an error in two cases only: the
    repository is not tracked, or the listing request failed. A pull request
    or a label that the Store refuses is skipped. *)
Lemma syncPullRequests_fails_iff (gh : github.ClientInterface) (owner name : string)
    (s : Service) (err : error) :
  (syncPullRequests gh owner name s).2 = Some err
  <-> (exists e, memory.GetRepository owner name (cache s) = Err e
                 /\ err = wrapError "repository not found: " e)
      \/ (exists repo e, memory.GetRepository owner name (cache s) = Ok repo
                         /\ github.ListPullRequests gh owner name syncOptions = Err e
                         /\ err = wrapError "failed to list pull requests: " e).
Proof.
  unfold syncPullRequests.
  destruct (memory.GetRepository owner name (cache s)) as [repo|e].
  - destruct (github.ListPullRequests gh owner name syncOptions) as [prs|e]; simpl.
    + split; [done|]. intros [(e & [=] & _)|(r & e & _ & [=] & _)].
    + split.
      * intros [= <-]. right. eauto.
      * intros [(e' & [=] & _)|(r & e' & _ & [= <-] & ->)]. done.
  - simpl. split.
    + intros [= <-]. left. eauto.
    + intros [(e' & [= <-] & ->)|(r & e' & [=] & _)]. done.
Qed.

End invariant.

(* ===================================================================== *)
(** ** The Store: records go in and come out *)
(* ===================================================================== *)

Section store_round_trips.
Import go models memory.

(** X1. Adding a repository under a free key succeeds; the repository can
    then be read back, every other repository reads as before, the label
    registry is untouched, and, when no child collection was left under the
    key, the repository lists as tracked and empty (an empty first page with
    total 0, not an error). *)
Theorem AddRepository_then_read (rt : Runtime) (repo : Repository) (c : Cache) :
  repositories c !! fullNameOf (Owner repo) (Name repo) = None ->
  exists c',
    AddRepository repo c = (c', None)
    /\ GetRepository (Owner repo) (Name repo) c' = Ok repo
    /\ (forall owner name,
           fullNameOf owner name <> fullNameOf (Owner repo) (Name repo) ->
           GetRepository owner name c' = GetRepository owner name c)
    /\ labels c' = labels c
    /\ (pullRequests c !! fullNameOf (Owner repo) (Name repo) = None ->
        forall perPage,
          ListPullRequests rt (fullNameOf (Owner repo) (Name repo)) 1 perPage c'
          = Returns (Ok ([], 0)))
    /\ (issues c !! fullNameOf (Owner repo) (Name repo) = None ->
        forall perPage,
          ListIssues rt (fullNameOf (Owner repo) (Name repo)) 1 perPage c'
          = Returns (Ok ([], 0))).
Proof.
  intros Hfree. set (key := fullNameOf (Owner repo) (Name repo)) in *.
  eexists. split; [unfold AddRepository; fold key; rewrite Hfree; reflexivity|].
  assert (Hfirst : forall A (perPage : Z), paginate (@nil A) 0 1 perPage = Returns (Ok ([], 0))).
  { intros A perPage. unfold paginate, mul, sub.
    change (wrap (1 - 1)) with 0. rewrite Z.mul_0_l. change (wrap 0) with 0.
    by rewrite decide_True by lia. }
  simpl. repeat split.
  - unfold GetRepository. simpl. fold key. by rewrite lookup_insert_eq.
  - intros owner name Hne. unfold GetRepository. simpl.
    by rewrite lookup_insert_ne.
  - intros Hnone perPage. unfold ListPullRequests. simpl.
    rewrite lookup_insert_eq. unfold init_key. rewrite Hnone, lookup_insert_eq.
    rewrite map_size_empty.
    assert (Hnil : (range rt Z PullRequest ∅).*2 = []).
    { apply length_zero_iff_nil. rewrite length_fmap, range_length. apply map_size_empty. }
    rewrite Hnil. apply Hfirst.
  - intros Hnone perPage. unfold ListIssues. simpl.
    rewrite lookup_insert_eq. unfold init_key. rewrite Hnone, lookup_insert_eq.
    rewrite map_size_empty.
    assert (Hnil : (range rt Z Issue ∅).*2 = []).
    { apply length_zero_iff_nil. rewrite length_fmap, range_length. apply map_size_empty. }
    rewrite Hnil. apply Hfirst.
Qed.

(** X1 on the empty Store. *)
Lemma AddRepository_then_read_witness :
  exists c',
    AddRepository example.repo NewCache = (c', None)
    /\ GetRepository "acme" "widgets" c' = Ok example.repo
    /\ ListPullRequests runtime0 "acme/widgets" 1 30 c' = Returns (Ok ([], 0)).
Proof.
  destruct (AddRepository_then_read runtime0 example.repo NewCache)
    as (c' & Hadd & Hget & _ & _ & Hprs & _); [reflexivity|].
  exists c'. split; [exact Hadd|]. split; [exact Hget|].
  apply Hprs. reflexivity.
Defined.

(** X2. [UpdateRepository] replaces the record of a tracked repository and
    nothing else: the new record is read back, the pull requests, issues,
    labels and associations are untouched; for an untracked repository it
    fails with not-found and leaves the Store as it was. *)
Theorem UpdateRepository_replaces_record (repo : Repository) (c : Cache) :
  (is_Some (repositories c !! fullNameOf (Owner repo) (Name repo)) ->
   exists c',
     UpdateRepository repo c = (c', None)
     /\ GetRepository (Owner repo) (Name repo) c' = Ok repo
     /\ c' = with_repositories (repositories c') c
     /\ forall key, key <> fullNameOf (Owner repo) (Name repo) ->
                    repositories c' !! key = repositories c !! key)
  /\ (repositories c !! fullNameOf (Owner repo) (Name repo) = None ->
      UpdateRepository repo c
      = (c, Some (errRepositoryNotFound (fullNameOf (Owner repo) (Name repo))))).
Proof.
  split.
  - intros [old Hold]. eexists. split; [unfold UpdateRepository; by rewrite Hold|].
    simpl. repeat split.
    + unfold GetRepository. simpl. by rewrite lookup_insert_eq.
    + intros key Hne. by rewrite lookup_insert_ne.
  - intros Hnone. unfold UpdateRepository. by rewrite Hnone.
Qed.

End store_round_trips.

(* ===================================================================== *)
(** ** The Store: pull requests, issues and labels *)
(* ===================================================================== *)

Section store_items.
Import go models memory.

Lemma AddPullRequest_eq (pr : PullRequest) (c : Cache) (repo : Repository)
    (repoMap : gmap Z PullRequest) :
  repositories c !! pr_RepositoryFullName pr = Some repo ->
  pullRequests c !! pr_RepositoryFullName pr = Some repoMap ->
  AddPullRequest pr c
  = match repoMap !! pr_Number pr with
    | Some _ => (c, Some (errPullRequestExists (pr_RepositoryFullName pr) (pr_Number pr)))
    | None =>
        (with_pullRequests
           (<[pr_RepositoryFullName pr := <[pr_Number pr := pr]> repoMap]> (pullRequests c)) c,
         None)
    end.
Proof.
  intros Hrepo Hmap. unfold AddPullRequest. rewrite Hrepo.
  cbn [pullRequests with_pullRequests].
  rewrite (init_key_present _ (pullRequests c)) by (rewrite Hmap; eauto).
  unfold at_key. rewrite Hmap. simpl.
  destruct (repoMap !! pr_Number pr); [|done].
  by destruct c.
Qed.

Lemma GetPullRequest_stored (pr : PullRequest) (c : Cache) (repoMap : gmap Z PullRequest)
    (name : string) (n : Z) :
  is_Some (repositories c !! pr_RepositoryFullName pr) ->
  pullRequests c !! pr_RepositoryFullName pr = Some repoMap ->
  GetPullRequest name n
    (with_pullRequests
       (<[pr_RepositoryFullName pr := <[pr_Number pr := pr]> repoMap]> (pullRequests c)) c)
  = if decide ((name, n) = (pr_RepositoryFullName pr, pr_Number pr)) then Ok pr
    else GetPullRequest name n c.
Proof.
  intros [repo Hrepo] Hmap. unfold GetPullRequest. simpl.
  destruct (decide (name = pr_RepositoryFullName pr)) as [->|Hname].
  - rewrite Hrepo, Hmap, lookup_insert_eq.
    destruct (decide (n = pr_Number pr)) as [->|Hn].
    + rewrite lookup_insert_eq. by rewrite decide_True.
    + rewrite lookup_insert_ne by done. by rewrite decide_False by congruence.
  - rewrite lookup_insert_ne by done. by rewrite decide_False by congruence.
Qed.

(** X3. For a tracked repository (with its pull request collection, as
    [AddRepository] creates it) exactly one of [AddPullRequest] and
    [UpdatePullRequest] succeeds, according to whether [GetPullRequest]
    finds the number; the other one fails and changes nothing. The one that
    succeeds stores the record, which is then read back, and every other
    pull request reads as before. *)
Theorem pull_request_upsert (pr : PullRequest) (c : Cache) :
  is_Some (repositories c !! pr_RepositoryFullName pr) ->
  is_Some (pullRequests c !! pr_RepositoryFullName pr) ->
  exists c',
    ((exists old,
         GetPullRequest (pr_RepositoryFullName pr) (pr_Number pr) c = Ok old
         /\ AddPullRequest pr c
            = (c, Some (errPullRequestExists (pr_RepositoryFullName pr) (pr_Number pr)))
         /\ UpdatePullRequest pr c = (c', None))
     \/ (GetPullRequest (pr_RepositoryFullName pr) (pr_Number pr) c
         = Err (errPullRequestNotFound (pr_RepositoryFullName pr) (pr_Number pr))
         /\ UpdatePullRequest pr c
            = (c, Some (errPullRequestNotFound (pr_RepositoryFullName pr) (pr_Number pr)))
         /\ AddPullRequest pr c = (c', None)))
    /\ GetPullRequest (pr_RepositoryFullName pr) (pr_Number pr) c' = Ok pr
    /\ forall name n, (name, n) <> (pr_RepositoryFullName pr, pr_Number pr) ->
                      GetPullRequest name n c' = GetPullRequest name n c.
Proof.
  intros [repo Hrepo] [repoMap Hmap].
  exists (with_pullRequests
            (<[pr_RepositoryFullName pr := <[pr_Number pr := pr]> repoMap]> (pullRequests c)) c).
  split; [|split].
  - rewrite (AddPullRequest_eq pr c repo repoMap) by done.
    unfold GetPullRequest, UpdatePullRequest. rewrite Hrepo, Hmap.
    destruct (repoMap !! pr_Number pr) as [old|]; [left; eauto|right; eauto].
  - rewrite GetPullRequest_stored by eauto. by rewrite decide_True.
  - intros name n Hne. rewrite GetPullRequest_stored by eauto. by rewrite decide_False.
Qed.

(** X3 for pull request #5 of [acme/widgets]: it is stored, so the update
    goes through, and for #6, which is new. *)
Lemma pull_request_upsert_witness :
  exists c',
    GetPullRequest "acme/widgets" 6 c' = Ok (example.pr "acme/widgets" 6 "closed")
    /\ GetPullRequest "acme/widgets" 5 c' = GetPullRequest "acme/widgets" 5 example.store2.
Proof.
  destruct (pull_request_upsert (example.pr "acme/widgets" 6 "closed") example.store2)
    as (c' & _ & Hget & Hother); [vm_compute; eauto | vm_compute; eauto |].
  exists c'. split; [exact Hget|]. apply Hother. discriminate.
Defined.

(** X4. [DeletePullRequest] removes a stored pull request together with its
    label associations: afterwards the number is not found, no label is
    attached to it, and every other pull request and its label set are as
    before; repositories, issues and the label registry are untouched. For a
    number that is not stored it fails and changes nothing. *)
Theorem DeletePullRequest_removes (rt : Runtime) (name : string) (n : Z) (c : Cache) :
  (forall old, GetPullRequest name n c = Ok old ->
     exists c',
       DeletePullRequest name n c = (c', None)
       /\ GetPullRequest name n c' = Err (errPullRequestNotFound name n)
       /\ attachedNames rt name n (prLabels c') = []
       /\ (forall name' n', (name', n') <> (name, n) ->
              GetPullRequest name' n' c' = GetPullRequest name' n' c
              /\ at_key n' (at_key name' (prLabels c'))
                 = at_key n' (at_key name' (prLabels c)))
       /\ repositories c' = repositories c /\ issues c' = issues c
       /\ issueLabels c' = issueLabels c /\ labels c' = labels c)
  /\ (forall err, GetPullRequest name n c = Err err ->
        DeletePullRequest name n c = (c, Some err)).
Proof.
  unfold GetPullRequest, DeletePullRequest. split.
  - intros old Hold.
    destruct (repositories c !! name) as [repo|] eqn:Hrepo; [|done].
    destruct (pullRequests c !! name) as [repoMap|] eqn:Hmap; [|done].
    destruct (repoMap !! n) as [p|] eqn:Hn; [|done].
    eexists. split; [reflexivity|]. simpl. rewrite Hrepo.
    assert (Hnames : forall name' n',
               at_key n' (at_key name' (delete_in name n (prLabels c)))
               = if decide ((name', n') = (name, n)) then ∅
                 else at_key n' (at_key name' (prLabels c))).
    { intros name' n'. unfold delete_in, at_key.
      destruct (decide (name' = name)) as [->|Hname].
      - destruct (prLabels c !! name) as [byNumber|] eqn:Hby; simpl.
        + rewrite lookup_insert_eq. simpl.
          destruct (decide (n' = n)) as [->|Hn'].
          * rewrite lookup_delete_eq. by rewrite decide_True.
          * rewrite lookup_delete_ne by done. by rewrite decide_False by congruence.
        + rewrite Hby. simpl. rewrite lookup_empty. simpl. by destruct (decide _).
      - rewrite decide_False by congruence.
        destruct (prLabels c !! name) as [byNumber|]; [|done].
        by rewrite lookup_insert_ne. }
    repeat split.
    + by rewrite lookup_insert_eq, lookup_delete_eq.
    + unfold attachedNames. rewrite Hnames, decide_True by done.
      apply length_zero_iff_nil. rewrite length_fmap, range_length. apply map_size_empty.
    + destruct (decide (name' = name)) as [->|Hname].
      * rewrite Hrepo, Hmap, lookup_insert_eq. rewrite lookup_delete_ne by congruence. done.
      * by rewrite lookup_insert_ne.
    + by rewrite Hnames, decide_False.
  - intros err Herr.
    destruct (repositories c !! name) as [repo|] eqn:Hrepo; [|congruence].
    destruct (pullRequests c !! name) as [repoMap|] eqn:Hmap; [|congruence].
    destruct (repoMap !! n) as [p|] eqn:Hn; congruence.
Qed.

(** X4 for pull request #5 of [acme/widgets]. *)
Lemma DeletePullRequest_removes_witness :
  exists c',
    DeletePullRequest "acme/widgets" 5 example.store2 = (c', None)
    /\ GetPullRequest "acme/widgets" 5 c' = Err (errPullRequestNotFound "acme/widgets" 5).
Proof.
  destruct (DeletePullRequest_removes runtime0 "acme/widgets" 5 example.store2) as [Hdel _].
  destruct (Hdel (example.pr "acme/widgets" 5 "open")) as (c' & Hc' & Hget & _);
    [reflexivity|].
  exists c'. split; [exact Hc' | exact Hget].
Defined.

End store_items.

(* ===================================================================== *)
(** ** The Store: labels and their associations *)
(* ===================================================================== *)

Section store_labels.
Import go models memory.

(** X5. The label registry is keyed by name: for every label exactly one of
    [AddLabel] and [UpdateLabel] succeeds, according to whether the name is
    registered, and the other fails and changes nothing; the one that
    succeeds stores the label, which [GetLabel] then returns, leaves every
    other name as it was and touches nothing outside the registry. *)
Theorem label_upsert (label : Label) (c : Cache) :
  exists c',
    ((exists old,
         GetLabel (lb_Name label) c = Ok old
         /\ AddLabel label c = (c, Some (errLabelExists (lb_Name label)))
         /\ UpdateLabel label c = (c', None))
     \/ (GetLabel (lb_Name label) c = Err (errLabelNotFound (lb_Name label))
         /\ UpdateLabel label c = (c, Some (errLabelNotFound (lb_Name label)))
         /\ AddLabel label c = (c', None)))
    /\ GetLabel (lb_Name label) c' = Ok label
    /\ (forall name, name <> lb_Name label -> GetLabel name c' = GetLabel name c)
    /\ c' = with_labels (labels c') c.
Proof.
  exists (with_labels (<[lb_Name label := label]> (labels c)) c).
  unfold GetLabel, AddLabel, UpdateLabel. simpl. split; [|split; [|split]].
  - destruct (labels c !! lb_Name label) as [old|]; [left; eauto|right; eauto].
  - by rewrite lookup_insert_eq.
  - intros name Hne. by rewrite lookup_insert_ne.
  - done.
Qed.

(** A loop over the entries of a map that rewrites or deletes the entry it
    visits. *)
Definition visit {K} `{Countable K} {V} (h : V -> option V) (m : gmap K V) (entry : K * V)
  : gmap K V :=
  match h entry.2 with
  | Some v => <[entry.1 := v]> m
  | None => delete entry.1 m
  end.

Lemma foldl_visit_lookup {K} `{Countable K} {V} (h : V -> option V) (l : list (K * V))
    (m : gmap K V) (k : K) :
  NoDup l.*1 ->
  foldl (visit h) m l !! k
  = match list_find (fun entry => entry.1 = k) l with
    | Some (_, entry) => h entry.2
    | None => m !! k
    end.
Proof.
  revert m. induction l as [|[k' v] l IH]; intros m Hnd; [done|].
  apply NoDup_cons in Hnd as [Hk' Hnd]. simpl. rewrite IH by done.
  destruct (decide (k' = k)) as [->|Hne]; simpl.
  - destruct (list_find (fun entry => entry.1 = k) l) as [[i [k2 v2]]|] eqn:Hfind.
    + apply list_find_Some in Hfind as (Hi & Hk2 & _). simpl in Hk2. subst k2.
      exfalso. apply Hk'. apply list_elem_of_fmap. exists (k, v2). split; [done|].
      by apply list_elem_of_lookup_2 in Hi.
    + simpl. unfold visit. simpl.
      destruct (h v); [by rewrite lookup_insert_eq | by rewrite lookup_delete_eq].
  - destruct (list_find (fun entry => entry.1 = k) l) as [[i [k2 v2]]|]; simpl; [done|].
    unfold visit. simpl.
    destruct (h v); [by rewrite lookup_insert_ne | by rewrite lookup_delete_ne].
Qed.

Lemma foldl_visit_range (rt : Runtime) {K} `{Countable K} {V} (h : V -> option V)
    (m : gmap K V) (k : K) :
  foldl (visit h) m (range rt K V m) !! k = m !! k ≫= h.
Proof.
  assert (Hnd : NoDup (range rt K V m).*1).
  { rewrite (range_perm rt). apply NoDup_fst_map_to_list. }
  rewrite foldl_visit_lookup by done.
  destruct (list_find (fun entry => entry.1 = k) (range rt K V m)) as [[i [k2 v2]]|] eqn:Hfind.
  - apply list_find_Some in Hfind as (Hi & Hk2 & _). simpl in Hk2. subst k2.
    apply list_elem_of_lookup_2 in Hi. rewrite (range_perm rt) in Hi.
    apply elem_of_map_to_list in Hi. by rewrite Hi.
  - destruct (m !! k) as [v|] eqn:Hv; [|done]. exfalso.
    apply list_find_None in Hfind. rewrite Forall_forall in Hfind.
    apply (Hfind (k, v)); [|done].
    rewrite (range_perm rt). by apply elem_of_map_to_list.
Qed.

(** What one turn of the inner loop of [DeleteLabel] does to the set it
    visits. *)
Definition withoutLabel (name : string) (names : gmap string unit)
  : option (gmap string unit) :=
  if decide (delete name names = ∅) then None else Some (delete name names).

Definition withoutLabelIn (rt : Runtime) (name : string) (byNumber : gmap Z (gmap string unit))
  : option (gmap Z (gmap string unit)) :=
  let byNumber := foldl (detachFromItem name) byNumber (range rt _ _ byNumber) in
  if decide (byNumber = ∅) then None else Some byNumber.

Lemma size_zero {K} `{Countable K} {V} (m : gmap K V) : Z.of_nat (size m) = 0 <-> m = ∅.
Proof. rewrite <- map_size_empty_iff. lia. Qed.

Lemma foldl_pointwise {A B} (f g : A -> B -> A) (l : list B) (a : A) :
  (forall a x, f a x = g a x) -> foldl f a l = foldl g a l.
Proof.
  intros Hfg. revert a. induction l as [|x l IH]; intros a; simpl; [done|].
  by rewrite Hfg, IH.
Qed.

Lemma detachFromItem_visit (name : string) (byNumber : gmap Z (gmap string unit))
    (entry : Z * gmap string unit) :
  detachFromItem name byNumber entry = visit (withoutLabel name) byNumber entry.
Proof.
  unfold detachFromItem, visit, withoutLabel.
  destruct (decide (delete name entry.2 = ∅)) as [Hempty|Hne].
  - rewrite decide_True by (by apply size_zero). by rewrite delete_insert_eq.
  - rewrite decide_False by (by rewrite size_zero). done.
Qed.

Lemma detachFromRepository_visit (rt : Runtime) (name : string)
    (m : gmap string (gmap Z (gmap string unit)))
    (entry : string * gmap Z (gmap string unit)) :
  detachFromRepository rt name m entry = visit (withoutLabelIn rt name) m entry.
Proof.
  unfold detachFromRepository, visit, withoutLabelIn. cbv zeta.
  destruct (decide (foldl (detachFromItem name) entry.2 (range rt _ _ entry.2) = ∅))
    as [Hempty|Hne].
  - rewrite decide_True by (by apply size_zero). by rewrite delete_insert_eq.
  - rewrite decide_False by (by rewrite size_zero). done.
Qed.

(** The two loops of [DeleteLabel] take the label out of every set, whatever
    the order of the visits. *)
Lemma detachEverywhere_at (rt : Runtime) (name : string)
    (m : gmap string (gmap Z (gmap string unit))) (repoFullName : string) (number : Z) :
  at_key number (at_key repoFullName (detachEverywhere rt name m))
  = delete name (at_key number (at_key repoFullName m)).
Proof.
  unfold detachEverywhere.
  rewrite (foldl_pointwise _ (visit (withoutLabelIn rt name)))
    by apply detachFromRepository_visit.
  unfold at_key at 2. rewrite foldl_visit_range.
  unfold at_key at 3.
  destruct (m !! repoFullName) as [byNumber|]; simpl;
    [|unfold at_key; rewrite lookup_empty; simpl; by rewrite delete_empty].
  assert (Hinner : forall n,
             foldl (detachFromItem name) byNumber (range rt _ _ byNumber) !! n
             = byNumber !! n ≫= withoutLabel name).
  { intros n.
    rewrite (foldl_pointwise _ (visit (withoutLabel name)))
      by apply detachFromItem_visit.
    apply foldl_visit_range. }
  assert (Hgoal : default ∅ (foldl (detachFromItem name) byNumber (range rt _ _ byNumber)
                              !! number)
                  = delete name (at_key number byNumber)).
  { rewrite Hinner. unfold at_key.
    destruct (byNumber !! number) as [names|]; simpl; [|by rewrite delete_empty].
    unfold withoutLabel. by destruct (decide (delete name names = ∅)) as [->|]. }
  unfold withoutLabelIn. cbv zeta.
  destruct (decide (foldl (detachFromItem name) byNumber (range rt _ _ byNumber) = ∅))
    as [Hempty|Hne]; simpl.
  - rewrite <- Hgoal, Hempty. unfold at_key. by rewrite !lookup_empty.
  - exact Hgoal.
Qed.

(** X6. [DeleteLabel] of a registered name removes it from the registry and
    from the labels of every pull request and every issue of every
    repository, and removes nothing else: each item keeps its other labels,
    and repositories, pull requests and issues are untouched. For a name
    that is not registered it fails and changes nothing. *)
Theorem DeleteLabel_detaches_everywhere (rt : Runtime) (name : string) (c : Cache) :
  (forall old, GetLabel name c = Ok old ->
     exists c',
       DeleteLabel rt name c = (c', None)
       /\ GetLabel name c' = Err (errLabelNotFound name)
       /\ (forall other, other <> name -> GetLabel other c' = GetLabel other c)
       /\ (forall repoFullName number,
              at_key number (at_key repoFullName (prLabels c'))
              = delete name (at_key number (at_key repoFullName (prLabels c)))
              /\ at_key number (at_key repoFullName (issueLabels c'))
                 = delete name (at_key number (at_key repoFullName (issueLabels c))))
       /\ repositories c' = repositories c
       /\ pullRequests c' = pullRequests c
       /\ issues c' = issues c)
  /\ (GetLabel name c = Err (errLabelNotFound name) ->
      DeleteLabel rt name c = (c, Some (errLabelNotFound name))).
Proof.
  unfold GetLabel, DeleteLabel. split.
  - intros old Hold. destruct (labels c !! name) as [label|] eqn:Hlabel; [|done].
    eexists. split; [reflexivity|]. simpl. repeat split.
    + by rewrite lookup_delete_eq.
    + intros other Hne. by rewrite lookup_delete_ne.
    + apply detachEverywhere_at.
    + apply detachEverywhere_at.
  - intros Herr. by destruct (labels c !! name).
Qed.

(** X6 for the label [bug] of the example Store. *)
Lemma DeleteLabel_detaches_everywhere_witness :
  exists c',
    DeleteLabel runtime0 "bug" example.store2 = (c', None)
    /\ GetLabel "bug" c' = Err (errLabelNotFound "bug").
Proof.
  destruct (DeleteLabel_detaches_everywhere runtime0 "bug" example.store2) as [Hdel _].
  destruct (Hdel example.label) as (c' & Hc' & Hget & _); [reflexivity|].
  exists c'. split; [exact Hc' | exact Hget].
Defined.

Lemma detach_at (repoFullName : string) (number : Z) (labelName : string)
    (byNumber : gmap Z (gmap string unit)) (names : gmap string unit)
    (m : gmap string (gmap Z (gmap string unit))) (name' : string) (n' : Z) :
  m !! repoFullName = Some byNumber ->
  byNumber !! number = Some names ->
  at_key n' (at_key name' (detach repoFullName number labelName byNumber names m))
  = if decide ((name', n') = (repoFullName, number)) then delete labelName names
    else at_key n' (at_key name' m).
Proof.
  intros Hm Hby. unfold detach. cbv zeta.
  set (names' := delete labelName names).
  set (by' := if decide (Z.of_nat (size names') = 0)
              then delete number (<[number := names']> byNumber)
              else <[number := names']> byNumber).
  assert (Hby' : forall k, default ∅ (by' !! k)
                           = if decide (k = number) then names' else at_key k byNumber).
  { intros k. unfold by', at_key. destruct (decide (k = number)) as [->|Hk].
    - destruct (decide (Z.of_nat (size names') = 0)) as [Hz|Hz].
      + rewrite lookup_delete_eq. simpl. symmetry. by apply size_zero.
      + by rewrite lookup_insert_eq.
    - destruct (decide (Z.of_nat (size names') = 0)).
      + rewrite lookup_delete_ne, lookup_insert_ne by done. done.
      + by rewrite lookup_insert_ne. }
  assert (Hm' : forall k,
             at_key k (if decide (Z.of_nat (size by') = 0)
                       then delete repoFullName (<[repoFullName := by']> m)
                       else <[repoFullName := by']> m)
             = if decide (k = repoFullName) then by' else at_key k m).
  { intros k. unfold at_key. destruct (decide (k = repoFullName)) as [->|Hk].
    - destruct (decide (Z.of_nat (size by') = 0)) as [Hz|Hz].
      + rewrite lookup_delete_eq. simpl. symmetry. by apply size_zero.
      + by rewrite lookup_insert_eq.
    - destruct (decide (Z.of_nat (size by') = 0)).
      + rewrite lookup_delete_ne, lookup_insert_ne by done. done.
      + by rewrite lookup_insert_ne. }
  rewrite Hm'. destruct (decide (name' = repoFullName)) as [->|Hname].
  - unfold at_key at 1. rewrite Hby'. destruct (decide (n' = number)) as [->|Hn].
    + by rewrite decide_True.
    + rewrite decide_False by congruence. unfold at_key. by rewrite Hm.
  - by rewrite decide_False by congruence.
Qed.

(** X7. [RemovePullRequestLabel] for an existing pull request and a
    registered label: when the pull request has a label set, the call
    succeeds, the name is no longer in that set (whether or not it was
    attached), and every other set and the rest of the Store are as before;
    when the pull request has no label set at all, the call fails and
    changes nothing. *)
Theorem RemovePullRequestLabel_detaches (repoFullName : string) (prNumber : Z)
    (labelName : string) (c : Cache) (pr : PullRequest) (label : Label) :
  GetPullRequest repoFullName prNumber c = Ok pr ->
  GetLabel labelName c = Ok label ->
  (forall byNumber names,
      prLabels c !! repoFullName = Some byNumber ->
      byNumber !! prNumber = Some names ->
      exists c',
        RemovePullRequestLabel repoFullName prNumber labelName c = (c', None)
        /\ (forall name' n',
               at_key n' (at_key name' (prLabels c'))
               = if decide ((name', n') = (repoFullName, prNumber))
                 then delete labelName names
                 else at_key n' (at_key name' (prLabels c)))
        /\ c' = with_prLabels (prLabels c') c)
  /\ (prLabels c !! repoFullName = None ->
      RemovePullRequestLabel repoFullName prNumber labelName c
      = (c, Some (errNoLabelsForRepository repoFullName)))
  /\ (forall byNumber,
         prLabels c !! repoFullName = Some byNumber ->
         byNumber !! prNumber = None ->
         RemovePullRequestLabel repoFullName prNumber labelName c
         = (c, Some (errNoLabelsForPullRequest repoFullName prNumber))).
Proof.
  unfold GetPullRequest, GetLabel, RemovePullRequestLabel. intros Hpr Hlabel.
  destruct (repositories c !! repoFullName) as [repo|]; [|done].
  destruct (pullRequests c !! repoFullName) as [repoMap|]; [|done].
  destruct (repoMap !! prNumber) as [p|]; [|done].
  destruct (labels c !! labelName) as [lab|]; [|done].
  split; [|split].
  - intros byNumber names Hm Hby. rewrite Hm, Hby. eexists. split; [reflexivity|].
    simpl. split; [|done]. intros name' n'. by apply detach_at.
  - by intros ->.
  - intros byNumber -> Hnone. by rewrite Hnone.
Qed.

(** X7 after attaching [bug] to pull request #5. *)
Lemma RemovePullRequestLabel_detaches_witness :
  exists c',
    RemovePullRequestLabel "acme/widgets" 5 "bug"
      (AddPullRequestLabel "acme/widgets" 5 "bug" example.store2).1 = (c', None)
    /\ at_key 5 (at_key "acme/widgets" (prLabels c')) = ∅.
Proof.
  destruct (RemovePullRequestLabel_detaches "acme/widgets" 5 "bug"
              (AddPullRequestLabel "acme/widgets" 5 "bug" example.store2).1
              (example.pr "acme/widgets" 5 "open") example.label)
    as (Hremove & _); [reflexivity | reflexivity |].
  destruct (Hremove {[ 5 := {[ "bug" := tt ]} ]} {[ "bug" := tt ]})
    as (c' & Hc' & Hat & _); [reflexivity | reflexivity |].
  exists c'. split; [exact Hc'|]. rewrite Hat. reflexivity.
Defined.

(** X8. Removing is not idempotent: when the label was the only one of the
    pull request, the first [RemovePullRequestLabel] succeeds and a second
    one with the same arguments fails and changes nothing, because the empty
    set was cleaned up. *)
Theorem RemovePullRequestLabel_twice (repoFullName : string) (prNumber : Z)
    (labelName : string) (c : Cache) (pr : PullRequest) (label : Label)
    (byNumber : gmap Z (gmap string unit)) :
  GetPullRequest repoFullName prNumber c = Ok pr ->
  GetLabel labelName c = Ok label ->
  prLabels c !! repoFullName = Some byNumber ->
  byNumber !! prNumber = Some {[ labelName := tt ]} ->
  exists c' err,
    RemovePullRequestLabel repoFullName prNumber labelName c = (c', None)
    /\ RemovePullRequestLabel repoFullName prNumber labelName c' = (c', Some err).
Proof.
  unfold GetPullRequest, GetLabel, RemovePullRequestLabel. intros Hpr Hlabel Hm Hby.
  destruct (repositories c !! repoFullName) as [repo|] eqn:Hrepo; [|done].
  destruct (pullRequests c !! repoFullName) as [repoMap|] eqn:Hmap; [|done].
  destruct (repoMap !! prNumber) as [p|] eqn:Hnum; [|done].
  destruct (labels c !! labelName) as [lab|] eqn:Hlab; [|done].
  rewrite Hm, Hby.
  set (after := detach repoFullName prNumber labelName byNumber {[labelName := tt]}
                  (prLabels c)).
  assert (Hafter : after !! repoFullName = None
                   \/ exists byNumber', after !! repoFullName = Some byNumber'
                                        /\ byNumber' !! prNumber = None).
  { unfold after, detach. cbv zeta. rewrite delete_singleton_eq, map_size_empty.
    rewrite (decide_True (P := Z.of_nat 0 = 0)) by done.
    rewrite delete_insert_eq.
    destruct (decide (Z.of_nat (size (delete prNumber byNumber)) = 0)).
    - left. apply lookup_delete_eq.
    - right. eexists. rewrite lookup_insert_eq. split; [done|]. apply lookup_delete_eq. }
  exists (with_prLabels after c). simpl. rewrite Hrepo, Hmap, Hnum, Hlab.
  destruct Hafter as [->|(byNumber' & -> & ->)]; eauto.
Qed.

(** X8 after attaching [bug] to pull request #5. *)
Lemma RemovePullRequestLabel_twice_witness :
  exists c' err,
    RemovePullRequestLabel "acme/widgets" 5 "bug"
      (AddPullRequestLabel "acme/widgets" 5 "bug" example.store2).1 = (c', None)
    /\ RemovePullRequestLabel "acme/widgets" 5 "bug" c' = (c', Some err).
Proof.
  apply (RemovePullRequestLabel_twice "acme/widgets" 5 "bug"
           (AddPullRequestLabel "acme/widgets" 5 "bug" example.store2).1
           (example.pr "acme/widgets" 5 "open") example.label
           {[ 5 := {[ "bug" := tt ]} ]}); reflexivity.
Defined.

(** X9. For an existing pull request [ListPullRequestLabels] returns no
    error and exactly the registered labels of the attached names, each
    once: a label is in the result if and only if it is registered under a
    name attached to the pull request, and the result is no longer than the
    number of attached names. *)
Theorem ListPullRequestLabels_lists_attached (rt : Runtime) (repoFullName : string)
    (prNumber : Z) (c : Cache) (pr : PullRequest) :
  GetPullRequest repoFullName prNumber c = Ok pr ->
  exists found,
    ListPullRequestLabels rt repoFullName prNumber c = Ok found
    /\ (forall label,
           label ∈ found
           <-> exists name,
                 at_key prNumber (at_key repoFullName (prLabels c)) !! name = Some tt
                 /\ labels c !! name = Some label)
    /\ (length found <= size (at_key prNumber (at_key repoFullName (prLabels c))))%nat.
Proof.
  unfold GetPullRequest, ListPullRequestLabels. intros Hpr.
  destruct (repositories c !! repoFullName) as [repo|]; [|done].
  destruct (pullRequests c !! repoFullName) as [repoMap|]; [|done].
  destruct (repoMap !! prNumber) as [p|]; [|done].
  assert (Hnone : forall label : Label,
             label ∈ @nil Label <-> exists name, (∅ : gmap string unit) !! name = Some tt
                                                 /\ labels c !! name = Some label).
  { intros label. split; [by intros ?%elem_of_nil|].
    intros (name & Hname & _). by rewrite lookup_empty in Hname. }
  unfold at_key.
  destruct (prLabels c !! repoFullName) as [byNumber|]; simpl;
    [|rewrite lookup_empty; simpl; eexists; split; [done|]; split; [apply Hnone|simpl; lia]].
  destruct (byNumber !! prNumber) as [names|]; simpl;
    [|eexists; split; [done|]; split; [apply Hnone|simpl; lia]].
  eexists. split; [done|]. split.
  - intros label. unfold resolve_labels. rewrite list_elem_of_omap. split.
    + intros ([name []] & Hin & Hlookup). rewrite (range_perm rt) in Hin.
      apply elem_of_map_to_list in Hin. eauto.
    + intros (name & Hname & Hlookup). exists (name, tt). split; [|done].
      rewrite (range_perm rt). by apply elem_of_map_to_list.
  - unfold resolve_labels. rewrite <- (range_length rt names).
    generalize (range rt string unit names). intros l.
    induction l as [|x l IH]; [done|].
    change (omap (fun kv : string * unit => labels c !! kv.1) (x :: l))
      with (match labels c !! x.1 with
            | Some y => y :: omap (fun kv : string * unit => labels c !! kv.1) l
            | None => omap (fun kv : string * unit => labels c !! kv.1) l
            end).
    destruct (labels c !! x.1); simpl length; lia.
Qed.

(** X9 for pull request #5 after attaching [bug]. *)
Lemma ListPullRequestLabels_lists_attached_witness :
  exists found,
    ListPullRequestLabels runtime0 "acme/widgets" 5
      (AddPullRequestLabel "acme/widgets" 5 "bug" example.store2).1 = Ok found
    /\ (length found <= 1)%nat.
Proof.
  destruct (ListPullRequestLabels_lists_attached runtime0 "acme/widgets" 5
              (AddPullRequestLabel "acme/widgets" 5 "bug" example.store2).1
              (example.pr "acme/widgets" 5 "open"))
    as (found & Hlist & _ & Hlen); [reflexivity|].
  exists found. split; [exact Hlist | exact Hlen].
Defined.

End store_labels.

(* ===================================================================== *)
(** ** The pages of a listing *)
(* ===================================================================== *)

Section pages.
Import go models memory.

(** A second admissible runtime: [range] visits the entries in the
    reverse of the order of [runtime0]. *)
Definition runtime_rev : go.Runtime :=
  {| go.range := fun K _ _ V m => reverse (map_to_list m);
     go.range_perm := fun K _ _ V m => reverse_Permutation (map_to_list m);
     go.sort_Slice := @go.insertion_sort;
     go.sort_Slice_perm := @insertion_sort_perm;
     go.EqualFold := go.equal_fold_ascii |}.

(** X10. Pages of two calls are not pages of one order. Every call of
    [ListPullRequests] ranges over the map again, in an order that Go does
    not fix, and slices that order. With two pull requests stored, page 1
    and page 2 of size 1 return the same pull request when the second call
    visits the map in the reverse order of the first: paging can repeat one
    pull request and miss the other. *)
Theorem ListPullRequests_pages_can_repeat (name : string) (c : Cache)
    (repoMap : gmap Z PullRequest) :
  is_Some (repositories c !! name) ->
  pullRequests c !! name = Some repoMap ->
  size repoMap = 2%nat ->
  exists pr,
    ListPullRequests runtime0 name 1 1 c = Returns (Ok ([pr], 2))
    /\ ListPullRequests runtime_rev name 2 1 c = Returns (Ok ([pr], 2)).
Proof.
  intros [repo Hrepo] Hmap Hsize.
  pose proof (length_map_to_list repoMap) as Hlen. rewrite Hsize in Hlen.
  destruct (map_to_list repoMap) as [|[n1 pr1] [|[n2 pr2] [|? ?]]] eqn:Hlist;
    try discriminate.
  assert (Hfirst : (range runtime0 _ _ repoMap).*2 = [pr1; pr2]).
  { change (range runtime0 _ _ repoMap) with (map_to_list repoMap). by rewrite Hlist. }
  assert (Hsecond : (range runtime_rev _ _ repoMap).*2 = [pr2; pr1]).
  { change (range runtime_rev _ _ repoMap) with (reverse (map_to_list repoMap)).
    by rewrite Hlist. }
  exists pr1. unfold ListPullRequests. rewrite Hrepo, Hmap. split.
  - rewrite <- (range_values_len runtime0 repoMap), Hfirst.
    rewrite paginate_window by (vm_compute; discriminate). reflexivity.
  - rewrite <- (range_values_len runtime_rev repoMap), Hsecond.
    rewrite paginate_window by (vm_compute; discriminate). reflexivity.
Qed.

(** X10 for the pull requests #5 and #6 of [acme/widgets]. *)
Lemma ListPullRequests_pages_can_repeat_witness :
  exists pr,
    ListPullRequests runtime0 "acme/widgets" 1 1
      (AddPullRequest (example.pr "acme/widgets" 6 "closed") example.store2).1
    = Returns (Ok ([pr], 2))
    /\ ListPullRequests runtime_rev "acme/widgets" 2 1
         (AddPullRequest (example.pr "acme/widgets" 6 "closed") example.store2).1
       = Returns (Ok ([pr], 2)).
Proof.
  apply (ListPullRequests_pages_can_repeat "acme/widgets"
           (AddPullRequest (example.pr "acme/widgets" 6 "closed") example.store2).1
           (<[6 := example.pr "acme/widgets" 6 "closed"]>
              {[ 5 := example.pr "acme/widgets" 5 "open" ]}));
    [vm_compute; eauto | reflexivity | reflexivity].
Defined.

End pages.

(* ===================================================================== *)
(** ** Referential integrity of the Store *)
(* ===================================================================== *)

Section store_integrity.
Import go models memory.

(** One call of a mutating method of [Cache], whatever it returns;
    [DeleteLabel] ranges over maps, in an order of its own at each call. *)
Inductive store_step : Cache -> Cache -> Prop :=
| step_AddRepository repo c : store_step c (AddRepository repo c).1
| step_UpdateRepository repo c : store_step c (UpdateRepository repo c).1
| step_DeleteRepository owner name c : store_step c (DeleteRepository owner name c).1
| step_AddPullRequest pr c : store_step c (AddPullRequest pr c).1
| step_UpdatePullRequest pr c : store_step c (UpdatePullRequest pr c).1
| step_DeletePullRequest name n c : store_step c (DeletePullRequest name n c).1
| step_AddIssue issue c : store_step c (AddIssue issue c).1
| step_UpdateIssue issue c : store_step c (UpdateIssue issue c).1
| step_DeleteIssue name n c : store_step c (DeleteIssue name n c).1
| step_AddLabel label c : store_step c (AddLabel label c).1
| step_UpdateLabel label c : store_step c (UpdateLabel label c).1
| step_DeleteLabel rt name c : store_step c (DeleteLabel rt name c).1
| step_AddPullRequestLabel name n l c : store_step c (AddPullRequestLabel name n l c).1
| step_RemovePullRequestLabel name n l c :
    store_step c (RemovePullRequestLabel name n l c).1
| step_AddIssueLabel name n l c : store_step c (AddIssueLabel name n l c).1
| step_RemoveIssueLabel name n l c : store_step c (RemoveIssueLabel name n l c).1.

(** [l] is attached to item [n] of [name] in the association map [m]. *)
Definition attached (m : gmap string (gmap Z (gmap string unit)))
    (name : string) (n : Z) (l : string) : Prop :=
  at_key n (at_key name m) !! l = Some tt.

Record store_inv (c : Cache) : Prop := {
  (* every record is stored under its own identity *)
  inv_repository_key : forall key repo,
      repositories c !! key = Some repo -> fullNameOf (Owner repo) (Name repo) = key;
  inv_pull_request_key : forall name n pr,
      at_key name (pullRequests c) !! n = Some pr ->
      pr_RepositoryFullName pr = name /\ pr_Number pr = n;
  inv_issue_key : forall name n issue,
      at_key name (issues c) !! n = Some issue ->
      is_RepositoryFullName issue = name /\ is_Number issue = n;
  inv_label_key : forall name label,
      labels c !! name = Some label -> lb_Name label = name;
  (* a repository has its two collections exactly while it is tracked *)
  inv_pull_requests_tracked : forall name,
      is_Some (pullRequests c !! name) <-> is_Some (repositories c !! name);
  inv_issues_tracked : forall name,
      is_Some (issues c !! name) <-> is_Some (repositories c !! name);
  (* an association joins a stored item and a registered label *)
  inv_pr_label : forall name n l,
      attached (prLabels c) name n l ->
      is_Some (at_key name (pullRequests c) !! n) /\ is_Some (labels c !! l);
  inv_issue_label : forall name n l,
      attached (issueLabels c) name n l ->
      is_Some (at_key name (issues c) !! n) /\ is_Some (labels c !! l);
}.

Lemma store_inv_NewCache : store_inv NewCache.
Proof.
  split; simpl; unfold attached, at_key; intros;
    repeat (rewrite lookup_empty in *; simpl in * );
    try done; try (split; intros [? ?]; done).
Qed.

Lemma at_key_insert_ne {K} `{Countable K} {V} `{Empty V} (k k' : K) (v : V) (m : gmap K V) :
  k <> k' -> at_key k' (<[k := v]> m) = at_key k' m.
Proof. intros Hne. unfold at_key. by rewrite lookup_insert_ne. Qed.

Lemma at_key_delete {K} `{Countable K} {V} `{Empty V} (k : K) (m : gmap K V) :
  at_key k (delete k m) = ∅.
Proof. unfold at_key. by rewrite lookup_delete_eq. Qed.

Lemma at_key_delete_ne {K} `{Countable K} {V} `{Empty V} (k k' : K) (m : gmap K V) :
  k <> k' -> at_key k' (delete k m) = at_key k' m.
Proof. intros Hne. unfold at_key. by rewrite lookup_delete_ne. Qed.

Lemma at_key_init_key_any {K} `{Countable K} {V} `{Empty V} (k k' : K) (m : gmap K V) :
  at_key k' (init_key k m) = at_key k' m.
Proof.
  destruct (decide (k = k')) as [->|Hne]; [apply at_key_init_key|].
  unfold at_key. by rewrite init_key_lookup_ne.
Qed.

Lemma at_key_Some {K} `{Countable K} {V} `{Empty V} (k : K) (v : V) (m : gmap K V) :
  m !! k = Some v -> at_key k m = v.
Proof. intros Hv. unfold at_key. by rewrite Hv. Qed.

Lemma init_key_is_Some {K} `{Countable K} {V} `{Empty V} (k k' : K) (m : gmap K V) :
  is_Some (init_key k m !! k') <-> k = k' \/ is_Some (m !! k').
Proof.
  destruct (decide (k = k')) as [->|Hne].
  - rewrite init_key_lookup. split; eauto.
  - rewrite init_key_lookup_ne by done. split; [eauto|]. by intros [?|?].
Qed.

Lemma store_at {V} (name : string) (n : Z) (x : V) (m : gmap string (gmap Z V))
    (name' : string) (n' : Z) :
  at_key name' (<[name := <[n := x]> (at_key name m)]> m) !! n'
  = if decide ((name', n') = (name, n)) then Some x else at_key name' m !! n'.
Proof.
  destruct (decide (name' = name)) as [->|Hname].
  - rewrite at_key_insert. destruct (decide (n' = n)) as [->|Hn].
    + rewrite lookup_insert_eq. by rewrite decide_True.
    + rewrite lookup_insert_ne by done. by rewrite decide_False by congruence.
  - rewrite at_key_insert_ne by done. by rewrite decide_False by congruence.
Qed.

Lemma remove_at {V} (name : string) (n : Z) (m : gmap string (gmap Z V))
    (name' : string) (n' : Z) :
  at_key name' (<[name := delete n (at_key name m)]> m) !! n'
  = if decide ((name', n') = (name, n)) then None else at_key name' m !! n'.
Proof.
  destruct (decide (name' = name)) as [->|Hname].
  - rewrite at_key_insert. destruct (decide (n' = n)) as [->|Hn].
    + rewrite lookup_delete_eq. by rewrite decide_True.
    + rewrite lookup_delete_ne by done. by rewrite decide_False by congruence.
  - rewrite at_key_insert_ne by done. by rewrite decide_False by congruence.
Qed.

Lemma delete_in_at {V} (name : string) (n : Z) (m : gmap string (gmap Z V))
    (name' : string) (n' : Z) :
  at_key name' (delete_in name n m) !! n'
  = if decide ((name', n') = (name, n)) then None else at_key name' m !! n'.
Proof.
  unfold delete_in. destruct (m !! name) as [byNumber|] eqn:Hm.
  - rewrite <- (at_key_Some name byNumber m Hm). apply remove_at.
  - destruct (decide ((name', n') = (name, n))) as [[= -> ->]|]; [|done].
    unfold at_key. rewrite Hm. simpl. apply lookup_empty.
Qed.

Lemma attach_at (name : string) (n : Z) (l : string)
    (m : gmap string (gmap Z (gmap string unit))) (name' : string) (n' : Z) :
  at_key n' (at_key name' (attach name n l m))
  = if decide ((name', n') = (name, n)) then <[l := tt]> (at_key n (at_key name m))
    else at_key n' (at_key name' m).
Proof.
  rewrite attach_eq. unfold at_key at 1. rewrite store_at.
  by destruct (decide ((name', n') = (name, n))).
Qed.

Lemma delete_at {V} `{Empty V} (name name' : string) (m : gmap string V) :
  at_key name' (delete name m) = if decide (name' = name) then ∅ else at_key name' m.
Proof.
  destruct (decide (name' = name)) as [->|Hne];
    [apply at_key_delete | by apply at_key_delete_ne].
Qed.

Lemma is_Some_insert_present {V} (name name' : string) (x : V) (m : gmap string V) :
  is_Some (m !! name) -> (is_Some (<[name := x]> m !! name') <-> is_Some (m !! name')).
Proof.
  intros Hname. destruct (decide (name = name')) as [->|Hne].
  - rewrite lookup_insert_eq. split; eauto.
  - by rewrite lookup_insert_ne.
Qed.

Lemma AddRepository_inv (repo : Repository) (c : Cache) :
  store_inv c -> store_inv (AddRepository repo c).1.
Proof.
  intros Hinv. unfold AddRepository.
  destruct (repositories c !! fullNameOf (Owner repo) (Name repo)) as [tracked|] eqn:Hrepo;
    [done|].
  destruct Hinv. split; simpl.
  - intros key r. destruct (decide (key = fullNameOf (Owner repo) (Name repo))) as [->|Hne].
    + rewrite lookup_insert_eq. by intros [= <-].
    + rewrite lookup_insert_ne by done. auto.
  - intros name n p. rewrite at_key_init_key_any. auto.
  - intros name n p. rewrite at_key_init_key_any. auto.
  - done.
  - intros name. rewrite init_key_is_Some, inv_pull_requests_tracked0.
    destruct (decide (fullNameOf (Owner repo) (Name repo) = name)) as [<-|Hne].
    + rewrite lookup_insert_eq. split; eauto.
    + rewrite lookup_insert_ne by done. split; [by intros [?|?]|eauto].
  - intros name. rewrite init_key_is_Some, inv_issues_tracked0.
    destruct (decide (fullNameOf (Owner repo) (Name repo) = name)) as [<-|Hne].
    + rewrite lookup_insert_eq. split; eauto.
    + rewrite lookup_insert_ne by done. split; [by intros [?|?]|eauto].
  - intros name n l. unfold attached. rewrite !at_key_init_key_any. apply inv_pr_label0.
  - intros name n l. unfold attached. rewrite !at_key_init_key_any. apply inv_issue_label0.
Qed.

Lemma UpdateRepository_inv (repo : Repository) (c : Cache) :
  store_inv c -> store_inv (UpdateRepository repo c).1.
Proof.
  intros Hinv. unfold UpdateRepository.
  destruct (repositories c !! fullNameOf (Owner repo) (Name repo)) as [tracked|] eqn:Hrepo;
    [|done].
  destruct Hinv. split; simpl; try done.
  - intros key r. destruct (decide (key = fullNameOf (Owner repo) (Name repo))) as [->|Hne].
    + rewrite lookup_insert_eq. by intros [= <-].
    + rewrite lookup_insert_ne by done. auto.
  - intros name. rewrite inv_pull_requests_tracked0.
    symmetry. apply is_Some_insert_present. eauto.
  - intros name. rewrite inv_issues_tracked0.
    symmetry. apply is_Some_insert_present. eauto.
Qed.

Lemma DeleteRepository_inv (owner name : string) (c : Cache) :
  store_inv c -> store_inv (DeleteRepository owner name c).1.
Proof.
  intros Hinv. unfold DeleteRepository.
  destruct (repositories c !! fullNameOf owner name) as [tracked|] eqn:Hrepo; [|done].
  destruct Hinv. split; simpl; try done.
  - intros key r Hr. apply lookup_delete_Some in Hr as [_ Hr]. auto.
  - intros name' n p. rewrite delete_at. case_decide; [by rewrite lookup_empty|auto].
  - intros name' n p. rewrite delete_at. case_decide; [by rewrite lookup_empty|auto].
  - intros name'. destruct (decide (fullNameOf owner name = name')) as [<-|Hne].
    + rewrite !lookup_delete_eq. split; by intros [? ?].
    + rewrite !lookup_delete_ne by done. auto.
  - intros name'. destruct (decide (fullNameOf owner name = name')) as [<-|Hne].
    + rewrite !lookup_delete_eq. split; by intros [? ?].
    + rewrite !lookup_delete_ne by done. auto.
  - intros name' n l. unfold attached. rewrite !delete_at.
    case_decide; [unfold at_key at 1; rewrite lookup_empty; simpl; by rewrite lookup_empty|].
    apply inv_pr_label0.
  - intros name' n l. unfold attached. rewrite !delete_at.
    case_decide; [unfold at_key at 1; rewrite lookup_empty; simpl; by rewrite lookup_empty|].
    apply inv_issue_label0.
Qed.

Lemma AddPullRequest_inv (pr : PullRequest) (c : Cache) :
  store_inv c -> store_inv (AddPullRequest pr c).1.
Proof.
  intros Hinv. unfold AddPullRequest.
  destruct (repositories c !! pr_RepositoryFullName pr) as [repo|] eqn:Hrepo; [|done].
  cbn [pullRequests with_pullRequests].
  destruct (at_key (pr_RepositoryFullName pr) (init_key (pr_RepositoryFullName pr)
              (pullRequests c)) !! pr_Number pr) as [old|] eqn:Hold; simpl.
  - destruct Hinv. split; simpl; try done.
    + intros name n p. rewrite at_key_init_key_any. auto.
    + intros name. rewrite init_key_is_Some. rewrite <- inv_pull_requests_tracked0.
      split; [|eauto]. intros [<-|?]; [|done]. apply inv_pull_requests_tracked0. eauto.
    + intros name n l Hl. rewrite at_key_init_key_any. auto.
  - destruct Hinv. split; simpl; try done.
    + intros name n p. destruct (decide (name = pr_RepositoryFullName pr)) as [->|Hne].
      * rewrite at_key_insert. destruct (decide (n = pr_Number pr)) as [->|Hn].
        -- rewrite lookup_insert_eq. by intros [= <-].
        -- rewrite lookup_insert_ne by done. rewrite at_key_init_key. auto.
      * rewrite at_key_insert_ne by done. rewrite at_key_init_key_any. auto.
    + intros name. rewrite <- inv_pull_requests_tracked0.
      destruct (decide (name = pr_RepositoryFullName pr)) as [->|Hne].
      * rewrite lookup_insert_eq. split; [|eauto]. intros _.
        apply inv_pull_requests_tracked0. eauto.
      * rewrite lookup_insert_ne by done. rewrite init_key_is_Some. split; [|eauto].
        by intros [?|?].
    + intros name n l Hl. destruct (inv_pr_label0 name n l Hl) as [Hpr Hlab].
      split; [|done]. destruct (decide (name = pr_RepositoryFullName pr)) as [->|Hne].
      * rewrite at_key_insert. destruct (decide (n = pr_Number pr)) as [->|Hn].
        -- rewrite lookup_insert_eq. eauto.
        -- rewrite lookup_insert_ne by done. by rewrite at_key_init_key.
      * rewrite at_key_insert_ne by done. by rewrite at_key_init_key_any.
Qed.

Lemma UpdatePullRequest_inv (pr : PullRequest) (c : Cache) :
  store_inv c -> store_inv (UpdatePullRequest pr c).1.
Proof.
  intros Hinv. unfold UpdatePullRequest.
  destruct (repositories c !! pr_RepositoryFullName pr) as [repo|] eqn:Hrepo; [|done].
  destruct (pullRequests c !! pr_RepositoryFullName pr) as [repoMap|] eqn:Hmap; [|done].
  destruct (repoMap !! pr_Number pr) as [old|] eqn:Hold; [|done].
  rewrite <- (at_key_Some _ repoMap _ Hmap).
  destruct Hinv. split; simpl; try done.
  - intros name n p. rewrite store_at. case_decide as Heq; [|auto].
    injection Heq as -> ->. by intros [= <-].
  - intros name. rewrite <- inv_pull_requests_tracked0.
    apply is_Some_insert_present. eauto.
  - intros name n l Hl. destruct (inv_pr_label0 name n l Hl) as [Hpr Hlab].
    split; [|done]. rewrite store_at. case_decide; eauto.
Qed.

Lemma DeletePullRequest_inv (name : string) (n : Z) (c : Cache) :
  store_inv c -> store_inv (DeletePullRequest name n c).1.
Proof.
  intros Hinv. unfold DeletePullRequest.
  destruct (repositories c !! name) as [repo|] eqn:Hrepo; [|done].
  destruct (pullRequests c !! name) as [repoMap|] eqn:Hmap; [|done].
  destruct (repoMap !! n) as [old|] eqn:Hold; [|done].
  rewrite <- (at_key_Some _ repoMap _ Hmap).
  destruct Hinv. split; simpl; try done.
  - intros name' n' p. rewrite remove_at. case_decide; [done|auto].
  - intros name'. rewrite <- inv_pull_requests_tracked0.
    apply is_Some_insert_present. eauto.
  - intros name' n' l. unfold attached, at_key at 1. rewrite delete_in_at, remove_at.
    case_decide; [simpl; by rewrite lookup_empty|]. apply inv_pr_label0.
Qed.

Lemma AddIssue_inv (issue : Issue) (c : Cache) :
  store_inv c -> store_inv (AddIssue issue c).1.
Proof.
  intros Hinv. unfold AddIssue.
  destruct (repositories c !! is_RepositoryFullName issue) as [repo|] eqn:Hrepo; [|done].
  cbn [issues with_issues].
  assert (Htracked : forall name,
             is_Some (init_key (is_RepositoryFullName issue) (issues c) !! name)
             <-> is_Some (repositories c !! name)).
  { intros name. rewrite init_key_is_Some, <- (inv_issues_tracked c Hinv).
    split; [|eauto]. intros [<-|?]; [|done]. apply (inv_issues_tracked c Hinv). eauto. }
  destruct (at_key (is_RepositoryFullName issue) (init_key (is_RepositoryFullName issue)
              (issues c)) !! is_Number issue) as [old|] eqn:Hold; simpl.
  - destruct Hinv. split; simpl; try done.
    + intros name n p. rewrite at_key_init_key_any. auto.
    + intros name n l Hl. rewrite at_key_init_key_any. auto.
  - rewrite at_key_init_key, insert_init_key.
    destruct Hinv. split; simpl; try done.
    + intros name n p. rewrite store_at. case_decide as Heq; [|auto].
      injection Heq as -> ->. by intros [= <-].
    + intros name. rewrite <- Htracked.
      destruct (decide (name = is_RepositoryFullName issue)) as [->|Hne].
      * rewrite lookup_insert_eq, init_key_lookup. split; eauto.
      * rewrite lookup_insert_ne by done. by rewrite init_key_lookup_ne.
    + intros name n l Hl. destruct (inv_issue_label0 name n l Hl) as [Hi Hlab].
      split; [|done]. rewrite store_at. case_decide; eauto.
Qed.

Lemma UpdateIssue_inv (issue : Issue) (c : Cache) :
  store_inv c -> store_inv (UpdateIssue issue c).1.
Proof.
  intros Hinv. unfold UpdateIssue.
  destruct (repositories c !! is_RepositoryFullName issue) as [repo|] eqn:Hrepo; [|done].
  destruct (issues c !! is_RepositoryFullName issue) as [repoMap|] eqn:Hmap; [|done].
  destruct (repoMap !! is_Number issue) as [old|] eqn:Hold; [|done].
  rewrite <- (at_key_Some _ repoMap _ Hmap).
  destruct Hinv. split; simpl; try done.
  - intros name n p. rewrite store_at. case_decide as Heq; [|auto].
    injection Heq as -> ->. by intros [= <-].
  - intros name. rewrite <- inv_issues_tracked0.
    apply is_Some_insert_present. eauto.
  - intros name n l Hl. destruct (inv_issue_label0 name n l Hl) as [Hi Hlab].
    split; [|done]. rewrite store_at. case_decide; eauto.
Qed.

Lemma DeleteIssue_inv (name : string) (n : Z) (c : Cache) :
  store_inv c -> store_inv (DeleteIssue name n c).1.
Proof.
  intros Hinv. unfold DeleteIssue.
  destruct (repositories c !! name) as [repo|] eqn:Hrepo; [|done].
  destruct (issues c !! name) as [repoMap|] eqn:Hmap; [|done].
  destruct (repoMap !! n) as [old|] eqn:Hold; [|done].
  rewrite <- (at_key_Some _ repoMap _ Hmap).
  destruct Hinv. split; simpl; try done.
  - intros name' n' p. rewrite remove_at. case_decide; [done|auto].
  - intros name'. rewrite <- inv_issues_tracked0.
    apply is_Some_insert_present. eauto.
  - intros name' n' l. unfold attached, at_key at 1. rewrite delete_in_at, remove_at.
    case_decide; [simpl; by rewrite lookup_empty|]. apply inv_issue_label0.
Qed.

Lemma store_label_inv (label : Label) (c : Cache) :
  store_inv c -> store_inv (with_labels (<[lb_Name label := label]> (labels c)) c).
Proof.
  intros Hinv. destruct Hinv. split; simpl; try done.
  - intros name l. destruct (decide (name = lb_Name label)) as [->|Hne].
    + rewrite lookup_insert_eq. by intros [= <-].
    + rewrite lookup_insert_ne by done. auto.
  - intros name n l Hl. destruct (inv_pr_label0 name n l Hl) as [Hpr Hlab].
    split; [done|]. destruct (decide (l = lb_Name label)) as [->|Hne].
    + rewrite lookup_insert_eq. eauto.
    + by rewrite lookup_insert_ne.
  - intros name n l Hl. destruct (inv_issue_label0 name n l Hl) as [Hi Hlab].
    split; [done|]. destruct (decide (l = lb_Name label)) as [->|Hne].
    + rewrite lookup_insert_eq. eauto.
    + by rewrite lookup_insert_ne.
Qed.

Lemma AddLabel_inv (label : Label) (c : Cache) :
  store_inv c -> store_inv (AddLabel label c).1.
Proof.
  intros Hinv. unfold AddLabel.
  destruct (labels c !! lb_Name label); [done|]. by apply store_label_inv.
Qed.

Lemma UpdateLabel_inv (label : Label) (c : Cache) :
  store_inv c -> store_inv (UpdateLabel label c).1.
Proof.
  intros Hinv. unfold UpdateLabel.
  destruct (labels c !! lb_Name label); [|done]. by apply store_label_inv.
Qed.

Lemma DeleteLabel_inv (rt : Runtime) (name : string) (c : Cache) :
  store_inv c -> store_inv (DeleteLabel rt name c).1.
Proof.
  intros Hinv. unfold DeleteLabel.
  destruct (labels c !! name) as [old|]; [|done].
  destruct Hinv. split; simpl; try done.
  - intros name' l Hl. apply lookup_delete_Some in Hl as [_ Hl]. auto.
  - intros name' n l. unfold attached. rewrite detachEverywhere_at.
    intros Hl. apply lookup_delete_Some in Hl as [Hne Hl].
    destruct (inv_pr_label0 name' n l Hl) as [Hpr Hlab].
    split; [done|]. by rewrite lookup_delete_ne.
  - intros name' n l. unfold attached. rewrite detachEverywhere_at.
    intros Hl. apply lookup_delete_Some in Hl as [Hne Hl].
    destruct (inv_issue_label0 name' n l Hl) as [Hi Hlab].
    split; [done|]. by rewrite lookup_delete_ne.
Qed.

Lemma AddPullRequestLabel_inv (name : string) (n : Z) (l : string) (c : Cache) :
  store_inv c -> store_inv (AddPullRequestLabel name n l c).1.
Proof.
  intros Hinv. unfold AddPullRequestLabel.
  destruct (repositories c !! name) as [repo|] eqn:Hrepo; [|done].
  destruct (pullRequests c !! name) as [repoMap|] eqn:Hmap; [|done].
  destruct (repoMap !! n) as [pr|] eqn:Hpr; [|done].
  destruct (labels c !! l) as [label|] eqn:Hlabel; [|done].
  destruct Hinv. split; simpl; try done.
  intros name' n' l'. unfold attached. rewrite attach_at.
  case_decide as Heq; [|apply inv_pr_label0].
  injection Heq as -> ->. destruct (decide (l' = l)) as [->|Hne].
  - intros _. rewrite (at_key_Some _ repoMap _ Hmap), Hpr, Hlabel. eauto.
  - rewrite lookup_insert_ne by done. apply inv_pr_label0.
Qed.

Lemma AddIssueLabel_inv (name : string) (n : Z) (l : string) (c : Cache) :
  store_inv c -> store_inv (AddIssueLabel name n l c).1.
Proof.
  intros Hinv. unfold AddIssueLabel.
  destruct (repositories c !! name) as [repo|] eqn:Hrepo; [|done].
  destruct (issues c !! name) as [repoMap|] eqn:Hmap; [|done].
  destruct (repoMap !! n) as [issue|] eqn:Hissue; [|done].
  destruct (labels c !! l) as [label|] eqn:Hlabel; [|done].
  destruct Hinv. split; simpl; try done.
  intros name' n' l'. unfold attached. rewrite attach_at.
  case_decide as Heq; [|apply inv_issue_label0].
  injection Heq as -> ->. destruct (decide (l' = l)) as [->|Hne].
  - intros _. rewrite (at_key_Some _ repoMap _ Hmap), Hissue, Hlabel. eauto.
  - rewrite lookup_insert_ne by done. apply inv_issue_label0.
Qed.

Lemma RemovePullRequestLabel_inv (name : string) (n : Z) (l : string) (c : Cache) :
  store_inv c -> store_inv (RemovePullRequestLabel name n l c).1.
Proof.
  intros Hinv. unfold RemovePullRequestLabel.
  destruct (repositories c !! name) as [repo|] eqn:Hrepo; [|done].
  destruct (pullRequests c !! name) as [repoMap|] eqn:Hmap; [|done].
  destruct (repoMap !! n) as [pr|] eqn:Hpr; [|done].
  destruct (labels c !! l) as [label|] eqn:Hlabel; [|done].
  destruct (prLabels c !! name) as [byNumber|] eqn:Hby; [|done].
  destruct (byNumber !! n) as [names|] eqn:Hnames; [|done].
  destruct Hinv. split; simpl; try done.
  intros name' n' l'. unfold attached. rewrite (detach_at _ _ _ _ _ _ _ _ Hby Hnames).
  case_decide as Heq; [|apply inv_pr_label0].
  injection Heq as -> ->. intros Hl. apply lookup_delete_Some in Hl as [Hne Hl].
  apply inv_pr_label0. unfold attached.
  by rewrite (at_key_Some _ byNumber _ Hby), (at_key_Some _ names _ Hnames).
Qed.

Lemma RemoveIssueLabel_inv (name : string) (n : Z) (l : string) (c : Cache) :
  store_inv c -> store_inv (RemoveIssueLabel name n l c).1.
Proof.
  intros Hinv. unfold RemoveIssueLabel.
  destruct (repositories c !! name) as [repo|] eqn:Hrepo; [|done].
  destruct (issues c !! name) as [repoMap|] eqn:Hmap; [|done].
  destruct (repoMap !! n) as [issue|] eqn:Hissue; [|done].
  destruct (labels c !! l) as [label|] eqn:Hlabel; [|done].
  destruct (issueLabels c !! name) as [byNumber|] eqn:Hby; [|done].
  destruct (byNumber !! n) as [names|] eqn:Hnames; [|done].
  destruct Hinv. split; simpl; try done.
  intros name' n' l'. unfold attached. rewrite (detach_at _ _ _ _ _ _ _ _ Hby Hnames).
  case_decide as Heq; [|apply inv_issue_label0].
  injection Heq as -> ->. intros Hl. apply lookup_delete_Some in Hl as [Hne Hl].
  apply inv_issue_label0. unfold attached.
  by rewrite (at_key_Some _ byNumber _ Hby), (at_key_Some _ names _ Hnames).
Qed.

Lemma store_step_inv (c c' : Cache) :
  store_step c c' -> store_inv c -> store_inv c'.
Proof.
  intros Hstep Hinv. destruct Hstep.
  - by apply AddRepository_inv.
  - by apply UpdateRepository_inv.
  - by apply DeleteRepository_inv.
  - by apply AddPullRequest_inv.
  - by apply UpdatePullRequest_inv.
  - by apply DeletePullRequest_inv.
  - by apply AddIssue_inv.
  - by apply UpdateIssue_inv.
  - by apply DeleteIssue_inv.
  - by apply AddLabel_inv.
  - by apply UpdateLabel_inv.
  - by apply DeleteLabel_inv.
  - by apply AddPullRequestLabel_inv.
  - by apply RemovePullRequestLabel_inv.
  - by apply AddIssueLabel_inv.
  - by apply RemoveIssueLabel_inv.
Qed.

(** X11. Referential integrity. Whatever sequence of mutating [Cache]
    methods is run on a new Store, with whatever arguments and whether the
    calls succeed or fail: every repository, pull request, issue and label
    is stored under its own identity; a repository has a pull request
    collection and an issue collection exactly while it is tracked, so no
    pull request or issue outlives or precedes its repository; and every
    label association joins a stored pull request or issue with a registered
    label. *)
Theorem store_integrity (c : Cache) :
  rtc store_step NewCache c -> store_inv c.
Proof.
  intros Hsteps. apply rtc_nsteps in Hsteps as [n Hsteps].
  revert c Hsteps. induction n as [|n IH]; intros c Hsteps.
  - inversion Hsteps; subst. apply store_inv_NewCache.
  - apply nsteps_inv_r in Hsteps as (mid & Hsteps & Hstep).
    apply (store_step_inv mid); [exact Hstep | by apply IH].
Qed.

(** X11 for the Store built by adding a repository, a pull request, an
    issue and a label. *)
Lemma store_integrity_witness : store_inv example.store2.
Proof.
  apply store_integrity.
  eapply rtc_l; [apply (step_AddRepository example.repo)|].
  eapply rtc_l; [apply (step_AddPullRequest (example.pr "acme/widgets" 5 "open"))|].
  eapply rtc_l; [apply (step_AddIssue (example.issue "acme/widgets" 7))|].
  eapply rtc_l; [apply (step_AddLabel example.label)|].
  apply rtc_refl.
Defined.

End store_integrity.


(* ===================================================================== *)
(** ** What a sync cycle writes *)
(* ===================================================================== *)

Section sync_writes.
Import go models service.

(** What holds of the Store while the pull requests of [name] are
    reconciled: the repository is tracked and has its collection. *)
Definition syncing (name : string) (c : memory.Cache) : Prop :=
  is_Some (memory.repositories c !! name) /\ is_Some (memory.pullRequests c !! name).

(** One turn of the label loop, for a stored pull request. *)
Lemma syncPullRequestLabel_effect (name : string) (n : Z) (c : memory.Cache)
    (ghLabel : github.Label) :
  syncing name c ->
  is_Some (memory.at_key name (memory.pullRequests c) !! n) ->
  let c' := syncPullRequestLabel name n c ghLabel in
  memory.repositories c' = memory.repositories c
  /\ memory.pullRequests c' = memory.pullRequests c
  /\ (forall l label, memory.labels c !! l = Some label -> memory.labels c' !! l = Some label)
  /\ is_Some (memory.labels c' !! github.l_Name ghLabel)
  /\ (forall name' n' l, attached (memory.prLabels c) name' n' l ->
                         attached (memory.prLabels c') name' n' l)
  /\ attached (memory.prLabels c') name n (github.l_Name ghLabel).
Proof.
  intros [[repo Hrepo] [repoMap Hmap]] [pr Hpr].
  rewrite (at_key_Some _ repoMap _ Hmap) in Hpr.
  assert (Hattach : forall c0 label,
             memory.repositories c0 = memory.repositories c ->
             memory.pullRequests c0 = memory.pullRequests c ->
             memory.labels c0 !! github.l_Name ghLabel = Some label ->
             memory.AddPullRequestLabel name n (github.l_Name ghLabel) c0
             = (memory.with_prLabels
                  (memory.attach name n (github.l_Name ghLabel) (memory.prLabels c0)) c0,
                None)).
  { intros c0 label Hr Hp Hl. unfold memory.AddPullRequestLabel.
    by rewrite Hr, Hrepo, Hp, Hmap, Hpr, Hl. }
  assert (Hmono : forall m name' n' l,
             attached m name' n' l ->
             attached (memory.attach name n (github.l_Name ghLabel) m) name' n' l).
  { intros m name' n' l. unfold attached. rewrite attach_at.
    case_decide as Heq; [|done]. injection Heq as -> ->. intros Hl.
    destruct (decide (l = github.l_Name ghLabel)) as [->|Hne].
    - by rewrite lookup_insert_eq.
    - by rewrite lookup_insert_ne. }
  assert (Hnew : forall m, attached (memory.attach name n (github.l_Name ghLabel) m)
                             name n (github.l_Name ghLabel)).
  { intros m. unfold attached. rewrite attach_at, decide_True by done.
    apply lookup_insert_eq. }
  unfold syncPullRequestLabel. cbv zeta. unfold memory.GetLabel.
  destruct (memory.labels c !! github.l_Name ghLabel) as [label|] eqn:Hlabel.
  - rewrite (Hattach c label) by done. simpl. rewrite Hlabel. eauto 10.
  - unfold memory.AddLabel. simpl. rewrite Hlabel. simpl.
    erewrite Hattach; [|done|done|simpl; apply lookup_insert_eq]. simpl.
    rewrite lookup_insert_eq. repeat split; eauto.
    intros l label Hl. rewrite lookup_insert_ne; [done|]. congruence.
Qed.

Lemma syncPullRequestLabels_effect (name : string) (n : Z) (ghLabels : list github.Label)
    (c : memory.Cache) :
  syncing name c ->
  is_Some (memory.at_key name (memory.pullRequests c) !! n) ->
  let c' := foldl (syncPullRequestLabel name n) c ghLabels in
  memory.repositories c' = memory.repositories c
  /\ memory.pullRequests c' = memory.pullRequests c
  /\ (forall l label, memory.labels c !! l = Some label -> memory.labels c' !! l = Some label)
  /\ (forall ghLabel, ghLabel ∈ ghLabels -> is_Some (memory.labels c' !! github.l_Name ghLabel))
  /\ (forall name' n' l, attached (memory.prLabels c) name' n' l ->
                         attached (memory.prLabels c') name' n' l)
  /\ (forall ghLabel, ghLabel ∈ ghLabels ->
                      attached (memory.prLabels c') name n (github.l_Name ghLabel)).
Proof.
  revert c. induction ghLabels as [|ghLabel ghLabels IH]; intros c Hsync Hpr; simpl.
  - repeat split; try done; by intros ? ?%elem_of_nil.
  - destruct (syncPullRequestLabel_effect name n c ghLabel Hsync Hpr)
      as (Hr & Hp & Hl & Hreg & Hmono & Hatt).
    destruct (IH (syncPullRequestLabel name n c ghLabel)) as (Hr' & Hp' & Hl' & Hreg' & Hmono' & Hatt').
    { unfold syncing. by rewrite Hr, Hp. }
    { by rewrite Hp. }
    rewrite Hr', Hp', Hr, Hp. repeat split; try done.
    + eauto.
    + intros g Hg. apply elem_of_cons in Hg as [->|Hg]; [|eauto].
      destruct Hreg as [label Hlabel]. eauto.
    + eauto.
    + intros g Hg. apply elem_of_cons in Hg as [->|Hg]; eauto.
Qed.

Lemma upsert_stores (pr : PullRequest) (c : memory.Cache) (repoMap : gmap Z PullRequest) :
  is_Some (memory.repositories c !! pr_RepositoryFullName pr) ->
  memory.pullRequests c !! pr_RepositoryFullName pr = Some repoMap ->
  match memory.GetPullRequest (pr_RepositoryFullName pr) (pr_Number pr) c with
  | Ok _ => memory.UpdatePullRequest pr c
  | Err _ => memory.AddPullRequest pr c
  end
  = (memory.with_pullRequests
       (<[pr_RepositoryFullName pr := <[pr_Number pr := pr]> (memory.at_key
            (pr_RepositoryFullName pr) (memory.pullRequests c))]> (memory.pullRequests c)) c,
     None).
Proof.
  intros [repo Hrepo] Hmap. rewrite (at_key_Some _ repoMap _ Hmap).
  rewrite (AddPullRequest_eq pr c repo repoMap) by done.
  unfold memory.GetPullRequest, memory.UpdatePullRequest. rewrite Hrepo, Hmap.
  by destruct (repoMap !! pr_Number pr).
Qed.

Lemma syncPullRequest_unfold (repo : Repository) (c : memory.Cache)
    (ghPR : github.PullRequest) :
  syncPullRequest repo c ghPR
  = match
      match memory.GetPullRequest (FullName repo) (github.Number ghPR) c with
      | Ok _ => memory.UpdatePullRequest (toPullRequest repo ghPR) c
      | Err _ => memory.AddPullRequest (toPullRequest repo ghPR) c
      end
    with
    | (c, Some _) => c
    | (c, None) =>
        foldl (syncPullRequestLabel (FullName repo) (github.Number ghPR)) c
          (github.Labels ghPR)
    end.
Proof. reflexivity. Qed.

(** One turn of the loop over the fetched pull requests. *)
Lemma syncPullRequest_effect (repo : Repository) (c : memory.Cache)
    (ghPR : github.PullRequest) :
  syncing (FullName repo) c ->
  let c' := syncPullRequest repo c ghPR in
  syncing (FullName repo) c'
  /\ (forall name n,
         memory.at_key name (memory.pullRequests c') !! n
         = if decide ((name, n) = (FullName repo, github.Number ghPR))
           then Some (toPullRequest repo ghPR)
           else memory.at_key name (memory.pullRequests c) !! n)
  /\ (forall name, name <> FullName repo ->
                   memory.pullRequests c' !! name = memory.pullRequests c !! name)
  /\ (forall l label, memory.labels c !! l = Some label -> memory.labels c' !! l = Some label)
  /\ (forall ghLabel, ghLabel ∈ github.Labels ghPR ->
                      is_Some (memory.labels c' !! github.l_Name ghLabel))
  /\ (forall name' n' l, attached (memory.prLabels c) name' n' l ->
                         attached (memory.prLabels c') name' n' l)
  /\ (forall ghLabel, ghLabel ∈ github.Labels ghPR ->
                      attached (memory.prLabels c') (FullName repo) (github.Number ghPR)
                        (github.l_Name ghLabel)).
Proof.
  intros [Hrepo [repoMap Hmap]].
  cbv zeta. rewrite syncPullRequest_unfold.
  set (c1 := memory.with_pullRequests
               (<[FullName repo := <[github.Number ghPR := toPullRequest repo ghPR]>
                    (memory.at_key (FullName repo) (memory.pullRequests c))]>
                  (memory.pullRequests c)) c).
  assert (Hup : match memory.GetPullRequest (FullName repo) (github.Number ghPR) c with
                | Ok _ => memory.UpdatePullRequest (toPullRequest repo ghPR) c
                | Err _ => memory.AddPullRequest (toPullRequest repo ghPR) c
                end = (c1, None))
    by exact (upsert_stores (toPullRequest repo ghPR) c repoMap Hrepo Hmap).
  rewrite Hup. clear Hup.
  all: assert (Hstored : forall name n,
                  memory.at_key name (memory.pullRequests c1) !! n
                  = if decide ((name, n) = (FullName repo, github.Number ghPR))
                    then Some (toPullRequest repo ghPR)
                    else memory.at_key name (memory.pullRequests c) !! n)
         by (intros name n; apply store_at).
  all: assert (Hsync1 : syncing (FullName repo) c1)
         by (split; simpl; [done|rewrite lookup_insert_eq; eauto]).
  all: destruct (syncPullRequestLabels_effect (FullName repo) (github.Number ghPR)
                   (github.Labels ghPR) c1 Hsync1)
         as (Hr & Hp & Hl & Hreg & Hmono & Hatt);
         [rewrite Hstored, decide_True by done; eauto|].
  all: simpl in Hr, Hp; cbn [fst snd].
  all: split; [unfold syncing; rewrite Hr, Hp; exact Hsync1|].
  all: split; [intros name n; rewrite Hp; apply Hstored|].
  all: split; [intros name Hne; rewrite Hp; simpl; by rewrite lookup_insert_ne|].
  all: repeat split; eauto.
Qed.

(** The pull requests with a given number among the fetched ones, and the
    loop over a whole listing. *)
Lemma syncPullRequests_loop (repo : Repository) (prs : list github.PullRequest)
    (c : memory.Cache) :
  syncing (FullName repo) c ->
  NoDup (github.Number <$> prs) ->
  let c' := foldl (syncPullRequest repo) c prs in
  syncing (FullName repo) c'
  /\ (forall ghPR, ghPR ∈ prs ->
         memory.at_key (FullName repo) (memory.pullRequests c') !! github.Number ghPR
         = Some (toPullRequest repo ghPR))
  /\ (forall name n,
         (name = FullName repo -> n ∉ github.Number <$> prs) ->
         memory.at_key name (memory.pullRequests c') !! n
         = memory.at_key name (memory.pullRequests c) !! n)
  /\ (forall name, name <> FullName repo ->
                   memory.pullRequests c' !! name = memory.pullRequests c !! name)
  /\ (forall l label, memory.labels c !! l = Some label -> memory.labels c' !! l = Some label)
  /\ (forall name' n' l, attached (memory.prLabels c) name' n' l ->
                         attached (memory.prLabels c') name' n' l)
  /\ (forall ghPR ghLabel, ghPR ∈ prs -> ghLabel ∈ github.Labels ghPR ->
         is_Some (memory.labels c' !! github.l_Name ghLabel)
         /\ attached (memory.prLabels c') (FullName repo) (github.Number ghPR)
              (github.l_Name ghLabel)).
Proof.
  revert c. induction prs as [|ghPR prs IH]; intros c Hsync Hnd; simpl.
  - repeat split; try done; try apply Hsync;
      intros; exfalso; eapply elem_of_nil; eauto.
  - apply NoDup_cons in Hnd as [Hfresh Hnd].
    destruct (syncPullRequest_effect repo c ghPR Hsync)
      as (Hsync1 & Hstored & Hmaps & Hl & Hreg & Hmono & Hatt).
    destruct (IH (syncPullRequest repo c ghPR) Hsync1 Hnd)
      as (Hsync' & Hall & Hother & Hmaps' & Hl' & Hmono' & Hlabels').
    split; [exact Hsync'|]. split; [|split; [|split; [|split; [|split]]]].
    + intros g Hg. apply elem_of_cons in Hg as [->|Hg]; [|by apply Hall].
      rewrite Hother by (intros _; exact Hfresh).
      rewrite Hstored. by rewrite decide_True.
    + intros name n Hn. rewrite Hother.
      * rewrite Hstored. case_decide as Heq; [|done].
        injection Heq as -> ->. exfalso. apply (Hn eq_refl). simpl. apply elem_of_cons. eauto.
      * intros Hname Hin. apply (Hn Hname). simpl. apply elem_of_cons. eauto.
    + intros name Hne. rewrite Hmaps' by done. by apply Hmaps.
    + eauto.
    + eauto.
    + intros g ghLabel Hg HghLabel. apply elem_of_cons in Hg as [->|Hg].
      * destruct (Hreg ghLabel HghLabel) as [label Hlabel]. split; eauto.
      * by apply Hlabels'.
Qed.

(** X12. Reconciliation of pull requests. For a tracked repository whose
    record carries its own key as [FullName], and a listing in which no
    number occurs twice, the pull request stage returns no error and
    afterwards every fetched pull request is stored as the record built from
    the fetched values (the last observed values win, whether the number was
    new or known), while every pull request that was not in the listing, of
    this or another repository, is still stored as before: the stage never
    deletes. *)
Theorem syncPullRequests_reconciles (gh : github.ClientInterface) (owner name : string)
    (s : Service) (repo : Repository) (prs : list github.PullRequest) :
  memory.GetRepository owner name (cache s) = Ok repo ->
  syncing (FullName repo) (cache s) ->
  github.ListPullRequests gh owner name syncOptions = Ok prs ->
  NoDup (github.Number <$> prs) ->
  (syncPullRequests gh owner name s).2 = None
  /\ (forall ghPR, ghPR ∈ prs ->
         memory.GetPullRequest (FullName repo) (github.Number ghPR)
           (cache (syncPullRequests gh owner name s).1)
         = Ok (toPullRequest repo ghPR))
  /\ (forall name' n,
         (name' = FullName repo -> n ∉ github.Number <$> prs) ->
         memory.GetPullRequest name' n (cache (syncPullRequests gh owner name s).1)
         = memory.GetPullRequest name' n (cache s)).
Proof.
  intros Hget Hsync Hlist Hnd. unfold syncPullRequests. rewrite Hget, Hlist. simpl.
  destruct (syncPullRequests_loop repo prs (cache s) Hsync Hnd)
    as (Hsync' & Hall & Hother & Hmaps & _).
  pose proof (foldl_frame (syncPullRequest repo) memory.repositories prs
                (fun c x => proj1 (syncPullRequest_frame repo c x)) (cache s)) as Hr.
  set (c' := foldl (syncPullRequest repo) (cache s) prs) in *.
  split; [done|]. split.
  - intros ghPR HghPR. unfold memory.GetPullRequest.
    destruct Hsync' as [[r ->] [m Hm]]. rewrite Hm.
    rewrite <- (at_key_Some _ m _ Hm), Hall by done. done.
  - intros name' n Hn. unfold memory.GetPullRequest. rewrite Hr.
    destruct (memory.repositories (cache s) !! name') as [r|] eqn:Hrepo'; [|done].
    destruct (decide (name' = FullName repo)) as [->|Hne].
    + destruct Hsync' as [_ [m' Hm']]. destruct Hsync as [_ [m Hm]].
      rewrite Hm', Hm. rewrite <- (at_key_Some _ m' _ Hm'), <- (at_key_Some _ m _ Hm).
      by rewrite Hother.
    + by rewrite Hmaps.
Qed.

Lemma syncPullRequests_reconciles_witness :
  (syncPullRequests example.ghUp "acme" "widgets" example.tracking).2 = None
  /\ memory.GetPullRequest "acme/widgets" 5
       (cache (syncPullRequests example.ghUp "acme" "widgets" example.tracking).1)
     = Ok (toPullRequest example.repo example.ghPR).
Proof.
  destruct (syncPullRequests_reconciles example.ghUp "acme" "widgets" example.tracking
              example.repo [example.ghPR])
    as (Hret & Hstored & _).
  - reflexivity.
  - split; vm_compute; eauto.
  - reflexivity.
  - apply NoDup_singleton.
  - split; [exact Hret|]. apply (Hstored example.ghPR). apply list_elem_of_singleton.
    reflexivity.
Defined.

(** The label side of the loop, for any listing. *)
Lemma syncPullRequests_loop_labels (repo : Repository) (prs : list github.PullRequest)
    (c : memory.Cache) :
  syncing (FullName repo) c ->
  let c' := foldl (syncPullRequest repo) c prs in
  (forall l label, memory.labels c !! l = Some label -> memory.labels c' !! l = Some label)
  /\ (forall name' n' l, attached (memory.prLabels c) name' n' l ->
                         attached (memory.prLabels c') name' n' l)
  /\ (forall ghPR ghLabel, ghPR ∈ prs -> ghLabel ∈ github.Labels ghPR ->
         is_Some (memory.labels c' !! github.l_Name ghLabel)
         /\ attached (memory.prLabels c') (FullName repo) (github.Number ghPR)
              (github.l_Name ghLabel)).
Proof.
  revert c. induction prs as [|ghPR prs IH]; intros c Hsync; simpl.
  - repeat split; try done; intros; exfalso; eapply elem_of_nil; eauto.
  - destruct (syncPullRequest_effect repo c ghPR Hsync)
      as (Hsync1 & _ & _ & Hl & Hreg & Hmono & Hatt).
    destruct (IH _ Hsync1) as (Hl' & Hmono' & Hatt').
    split; [eauto|]. split; [eauto|].
    intros g ghLabel Hg HghLabel. apply elem_of_cons in Hg as [->|Hg]; [|eauto].
    split.
    + destruct (Hreg _ HghLabel) as [label Hlabel]. eauto.
    + eauto.
Qed.

(** X13. Labels only accumulate. After the pull request stage of a tracked
    repository, every label of every fetched pull request is registered and
    attached to that pull request; a label that was registered before is
    still registered with the record it had (the fetched colour and
    description of a known label are not stored), and every association
    that existed before still exists: a label taken off a pull request on
    GitHub stays attached in the Store. *)
Theorem syncPullRequests_labels_accumulate (rt : Runtime) (gh : github.ClientInterface)
    (owner name : string) (s : Service) (repo : Repository)
    (prs : list github.PullRequest) :
  memory.GetRepository owner name (cache s) = Ok repo ->
  syncing (FullName repo) (cache s) ->
  github.ListPullRequests gh owner name syncOptions = Ok prs ->
  (forall l label, memory.GetLabel l (cache s) = Ok label ->
                   memory.GetLabel l (cache (syncPullRequests gh owner name s).1) = Ok label)
  /\ (forall name' n' l,
         l ∈ attachedNames rt name' n' (memory.prLabels (cache s)) ->
         l ∈ attachedNames rt name' n'
               (memory.prLabels (cache (syncPullRequests gh owner name s).1)))
  /\ (forall ghPR ghLabel, ghPR ∈ prs -> ghLabel ∈ github.Labels ghPR ->
         (exists label,
             memory.GetLabel (github.l_Name ghLabel)
               (cache (syncPullRequests gh owner name s).1) = Ok label)
         /\ github.l_Name ghLabel
            ∈ attachedNames rt (FullName repo) (github.Number ghPR)
                (memory.prLabels (cache (syncPullRequests gh owner name s).1))).
Proof.
  intros Hget Hsync Hlist. unfold syncPullRequests. rewrite Hget, Hlist. simpl.
  destruct (syncPullRequests_loop_labels repo prs (cache s) Hsync) as (Hl & Hmono & Hatt).
  set (c' := foldl (syncPullRequest repo) (cache s) prs) in *.
  assert (Hnames : forall m name' n' l,
             l ∈ attachedNames rt name' n' m <-> attached m name' n' l).
  { intros m name' n' l. unfold attachedNames, attached.
    rewrite list_elem_of_fmap. split.
    - intros ([k []] & -> & Hin). rewrite (range_perm rt) in Hin.
      by apply elem_of_map_to_list in Hin.
    - intros Hin. exists (l, tt). split; [done|]. rewrite (range_perm rt).
      by apply elem_of_map_to_list. }
  split; [|split].
  - intros l label. unfold memory.GetLabel.
    destruct (memory.labels (cache s) !! l) as [label0|] eqn:Hlabel; [|done].
    intros [= <-]. by rewrite (Hl _ _ Hlabel).
  - intros name' n' l. rewrite !Hnames. apply Hmono.
  - intros ghPR ghLabel HghPR HghLabel.
    destruct (Hatt ghPR ghLabel HghPR HghLabel) as [[label Hlabel] Ha].
    split.
    + exists label. unfold memory.GetLabel. by rewrite Hlabel.
    + by apply Hnames.
Qed.

Lemma syncPullRequests_labels_accumulate_witness :
  "bug" ∈ attachedNames runtime0 "acme/widgets" 5
            (memory.prLabels
               (cache (syncPullRequests example.ghUp "acme" "widgets" example.tracking).1)).
Proof.
  destruct (syncPullRequests_labels_accumulate runtime0 example.ghUp "acme" "widgets"
              example.tracking example.repo [example.ghPR])
    as (_ & _ & Hatt).
  - reflexivity.
  - split; vm_compute; eauto.
  - reflexivity.
  - apply (Hatt example.ghPR example.ghLabel); apply list_elem_of_singleton; reflexivity.
Defined.

End sync_writes.

(* ===================================================================== *)
(** ** The outcome of a sync cycle *)
(* ===================================================================== *)

Section sync_outcomes.
Import go models service.

Lemma syncPullRequests_tracked (gh : github.ClientInterface) (owner name : string)
    (s : Service) (repo : Repository) :
  memory.GetRepository owner name (cache s) = Ok repo ->
  events (syncPullRequests gh owner name s).1
  = (events s ++ [CallListPullRequests owner name syncOptions])%list
  /\ (syncPullRequests gh owner name s).2
     = match github.ListPullRequests gh owner name syncOptions with
       | Ok _ => None
       | Err e => Some (wrapError "failed to list pull requests: " e)
       end.
Proof.
  intros Hget. unfold syncPullRequests. rewrite Hget.
  by destruct (github.ListPullRequests gh owner name syncOptions).
Qed.

Lemma syncIssues_tracked (gh : github.ClientInterface) (owner name : string)
    (s : Service) (repo : Repository) :
  memory.GetRepository owner name (cache s) = Ok repo ->
  events (syncIssues gh owner name s).1
  = (events s ++ [CallListIssues owner name syncOptions])%list
  /\ (syncIssues gh owner name s).2
     = match github.ListIssues gh owner name syncOptions with
       | Ok _ => None
       | Err e => Some (wrapError "failed to list issues: " e)
       end.
Proof.
  intros Hget. unfold syncIssues. rewrite Hget.
  by destruct (github.ListIssues gh owner name syncOptions).
Qed.

(** X14. What a cycle for a tracked repository requests and returns. It
    asks GitHub for the pull requests once and, only if that request
    succeeded, for the issues once, both times for the first page of 100
    with state [all], most recently updated first, and nothing else. It
    returns no error exactly when both requests succeeded; a failed request
    is returned wrapped twice. Whatever the outcome, the status map
    afterwards is the one before the cycle without the entry of the
    repository. *)
Theorem syncRepository_outcome (gh : github.ClientInterface) (now : Time)
    (owner name : string) (s : Service) (repo : Repository) :
  cache_wf (cache s) ->
  memory.GetRepository owner name (cache s) = Ok repo ->
  syncStatus (syncRepository gh now owner name s).1
  = delete (memory.fullNameOf owner name) (syncStatus s)
  /\ match github.ListPullRequests gh owner name syncOptions with
     | Err e =>
         (syncRepository gh now owner name s).2
         = Some (wrapError "failed to sync pull requests: "
                   (wrapError "failed to list pull requests: " e))
         /\ events (syncRepository gh now owner name s).1
            = (events s ++ [CallListPullRequests owner name syncOptions])%list
     | Ok _ =>
         (syncRepository gh now owner name s).2
         = match github.ListIssues gh owner name syncOptions with
           | Err e => Some (wrapError "failed to sync issues: "
                              (wrapError "failed to list issues: " e))
           | Ok _ => None
           end
         /\ events (syncRepository gh now owner name s).1
            = (events s ++ [CallListPullRequests owner name syncOptions;
                            CallListIssues owner name syncOptions])%list
     end.
Proof.
  intros Hwf Hget. unfold syncRepository, syncRepository_body.
  set (fullName := memory.fullNameOf owner name).
  set (s0 := setStatus fullName "syncing" s).
  change (cache s0) with (cache s). rewrite Hget.
  destruct (syncPullRequests_tracked gh owner name s0 repo Hget) as [Hev1 Hres1].
  pose proof (syncPullRequests_frame gh owner name s0) as (Hr1 & _ & _ & Hst1).
  destruct (syncPullRequests gh owner name s0) as [s1 o1]. simpl in Hev1, Hres1, Hr1, Hst1.
  subst o1.
  destruct (github.ListPullRequests gh owner name syncOptions) as [prs|e].
  - assert (Hget1 : memory.GetRepository owner name (cache s1) = Ok repo).
    { apply GetRepository_Ok. rewrite Hr1. by apply GetRepository_Ok. }
    destruct (syncIssues_tracked gh owner name s1 repo Hget1) as [Hev2 Hres2].
    pose proof (syncIssues_frame gh owner name s1) as (Hr2 & Hst2).
    destruct (syncIssues gh owner name s1) as [s2 o2]. simpl in Hev2, Hres2, Hr2, Hst2.
    subst o2.
    destruct (github.ListIssues gh owner name syncOptions) as [issues|e].
    + apply GetRepository_Ok in Hget. fold fullName in Hget.
      assert (Hkey : memory.fullNameOf (Owner repo) (Name repo) = fullName)
        by exact (Hwf fullName repo Hget).
      unfold memory.UpdateRepository. simpl. rewrite Hkey.
      rewrite lookup_alter_eq, Hr2, Hr1. change (cache s0) with (cache s).
      rewrite Hget. simpl. rewrite Hst2, Hst1. simpl.
      split; [by rewrite delete_insert_eq|]. split; [done|].
      rewrite Hev2, Hev1. simpl. by rewrite <- app_assoc.
    + simpl. rewrite Hst2, Hst1. simpl.
      split; [by rewrite !delete_insert_eq|]. split; [done|].
      rewrite Hev2, Hev1. simpl. by rewrite <- app_assoc.
  - simpl. rewrite Hst1. simpl.
    split; [by rewrite !delete_insert_eq|]. split; [done|]. by rewrite Hev1.
Qed.

Lemma syncRepository_outcome_witness :
  (syncRepository example.ghUp 200 "acme" "widgets" example.tracking).2 = None
  /\ events (syncRepository example.ghUp 200 "acme" "widgets" example.tracking).1
     = [CallListPullRequests "acme" "widgets" syncOptions;
        CallListIssues "acme" "widgets" syncOptions].
Proof.
  destruct (syncRepository_outcome example.ghUp 200 "acme" "widgets" example.tracking
              example.repo) as (_ & Hret & Hev).
  - apply tracking_wf.
  - reflexivity.
  - split; [exact Hret | exact Hev].
Defined.

(** X15. A cycle that starts after its repository was deleted does
    nothing: it returns the Store's "not found" error wrapped, sends no
    request to GitHub, leaves the Store as the deletion left it (the
    repository is not tracked again) and leaves no status entry. *)
Theorem sync_of_deleted_repository (gh : github.ClientInterface) (now : Time)
    (owner name : string) (s : Service) :
  (DeleteRepository owner name s).2 = None ->
  (syncRepository gh now owner name (DeleteRepository owner name s).1).2
  = Some (wrapError "repository not found: "
            (memory.errRepositoryNotFound (memory.fullNameOf owner name)))
  /\ cache (syncRepository gh now owner name (DeleteRepository owner name s).1).1
     = cache (DeleteRepository owner name s).1
  /\ events (syncRepository gh now owner name (DeleteRepository owner name s).1).1
     = events s
  /\ syncStatus (syncRepository gh now owner name (DeleteRepository owner name s).1).1
     = delete (memory.fullNameOf owner name) (syncStatus s)
  /\ GetRepository owner name
       (syncRepository gh now owner name (DeleteRepository owner name s).1).1
     = Err ErrRepositoryNotFound.
Proof.
  unfold DeleteRepository, memory.DeleteRepository.
  destruct (memory.repositories (cache s) !! memory.fullNameOf owner name)
    as [repo|] eqn:Hrepo; [|done].
  simpl. intros _.
  unfold syncRepository, syncRepository_body, GetRepository, memory.GetRepository. simpl.
  rewrite lookup_delete_eq. simpl. rewrite lookup_delete_eq.
  repeat split; try done. by rewrite !delete_insert_eq.
Qed.

Lemma sync_of_deleted_repository_witness :
  (syncRepository example.ghUp 200 "acme" "widgets"
     (DeleteRepository "acme" "widgets" example.tracking).1).2
  = Some (wrapError "repository not found: "
            (memory.errRepositoryNotFound "acme/widgets")).
Proof.
  apply (sync_of_deleted_repository example.ghUp 200 "acme" "widgets" example.tracking).
  reflexivity.
Defined.

(** X16. A repository is stored under the owner and the name that GitHub
    returns, and its first cycle is started for the owner and the name of
    the request. When the two differ (GitHub answers a request for
    [Acme/Widgets] with the repository [acme/widgets]), the call succeeds
    and the repository can be read under the returned name only; the cycle
    that was started finds no repository, requests nothing and writes
    nothing; and the same request again asks GitHub again and fails with the
    Store's "already exists" error. *)
Theorem AddRepository_under_returned_name (gh : github.ClientInterface) (now : Time)
    (fullName owner name : string) (s : Service) (ghRepo : github.Repository) :
  Split fullName "/" = [owner; name] ->
  github.GetRepository gh owner name = Ok ghRepo ->
  memory.fullNameOf (github.Login (github.Owner ghRepo)) (github.Name ghRepo)
  <> memory.fullNameOf owner name ->
  memory.repositories (cache s) !! memory.fullNameOf owner name = None ->
  memory.repositories (cache s)
    !! memory.fullNameOf (github.Login (github.Owner ghRepo)) (github.Name ghRepo) = None ->
  exists s1 repo,
    AddRepository gh now fullName s = (s1, Ok repo)
    /\ GetRepository (github.Login (github.Owner ghRepo)) (github.Name ghRepo) s1 = Ok repo
    /\ GetRepository owner name s1 = Err ErrRepositoryNotFound
    /\ spawned s s1 = [(owner, name)]
    /\ (forall now',
           (syncRepository gh now' owner name s1).2
           = Some (wrapError "repository not found: "
                     (memory.errRepositoryNotFound (memory.fullNameOf owner name)))
           /\ cache (syncRepository gh now' owner name s1).1 = cache s1
           /\ events (syncRepository gh now' owner name s1).1 = events s1)
    /\ (forall now',
           (AddRepository gh now' fullName s1).2
           = Err (wrapError "failed to add repository to cache: "
                    (memory.errRepositoryExists
                       (memory.fullNameOf (github.Login (github.Owner ghRepo))
                          (github.Name ghRepo))))
           /\ events (AddRepository gh now' fullName s1).1
              = (events s1 ++ [CallGetRepository owner name])%list
           /\ cache (AddRepository gh now' fullName s1).1 = cache s1).
Proof.
  intros Hsplit Hgh Hne Hreq Hret.
  set (key := memory.fullNameOf (github.Login (github.Owner ghRepo)) (github.Name ghRepo))
    in *.
  unfold AddRepository at 1. rewrite Hsplit. unfold memory.GetRepository at 1.
  rewrite Hreq. cbv zeta. rewrite Hgh. unfold memory.AddRepository. simpl.
  fold key. rewrite Hret. simpl.
  eexists _, _. split; [reflexivity|].
  split; [|split; [|split; [|split]]].
  - unfold GetRepository, memory.GetRepository. simpl. fold key.
    by rewrite lookup_insert_eq.
  - unfold GetRepository, memory.GetRepository. simpl.
    by rewrite lookup_insert_ne, Hreq.
  - unfold spawned. simpl. rewrite <- app_assoc, drop_app_length. done.
  - intros now'. unfold syncRepository, syncRepository_body, memory.GetRepository. simpl.
    rewrite lookup_insert_ne, Hreq by done. done.
  - intros now'. unfold AddRepository. rewrite Hsplit. unfold memory.GetRepository.
    simpl. rewrite lookup_insert_ne, Hreq by done. cbv zeta. rewrite Hgh.
    unfold memory.AddRepository. simpl. fold key. rewrite lookup_insert_eq. done.
Qed.

Lemma AddRepository_under_returned_name_witness :
  exists s1 repo,
    AddRepository example.ghUp 100 "Acme/Widgets" (NewService 0) = (s1, Ok repo)
    /\ GetRepository "acme" "widgets" s1 = Ok repo
    /\ GetRepository "Acme" "Widgets" s1 = Err ErrRepositoryNotFound.
Proof.
  destruct (AddRepository_under_returned_name example.ghUp 100 "Acme/Widgets"
              "Acme" "Widgets" (NewService 0) example.ghRepo)
    as (s1 & repo & Hadd & Hcanonical & Hrequested & _);
    [reflexivity | reflexivity | discriminate | reflexivity | reflexivity |].
  exists s1, repo. split; [exact Hadd|]. split; [exact Hcanonical | exact Hrequested].
Defined.

End sync_outcomes.

(* ===================================================================== *)
(** ** Service operations over all repositories *)
(* ===================================================================== *)

Section all_repositories.
Import go models service.

Lemma range_values_elem (rt : Runtime) {K} `{Countable K} {V} (m : gmap K V) (v : V) :
  v ∈ (range rt _ _ m).*2 <-> exists k, m !! k = Some v.
Proof.
  rewrite list_elem_of_fmap. split.
  - intros ([k v'] & -> & Hin). rewrite (range_perm rt) in Hin.
    apply elem_of_map_to_list in Hin. eauto.
  - intros [k Hk]. exists (k, v). split; [done|]. rewrite (range_perm rt).
    by apply elem_of_map_to_list.
Qed.

Lemma dispatch_all (repos : list Repository) (s : Service) :
  let s' := foldl (fun s repo => emit (GoSyncRepository (Owner repo) (Name repo)) s)
              s repos in
  cache s' = cache s /\ syncStatus s' = syncStatus s
  /\ events s'
     = (events s ++ ((fun repo => GoSyncRepository (Owner repo) (Name repo)) <$> repos))%list.
Proof.
  revert s. induction repos as [|repo repos IH]; intros s; simpl.
  - by rewrite app_nil_r.
  - destruct (IH (emit (GoSyncRepository (Owner repo) (Name repo)) s)) as (Hc & Hst & Hev).
    rewrite Hc, Hst, Hev. simpl. by rewrite <- app_assoc.
Qed.

Lemma spawned_dispatch (repos : list Repository) (s s' : Service) :
  events s'
  = (events s ++ ((fun repo => GoSyncRepository (Owner repo) (Name repo)) <$> repos))%list ->
  spawned s s' = (fun repo => (Owner repo, Name repo)) <$> repos.
Proof.
  intros Hev. unfold spawned. rewrite Hev, drop_app_length. clear Hev.
  induction repos as [|repo repos IH]; [done|].
  simpl. change (omap ?f (?x :: ?l)) with (match f x with Some y => y :: omap f l
                                                     | None => omap f l end).
  simpl. f_equal. exact IH.
Qed.

(** X17. [RefreshAll] always returns without an error and without a
    panic, changes neither the Store nor the status map, and starts one
    cycle for each of the first 1000 repositories that the Store lists,
    under the owner and the name of the stored record: every cycle it
    starts is for a stored repository, and with at most 1000 repositories
    tracked every one of them gets its cycle. *)
Theorem RefreshAll_dispatches (rt : Runtime) (s : Service) :
  exists s',
    RefreshAll rt s = Returns (s', None)
    /\ cache s' = cache s
    /\ syncStatus s' = syncStatus s
    /\ length (spawned s s') = Nat.min 1000 (size (memory.repositories (cache s)))
    /\ (forall owner name,
           (owner, name) ∈ spawned s s' ->
           exists key repo,
             memory.repositories (cache s) !! key = Some repo
             /\ Owner repo = owner /\ Name repo = name)
    /\ ((size (memory.repositories (cache s)) <= 1000)%nat ->
        forall key repo,
          memory.repositories (cache s) !! key = Some repo ->
          (Owner repo, Name repo) ∈ spawned s s').
Proof.
  unfold RefreshAll. rewrite memory_ListRepositories_first_1000. simpl.
  set (repos := take 1000 (range rt _ _ (memory.repositories (cache s))).*2).
  destruct (dispatch_all repos s) as (Hc & Hst & Hev).
  eexists. split; [reflexivity|]. split; [exact Hc|]. split; [exact Hst|].
  rewrite (spawned_dispatch repos s _ Hev).
  assert (Hlen : length (range rt _ _ (memory.repositories (cache s))).*2
                 = size (memory.repositories (cache s))).
  { by rewrite length_fmap, range_length. }
  split; [|split].
  - rewrite length_fmap. unfold repos. rewrite length_take, Hlen. done.
  - intros owner name Hin. apply list_elem_of_fmap in Hin as (repo & [= -> ->] & Hin).
    unfold repos in Hin. apply elem_of_take in Hin as (i & Hi & _).
    apply list_elem_of_lookup_2 in Hi. apply range_values_elem in Hi as [key Hkey].
    eauto.
  - intros Hsize key repo Hrepo. apply list_elem_of_fmap. exists repo. split; [done|].
    unfold repos. rewrite take_ge by lia. apply range_values_elem. eauto.
Qed.

Lemma lastSyncOf_fold (repos : list Repository) (t0 : Time) :
  t0 <= foldl (fun lastSync repo =>
                 if After (LastSyncedAt repo) lastSync then LastSyncedAt repo
                 else lastSync) t0 repos
  /\ (forall repo, repo ∈ repos ->
         LastSyncedAt repo
         <= foldl (fun lastSync repo =>
                     if After (LastSyncedAt repo) lastSync then LastSyncedAt repo
                     else lastSync) t0 repos)
  /\ (foldl (fun lastSync repo =>
               if After (LastSyncedAt repo) lastSync then LastSyncedAt repo
               else lastSync) t0 repos = t0
      \/ exists repo,
           repo ∈ repos
           /\ LastSyncedAt repo
              = foldl (fun lastSync repo =>
                         if After (LastSyncedAt repo) lastSync then LastSyncedAt repo
                         else lastSync) t0 repos).
Proof.
  revert t0. induction repos as [|repo repos IH]; intros t0; cbn [foldl].
  - split; [lia|]. split; [|by left]. by intros ? ?%elem_of_nil.
  - destruct (After (LastSyncedAt repo) t0) eqn:Hlt; unfold After in Hlt.
    + apply bool_decide_eq_true in Hlt.
      destruct (IH (LastSyncedAt repo)) as (Hle & Hall & Hex).
      split; [lia|]. split.
      * intros r Hr. apply elem_of_cons in Hr as [->|Hr]; [exact Hle|eauto].
      * right. destruct Hex as [Heq|(r & Hr & Heq)].
        -- exists repo. split; [left|done].
        -- exists r. split; [by right|done].
    + apply bool_decide_eq_false in Hlt.
      destruct (IH t0) as (Hle & Hall & Hex).
      split; [done|]. split.
      * intros r Hr. apply elem_of_cons in Hr as [->|Hr]; [lia|eauto].
      * destruct Hex as [Heq|(r & Hr & Heq)]; [by left|].
        right. exists r. split; [by right|done].
Qed.

(** X18. The status report. When [GetStatus] returns a status, it has sent
    one rate limit request to GitHub and changed nothing else; [total] is
    the number of tracked repositories and [uptime] the time since the
    service was created; [last_sync] is the zero time or the
    [LastSyncedAt] of a tracked repository, never earlier than the zero
    time, and with at most 1000 repositories tracked no repository has a
    later [LastSyncedAt]. *)
Theorem GetStatus_reports (rt : Runtime) (gh : github.ClientInterface) (now : Time)
    (s : Service) (st : Status) :
  (GetStatus rt gh now s).2 = Returns (Ok st) ->
  (GetStatus rt gh now s).1 = emit CallGetRateLimit s
  /\ repositories_total st = Z.of_nat (size (memory.repositories (cache s)))
  /\ uptime st = now - startTime s
  /\ zeroTime <= last_sync st
  /\ (last_sync st = zeroTime
      \/ exists key repo,
           memory.repositories (cache s) !! key = Some repo
           /\ LastSyncedAt repo = last_sync st)
  /\ ((size (memory.repositories (cache s)) <= 1000)%nat ->
      forall key repo,
        memory.repositories (cache s) !! key = Some repo ->
        LastSyncedAt repo <= last_sync st).
Proof.
  unfold GetStatus. rewrite memory_ListRepositories_first_1000.
  destruct (github.GetRateLimit gh) as [rateLimit|e]; [|done].
  simpl. intros [= <-]. simpl.
  set (repos := take 1000 (range rt _ _ (memory.repositories (cache s))).*2).
  destruct (lastSyncOf_fold repos zeroTime) as (Hle & Hall & Hex).
  fold (lastSyncOf repos) in Hle, Hall, Hex.
  repeat split; try done.
  - destruct Hex as [Hz|(repo & Hin & Heq)]; [by left|]. right.
    unfold repos in Hin. apply elem_of_take in Hin as (i & Hi & _).
    apply list_elem_of_lookup_2 in Hi. apply range_values_elem in Hi as [key Hkey].
    eauto.
  - intros Hsize key repo Hrepo. apply Hall. unfold repos.
    rewrite take_ge by (rewrite length_fmap, range_length; lia).
    apply range_values_elem. eauto.
Qed.

Lemma GetStatus_reports_witness :
  exists st,
    (GetStatus runtime0 example.ghUp 300 example.tracking).2 = Returns (Ok st)
    /\ uptime st = 300 - startTime example.tracking.
Proof.
  destruct (GetStatus_returns runtime0 example.ghUp 300 example.tracking example.rateLimit)
    as [st Hst]; [reflexivity|].
  exists st. split; [exact Hst|].
  destruct (GetStatus_reports runtime0 example.ghUp 300 example.tracking st Hst)
    as (_ & _ & Huptime & _).
  exact Huptime.
Defined.

End all_repositories.

(* ===================================================================== *)
(** ** What a list query returns *)
(* ===================================================================== *)

Section query_results.
Import go models service.

Lemma bind_Returns {A B} (m : exec A) (k : A -> exec B) (b : B) :
  (x ← m; k x) = Returns b -> exists a, m = Returns a /\ k a = Returns b.
Proof. destruct m as [a|p]; [eauto|done]. Qed.

Lemma slice_sublist {A} (l items : list A) (lo hi : Z) :
  slice l lo hi = Returns items -> forall x, x ∈ items -> x ∈ l.
Proof.
  unfold slice. case_decide; [|done]. intros [= <-] x Hx.
  apply elem_of_take in Hx as (i & Hi & _). rewrite lookup_drop in Hi.
  by apply list_elem_of_lookup_2 in Hi.
Qed.

Lemma paginateFiltered_items {A} (sorted items : list A) (page perPage : Z)
    (pagination : Pagination) :
  paginateFiltered sorted page perPage = Returns (Ok (items, pagination)) ->
  forall x, x ∈ items -> x ∈ sorted.
Proof.
  unfold paginateFiltered. case_decide.
  - intros (totalPages & _ & [= <- _])%bind_Returns x Hx. by apply elem_of_nil in Hx.
  - intros (totalPages & _ & (page_items & Hslice & [= <- _])%bind_Returns)%bind_Returns.
    exact (slice_sublist _ _ _ _ Hslice).
Qed.

(** What [ListPullRequests(ctx, name, 1, 1000)] of the Store returns is
    stored under [name]. *)
Lemma memory_ListPullRequests_stored (rt : Runtime) (name : string) (c : memory.Cache)
    (prs : list PullRequest) (total : Z) (pr : PullRequest) :
  memory.ListPullRequests rt name 1 1000 c = Returns (Ok (prs, total)) ->
  pr ∈ prs ->
  exists n, memory.GetPullRequest name n c = Ok pr.
Proof.
  unfold memory.ListPullRequests, memory.GetPullRequest.
  destruct (memory.repositories c !! name); [|done].
  destruct (memory.pullRequests c !! name) as [repoMap|].
  - rewrite <- (range_values_len rt repoMap), paginate_first_1000.
    intros [= <- _] Hin. apply elem_of_take in Hin as (i & Hi & _).
    apply list_elem_of_lookup_2 in Hi. apply range_values_elem in Hi as [n Hn].
    exists n. by rewrite Hn.
  - intros [= <- _] Hin. by apply elem_of_nil in Hin.
Qed.

Lemma collectPullRequests_elem (rt : Runtime) (c : memory.Cache) (repos : list Repository)
    (all : list PullRequest) (pr : PullRequest) :
  collectPullRequests rt c repos = Returns all ->
  pr ∈ all ->
  exists repo n, repo ∈ repos /\ memory.GetPullRequest (FullName repo) n c = Ok pr.
Proof.
  revert all. induction repos as [|repo repos IH]; intros all; cbn [collectPullRequests].
  - intros [= <-] Hin. by apply elem_of_nil in Hin.
  - intros (r & Hr & (rest & Hrest & [= <-])%bind_Returns)%bind_Returns Hin.
    assert (Hrest' : pr ∈ rest -> exists repo0 n,
                 repo0 ∈ repo :: repos /\ memory.GetPullRequest (FullName repo0) n c = Ok pr).
    { intros Hpr. destruct (IH rest Hrest Hpr) as (repo0 & n & Hrepo0 & Hget).
      exists repo0, n. split; [by right|done]. }
    destruct r as [[prs total]|e]; [|by apply Hrest'].
    apply elem_of_app in Hin as [Hin|Hin]; [|by apply Hrest'].
    destruct (memory_ListPullRequests_stored rt _ c prs total pr Hr Hin) as [n Hn].
    exists repo, n. split; [left|done].
Qed.

(** X19. What a pull request query returns. Every item of the page is a
    pull request that the Store holds for a tracked repository and that
    passes the state filter and the author filter of the query, each of
    them compared without regard to case and not applied when empty; in a
    query scoped to one repository every item is held under the
    [FullName] of that repository's record. *)
Theorem ListPullRequests_returns_stored (rt : Runtime) (filter : PullRequestFilter)
    (s : Service) (items : list PullRequest) (pagination : Pagination) :
  listAllPullRequests rt filter s = Returns (Ok (items, pagination)) ->
  forall pr, pr ∈ items ->
    (f_State filter = "" \/ EqualFold rt (pr_State pr) (f_State filter) = true)
    /\ (f_Author filter = "" \/ EqualFold rt (pr_UserLogin pr) (f_Author filter) = true)
    /\ exists name n,
         memory.GetPullRequest name n (cache s) = Ok pr
         /\ (forall owner repoName repo,
                Split (f_Repo filter) "/" = [owner; repoName] ->
                memory.GetRepository owner repoName (cache s) = Ok repo ->
                name = FullName repo).
Proof.
  unfold listAllPullRequests.
  intros (repos & Hrepos & Hrest)%bind_Returns pr Hpr.
  destruct repos as [repos|err]; [|done].
  apply bind_Returns in Hrest as (allPRs & Hall & Hpage).
  pose proof (paginateFiltered_items _ _ _ _ _ Hpage pr Hpr) as Hin.
  unfold filteredPullRequests in Hin. rewrite (sort_Slice_perm rt) in Hin.
  apply list_elem_of_In, filter_In in Hin as [Hin Hkeep]. apply list_elem_of_In in Hin.
  destruct (collectPullRequests_elem rt (cache s) repos allPRs pr Hall Hin)
    as (repo & n & Hrepo & Hget).
  split; [|split].
  - unfold keepPullRequest in Hkeep.
    destruct (decide (f_State filter = "")) as [Hs|Hs]; [by left|right].
    rewrite (bool_decide_eq_true_2 _ Hs) in Hkeep. simpl in Hkeep.
    by destruct (EqualFold rt (pr_State pr) (f_State filter)).
  - unfold keepPullRequest in Hkeep.
    destruct (decide (f_Author filter = "")) as [Ha|Ha]; [by left|right].
    rewrite (bool_decide_eq_true_2 (f_Author filter <> "") Ha) in Hkeep.
    destruct (bool_decide (f_State filter <> "")
              && negb (EqualFold rt (pr_State pr) (f_State filter))); [done|].
    simpl in Hkeep. by destruct (EqualFold rt (pr_UserLogin pr) (f_Author filter)).
  - exists (FullName repo), n. split; [done|].
    intros owner repoName repo' Hsplit Hget'.
    unfold reposToProcess in Hrepos. rewrite Hsplit, Hget' in Hrepos.
    case_decide as Hscope.
    + injection Hrepos as <-. apply list_elem_of_singleton in Hrepo. by subst.
    + by rewrite Hscope in Hsplit.
Qed.

Lemma ListPullRequests_returns_stored_witness :
  exists name n,
    memory.GetPullRequest name n (cache example.tracking)
    = Ok (example.pr "acme/widgets" 5 "open").
Proof.
  destruct (ListPullRequests_returns_stored runtime0 (example.query 1 10) example.tracking
              [example.pr "acme/widgets" 5 "open"]
              {| Page := 1; PerPage := 10; Total := 1; TotalPages := 1 |}
              eq_refl (example.pr "acme/widgets" 5 "open"))
    as (_ & _ & name & n & Hget & _).
  - apply list_elem_of_singleton. reflexivity.
  - exists name, n. exact Hget.
Defined.

(** The filter with other values in the fields [Label], [SortBy], [Since]
    and [GroupBy]. *)
Definition withUnread (label sortBy groupBy : string) (since : Time)
    (filter : PullRequestFilter) : PullRequestFilter :=
  {| f_State := f_State filter; f_Author := f_Author filter; f_Repo := f_Repo filter;
     f_Label := label; f_SortBy := sortBy; f_Direction := f_Direction filter;
     f_Since := since; f_GroupBy := groupBy; f_Page := f_Page filter;
     f_PerPage := f_PerPage filter |}.

(** X20. The list queries read six fields of the filter: the repository,
    the state, the author, the direction, the page and the page size. The
    label, the sort key, the [since] time and the grouping have no effect:
    for the same choices of the runtime (the order of [range], the
    arrangement of [sort.Slice]) a query returns the same page, descriptor,
    error or panic whatever they hold. The order is by creation time,
    whatever the sort key. *)
Theorem list_queries_ignore_label_sort_since_group (rt : Runtime)
    (label sortBy groupBy : string) (since : Time) (filter : PullRequestFilter)
    (s : Service) :
  listAllPullRequests rt (withUnread label sortBy groupBy since filter) s
  = listAllPullRequests rt filter s
  /\ listAllIssues rt (withUnread label sortBy groupBy since filter) s
     = listAllIssues rt filter s.
Proof. split; reflexivity. Qed.

End query_results.

(* ===================================================================== *)
(** ** The file store *)
(* ===================================================================== *)

Section file_store.
Import go models file.

Lemma remove_first_app_fresh {A} `{EqDecision A} (x : A) (s : list A) :
  x ∉ s -> remove_first x (s ++ [x]) = s.
Proof.
  induction s as [|y s IH]; simpl; intros Hfresh.
  - by rewrite decide_True.
  - apply not_elem_of_cons in Hfresh as [Hne Hfresh].
    rewrite decide_False by done. by rewrite IH.
Qed.

Lemma remove_first_length {A} `{EqDecision A} (x : A) (s : list A) :
  (length (remove_first x s) <= length s)%nat.
Proof.
  induction s as [|y s IH]; simpl; [lia|]. case_decide; simpl; lia.
Qed.

Lemma omap_pointwise {A B} (f g : A -> option B) (l : list A) :
  (forall x, f x = g x) -> omap f l = omap g l.
Proof.
  intros Hfg. apply list_omap_ext. induction l; constructor; eauto.
Qed.

(** Page 1 of a size that holds every listed number. *)
Lemma ListPullRequests_whole (name : string) (perPage : Z) (db : DB) :
  len (slice_at name (repoPRs db)) <= perPage <= MaxInt ->
  ListPullRequests name 1 perPage db
  = Some (omap (fun number => memory.at_key name (pullRequests db) !! number)
            (slice_at name (repoPRs db)),
          len (slice_at name (repoPRs db))).
Proof.
  intros Hper. unfold ListPullRequests, slice_at in *.
  destruct (repoPRs db !! name) as [numbers|]; [|done]. cbn [default] in *.
  change (id numbers) with numbers in *.
  assert (Hlen : 0 <= len numbers) by (unfold len; lia).
  assert (Hzero : wrap 0 = 0) by (apply wrap_id; unfold in_int, MinInt, MaxInt; lia).
  unfold mul, sub, add. rewrite Z.sub_diag, Hzero, Z.mul_0_l, Hzero, Z.add_0_l.
  rewrite (wrap_id perPage) by (unfold in_int, MinInt, MaxInt in *; lia).
  clear Hzero.
  destruct (decide (0 >= len numbers)) as [Hzero|Hpos].
  - assert (numbers = []) as ->; [|done].
    apply length_zero_iff_nil. unfold len in *. lia.
  - destruct (decide (perPage > len numbers)) as [Hgt|Hle].
    + rewrite decide_True by lia. rewrite Z.sub_0_r. unfold len.
      by rewrite Nat2Z.id, drop_0, firstn_all.
    + assert (perPage = len numbers) as -> by lia.
      rewrite decide_True by lia. rewrite Z.sub_0_r. unfold len.
      by rewrite Nat2Z.id, drop_0, firstn_all.
Qed.

(** X21. The file store's [AddRepository] has no existence check: it
    stores the record under its [FullName], replacing a record that is
    stored there, and leaves every pull request and every other repository
    as it was. It returns what the write to the file returned, and the
    record is in the store also when that write failed. *)
Theorem file_AddRepository_replaces (repo : Repository) (owner name : string) (db : DB)
    (w : written) :
  FullName repo = (owner ++ "/" ++ name)%string ->
  (AddRepository repo db w).2 = w
  /\ GetRepository owner name (AddRepository repo db w).1 = Ok repo
  /\ (forall owner' name',
         (owner' ++ "/" ++ name')%string <> FullName repo ->
         GetRepository owner' name' (AddRepository repo db w).1
         = GetRepository owner' name' db)
  /\ (forall name' n,
         GetPullRequest name' n (AddRepository repo db w).1 = GetPullRequest name' n db)
  /\ (forall name' page perPage,
         ListPullRequests name' page perPage (AddRepository repo db w).1
         = ListPullRequests name' page perPage db).
Proof.
  intros Hname. unfold AddRepository, GetRepository. simpl.
  rewrite <- Hname, lookup_insert_eq. repeat split; try done.
  intros owner' name' Hne. by rewrite lookup_insert_ne.
Qed.

Lemma file_AddRepository_replaces_witness :
  exists e,
    (AddRepository example.repo NewDB (Some e)).2 = Some e
    /\ GetRepository "acme" "widgets" (AddRepository example.repo NewDB (Some e)).1
       = Ok example.repo.
Proof.
  exists (errorString "disk full").
  destruct (file_AddRepository_replaces example.repo "acme" "widgets" NewDB
              (Some (errorString "disk full")))
    as (Hret & Hget & _); [reflexivity|].
  split; [exact Hret | exact Hget].
Defined.

(** X22. The file store's [UpdatePullRequest] is its [AddPullRequest]: it
    stores the record and appends the number to the repository's list of
    numbers whether or not the number is listed already. Afterwards the
    list has one entry more, a number that was listed is listed twice, and
    the first page of a size that holds the whole list returns one item for
    each entry and the length of the list as total. *)
Theorem file_UpdatePullRequest_lists_again (pr : PullRequest) (db : DB) (w : written)
    (perPage : Z) :
  len (slice_at (pr_RepositoryFullName pr) (repoPRs db)) < perPage <= MaxInt ->
  (UpdatePullRequest pr db w).2 = w
  /\ GetPullRequest (pr_RepositoryFullName pr) (pr_Number pr) (UpdatePullRequest pr db w).1
     = Ok pr
  /\ slice_at (pr_RepositoryFullName pr) (repoPRs (UpdatePullRequest pr db w).1)
     = (slice_at (pr_RepositoryFullName pr) (repoPRs db) ++ [pr_Number pr])%list
  /\ (pr_Number pr ∈ slice_at (pr_RepositoryFullName pr) (repoPRs db) ->
      ~ NoDup (slice_at (pr_RepositoryFullName pr) (repoPRs (UpdatePullRequest pr db w).1)))
  /\ ListPullRequests (pr_RepositoryFullName pr) 1 perPage (UpdatePullRequest pr db w).1
     = Some (omap (fun number =>
                     if decide (number = pr_Number pr) then Some pr
                     else memory.at_key (pr_RepositoryFullName pr) (pullRequests db)
                            !! number)
               (slice_at (pr_RepositoryFullName pr) (repoPRs db) ++ [pr_Number pr])%list,
             len (slice_at (pr_RepositoryFullName pr) (repoPRs db)) + 1).
Proof.
  intros Hper.
  set (name := pr_RepositoryFullName pr) in *. set (n := pr_Number pr) in *.
  set (numbers := slice_at name (repoPRs db)) in *.
  assert (Hnumbers : slice_at name (repoPRs (UpdatePullRequest pr db w).1)
                     = (numbers ++ [n])%list).
  { unfold UpdatePullRequest, AddPullRequest, slice_at. simpl. fold name n.
    by rewrite lookup_insert_eq. }
  assert (Hmap : memory.at_key name (pullRequests (UpdatePullRequest pr db w).1)
                 = <[n := pr]> (memory.at_key name (pullRequests db))).
  { unfold UpdatePullRequest, AddPullRequest, memory.at_key. simpl. fold name n.
    by rewrite lookup_insert_eq. }
  split; [done|]. split; [|split; [done|split]].
  - unfold UpdatePullRequest, AddPullRequest, GetPullRequest. simpl. fold name n.
    by rewrite !lookup_insert_eq.
  - rewrite Hnumbers. intros Hin Hnd. apply NoDup_app in Hnd as (_ & Hdisj & _).
    apply (Hdisj n Hin). by apply list_elem_of_singleton.
  - rewrite ListPullRequests_whole; rewrite Hnumbers.
    + assert (Hlen : len (numbers ++ [n])%list = len numbers + 1)
        by (unfold len; rewrite length_app; simpl; lia).
      rewrite Hlen, Hmap. do 2 f_equal. apply omap_pointwise. intros m.
      destruct (decide (m = n)) as [->|Hne].
      * by rewrite lookup_insert_eq.
      * by rewrite lookup_insert_ne.
    + unfold len in *. rewrite length_app. simpl. lia.
Qed.

Lemma file_UpdatePullRequest_lists_again_witness :
  ListPullRequests "acme/widgets" 1 30
    (UpdatePullRequest (example.pr "acme/widgets" 5 "open")
       (AddPullRequest (example.pr "acme/widgets" 5 "open") NewDB None).1 None).1
  = Some ([example.pr "acme/widgets" 5 "open"; example.pr "acme/widgets" 5 "open"], 2).
Proof.
  destruct (file_UpdatePullRequest_lists_again (example.pr "acme/widgets" 5 "open")
              (AddPullRequest (example.pr "acme/widgets" 5 "open") NewDB None).1 None 30)
    as (_ & _ & _ & _ & Hlist).
  - split; [vm_compute; reflexivity | vm_compute; discriminate].
  - exact Hlist.
Defined.

(** X23. The file store's [DeletePullRequest] removes the record and the
    first entry of the number in the repository's list, and no other entry.
    Afterwards the number is not found; the first page of a size that holds
    the whole list returns no item for the entries of the number that
    remain, and counts them in the total. *)
Theorem file_DeletePullRequest_unlists_once (name : string) (n : Z) (db : DB) (w : written)
    (old : PullRequest) (perPage : Z) :
  GetPullRequest name n db = Ok old ->
  len (slice_at name (repoPRs db)) <= perPage <= MaxInt ->
  (DeletePullRequest name n db w).2 = w
  /\ GetPullRequest name n (DeletePullRequest name n db w).1
     = Err (ErrPullRequestNotFound name n)
  /\ slice_at name (repoPRs (DeletePullRequest name n db w).1)
     = remove_first n (slice_at name (repoPRs db))
  /\ ListPullRequests name 1 perPage (DeletePullRequest name n db w).1
     = Some (omap (fun number =>
                     if decide (number = n) then None
                     else memory.at_key name (pullRequests db) !! number)
               (remove_first n (slice_at name (repoPRs db))),
             len (remove_first n (slice_at name (repoPRs db)))).
Proof.
  intros Hget Hper. unfold GetPullRequest in Hget.
  destruct (pullRequests db !! name) as [prs|] eqn:Hprs; [|done].
  destruct (prs !! n) as [pr|] eqn:Hpr; [|done].
  set (numbers := slice_at name (repoPRs db)) in *.
  assert (Hdb : DeletePullRequest name n db w
                = (match repoPRs db !! name with
                   | None => with_pullRequests (<[name := delete n prs]> (pullRequests db)) db
                   | Some numbers =>
                       with_repoPRs (<[name := remove_first n numbers]> (repoPRs db))
                         (with_pullRequests (<[name := delete n prs]> (pullRequests db)) db)
                   end, w)).
  { unfold DeletePullRequest. rewrite Hprs, Hpr. simpl.
    by destruct (repoPRs db !! name). }
  rewrite Hdb. clear Hdb. cbn [fst snd].
  set (db' := match repoPRs db !! name with
              | None => _
              | Some numbers => _
              end).
  assert (Hnumbers : slice_at name (repoPRs db') = remove_first n numbers).
  { unfold db', numbers, slice_at. destruct (repoPRs db !! name) as [ns|] eqn:Hns; simpl.
    - by rewrite lookup_insert_eq.
    - by rewrite Hns. }
  assert (Hmap : pullRequests db' !! name = Some (delete n prs)).
  { unfold db'. destruct (repoPRs db !! name); simpl; by rewrite lookup_insert_eq. }
  split; [done|]. split; [|split; [done|]].
  - unfold GetPullRequest. by rewrite Hmap, lookup_delete_eq.
  - rewrite ListPullRequests_whole; rewrite Hnumbers.
    + do 2 f_equal. apply omap_pointwise. intros m.
      unfold memory.at_key. rewrite Hmap, Hprs. simpl.
      destruct (decide (m = n)) as [->|Hne].
      * by rewrite lookup_delete_eq.
      * by rewrite lookup_delete_ne.
    + pose proof (remove_first_length n numbers). unfold len in *. lia.
Qed.

Lemma file_DeletePullRequest_unlists_once_witness :
  ListPullRequests "acme/widgets" 1 30
    (DeletePullRequest "acme/widgets" 5
       (UpdatePullRequest (example.pr "acme/widgets" 5 "open")
          (AddPullRequest (example.pr "acme/widgets" 5 "open") NewDB None).1 None).1
       None).1
  = Some ([], 1).
Proof.
  destruct (file_DeletePullRequest_unlists_once "acme/widgets" 5
              (UpdatePullRequest (example.pr "acme/widgets" 5 "open")
                 (AddPullRequest (example.pr "acme/widgets" 5 "open") NewDB None).1 None).1
              None (example.pr "acme/widgets" 5 "open") 30)
    as (_ & _ & _ & Hlist).
  - reflexivity.
  - split; vm_compute; discriminate.
  - exact Hlist.
Defined.

(** The names attached to a pull request, in the order of the slice. *)
Definition labelNames (repoFullName : string) (prNumber : Z) (db : DB) : list string :=
  slice_at prNumber (memory.at_key repoFullName (prLabels db)).

(** X24. Label associations of the file store. [AddPullRequestLabel]
    checks neither the pull request nor the label: it appends the name to
    the pull request's list unless the list holds it, in which case it
    changes no list and does not write the file. A list without duplicates
    stays without duplicates. [ListPullRequestLabels] returns the
    registered labels of the listed names in the order in which they were
    attached, and no item for a name that is not registered.
    [RemovePullRequestLabel] after attaching a new name gives back the list
    from before. *)
Theorem file_pull_request_labels (name : string) (n : Z) (l : string) (db : DB)
    (w : written) :
  labelNames name n (AddPullRequestLabel name n l db w).1
  = (if bool_decide (l ∈ labelNames name n db) then labelNames name n db
     else (labelNames name n db ++ [l])%list)
  /\ (AddPullRequestLabel name n l db w).2
     = (if bool_decide (l ∈ labelNames name n db) then None else w)
  /\ (NoDup (labelNames name n db) ->
      NoDup (labelNames name n (AddPullRequestLabel name n l db w).1))
  /\ ListPullRequestLabels name n (AddPullRequestLabel name n l db w).1
     = omap (fun name => memory.at_key "global" (labels db) !! name)
         (labelNames name n (AddPullRequestLabel name n l db w).1)
  /\ (forall name' n', (name', n') <> (name, n) ->
         labelNames name' n' (AddPullRequestLabel name n l db w).1 = labelNames name' n' db)
  /\ (l ∉ labelNames name n db ->
      forall w',
        labelNames name n
          (RemovePullRequestLabel name n l (AddPullRequestLabel name n l db w).1 w').1
        = labelNames name n db).
Proof.
  set (names := labelNames name n db).
  assert (Hinit : labelNames name n (init_prLabels name n db) = names).
  { unfold names, labelNames, init_prLabels, slice_at, memory.at_key. simpl.
    rewrite lookup_insert_eq. simpl. by rewrite lookup_insert_eq. }
  assert (Hadd : AddPullRequestLabel name n l db w
                 = if bool_decide (l ∈ names) then (init_prLabels name n db, None)
                   else (with_prLabels
                           (<[name := <[n := (names ++ [l])%list]>
                                        (memory.at_key name
                                           (prLabels (init_prLabels name n db)))]>
                              (prLabels (init_prLabels name n db)))
                           (init_prLabels name n db), w)).
  { unfold AddPullRequestLabel. cbv zeta. fold (labelNames name n (init_prLabels name n db)).
    by rewrite Hinit. }
  rewrite Hadd. clear Hadd.
  assert (Hother : forall name' n' v m0,
             (name', n') <> (name, n) ->
             slice_at n' (memory.at_key name'
                            (<[name := <[n := v]> m0]> (prLabels db)))
             = if decide (name' = name) then slice_at n' m0
               else slice_at n' (memory.at_key name' (prLabels db))).
  { intros name' n' v m0 Hne. unfold slice_at, memory.at_key.
    destruct (decide (name' = name)) as [->|Hname].
    - rewrite lookup_insert_eq. simpl. rewrite lookup_insert_ne; [done|]. congruence.
    - by rewrite lookup_insert_ne. }
  case_bool_decide as Hin; cbn [fst snd].
  - split; [done|]. split; [done|]. split; [by rewrite Hinit|]. split; [|split].
    + rewrite Hinit. unfold ListPullRequestLabels, init_prLabels. simpl.
      rewrite lookup_insert_eq. simpl. by rewrite lookup_insert_eq.
    + intros name' n' Hne. unfold labelNames, init_prLabels. simpl.
      rewrite Hother by done. case_decide as Hname; [by subst|done].
    + done.
  - assert (Hnames : labelNames name n
                       (with_prLabels
                          (<[name := <[n := (names ++ [l])%list]>
                                       (memory.at_key name
                                          (prLabels (init_prLabels name n db)))]>
                             (prLabels (init_prLabels name n db)))
                          (init_prLabels name n db))
                     = (names ++ [l])%list).
    { unfold labelNames, slice_at, memory.at_key.
      repeat first [rewrite lookup_insert_eq | progress simpl]. done. }
    rewrite Hnames. split; [done|]. split; [done|]. split; [|split; [|split]].
    + intros Hnd. apply NoDup_app. split; [done|]. split; [|apply NoDup_singleton].
      intros x Hx ->%list_elem_of_singleton. done.
    + unfold ListPullRequestLabels.
      repeat first [rewrite lookup_insert_eq | progress simpl]. done.
    + intros name' n' Hne. unfold labelNames, init_prLabels, slice_at, memory.at_key.
      simpl. destruct (decide (name' = name)) as [->|Hname].
      * assert (n' <> n) by congruence.
        repeat first [rewrite lookup_insert_eq | rewrite lookup_insert_ne by done
                     | progress simpl]. done.
      * by rewrite !lookup_insert_ne.
    + intros _ w'. unfold RemovePullRequestLabel, labelNames, slice_at, memory.at_key.
      repeat first [rewrite lookup_insert_eq | progress simpl].
      by rewrite remove_first_app_fresh.
Qed.

End file_store.

(* ===================================================================== *)
(** ** The HTTP handlers *)
(* ===================================================================== *)

Section http.
Import go models service.

Lemma getPaginationParams_bounds (Atoi : string -> result Z) (query : api.Values) :
  1 <= (api.getPaginationParams Atoi query).1
  /\ 1 <= (api.getPaginationParams Atoi query).2 <= 100.
Proof.
  unfold api.getPaginationParams. cbn [fst snd]. split.
  - case_decide; [|lia]. destruct (Atoi (api.Get query "page")); [|lia].
    case_decide; lia.
  - case_decide; [|lia]. destruct (Atoi (api.Get query "per_page")); [|lia].
    case_decide; lia.
Qed.

(** X25. The pagination parameters of a request. Whatever the query
    string holds and whatever [strconv.Atoi] makes of it, the page number is
    at least 1 and the page size between 1 and 100; each of them is the
    default (page 1, size 30) or the number that was parsed: a value out of
    range is replaced by the default, not by the nearest bound. *)
Theorem getPaginationParams_guards (Atoi : string -> result Z) (query : api.Values) :
  1 <= (api.getPaginationParams Atoi query).1
  /\ 1 <= (api.getPaginationParams Atoi query).2 <= 100
  /\ ((api.getPaginationParams Atoi query).1 = 1
      \/ Atoi (api.Get query "page") = Ok (api.getPaginationParams Atoi query).1)
  /\ ((api.getPaginationParams Atoi query).2 = 30
      \/ Atoi (api.Get query "per_page") = Ok (api.getPaginationParams Atoi query).2).
Proof.
  unfold api.getPaginationParams. cbn [fst snd].
  destruct (getPaginationParams_bounds Atoi query) as [Hp Hpp].
  unfold api.getPaginationParams in Hp, Hpp. cbn [fst snd] in Hp, Hpp.
  split; [exact Hp|]. split; [exact Hpp|]. clear Hp Hpp. split.
  - case_decide; [|by left]. destruct (Atoi (api.Get query "page")); [|by left].
    case_decide; [by right|by left].
  - case_decide; [|by left]. destruct (Atoi (api.Get query "per_page")); [|by left].
    case_decide; [by right|by left].
Qed.

(** X26. The handler that lists the repositories. For a page number up
    to 92233720368547758, and a Store that is not within 100 entries of the
    largest [int], the handler does not panic and renders no error: it
    renders the window of the parsed page and size over the tracked
    repositories, their number as [total], and that number divided by the
    page size, rounded up, as [total_pages]. *)
Theorem handler_ListRepositories_returns (rt : Runtime) (Atoi : string -> result Z)
    (query : api.Values) (s : Service) :
  (api.getPaginationParams Atoi query).1 <= 92233720368547758 ->
  Z.of_nat (size (memory.repositories (cache s))) <= MaxInt - 100 ->
  api.ListRepositories Atoi rt query s
  = Returns (Ok (take (Z.to_nat (api.getPaginationParams Atoi query).2)
                   (drop (Z.to_nat (((api.getPaginationParams Atoi query).1 - 1)
                                    * (api.getPaginationParams Atoi query).2))
                      (range rt _ _ (memory.repositories (cache s))).*2),
                 {| Page := (api.getPaginationParams Atoi query).1;
                    PerPage := (api.getPaginationParams Atoi query).2;
                    Total := Z.of_nat (size (memory.repositories (cache s)));
                    TotalPages :=
                      (Z.of_nat (size (memory.repositories (cache s)))
                       + (api.getPaginationParams Atoi query).2 - 1)
                      `div` (api.getPaginationParams Atoi query).2 |})).
Proof.
  intros Hpage Hsize.
  destruct (getPaginationParams_bounds Atoi query) as (Hp & Hpp).
  unfold api.ListRepositories.
  destruct (api.getPaginationParams Atoi query) as [page perPage]. cbn [fst snd] in *.
  set (total := Z.of_nat (size (memory.repositories (cache s)))) in *.
  assert (Htotal : 0 <= total) by (unfold total; lia).
  unfold ListRepositories.
  rewrite ListRepositories_window;
    [|lia|lia|unfold MaxInt; nia|fold total; unfold MaxInt in *; lia].
  fold total. unfold mbind, exec_bind, bind at 1.
  unfold add, sub, div.
  assert (Hnum : wrap (wrap (total + perPage) - 1) = total + perPage - 1).
  { rewrite wrap_sub_wrap. apply wrap_id. unfold in_int, MinInt, MaxInt in *. lia. }
  rewrite Hnum. rewrite decide_False by lia. unfold bind.
  rewrite Z.quot_div_nonneg by lia.
  rewrite wrap_id; [done|].
  assert (0 <= (total + perPage - 1) `div` perPage) by (apply Z.div_pos; lia).
  assert ((total + perPage - 1) `div` perPage <= total + perPage - 1).
  { apply Z.div_le_upper_bound; nia. }
  unfold in_int, MinInt, MaxInt in *. lia.
Qed.

Lemma handler_ListRepositories_returns_witness :
  exists repos pagination,
    api.ListRepositories (fun _ => Err (errorString "invalid syntax")) runtime0 ∅
      example.tracking
    = Returns (Ok (repos, pagination))
    /\ Total pagination = 1.
Proof.
  eexists _, _. split.
  - apply (handler_ListRepositories_returns runtime0
             (fun _ => Err (errorString "invalid syntax")) ∅ example.tracking);
      vm_compute; discriminate.
  - reflexivity.
Defined.

End http.

(* ===================================================================== *)
(** ** The totals of a list query *)
(* ===================================================================== *)

Section query_totals.
Import go models service.

Lemma filter_Permutation {A} (f : A -> bool) (l l' : list A) :
  l ≡ₚ l' -> List.filter f l ≡ₚ List.filter f l'.
Proof.
  induction 1 as [|x l l' _ IH|x y l|l l' l'' _ IH1 _ IH2]; simpl.
  - done.
  - destruct (f x); [by constructor|done].
  - destruct (f x), (f y); try done. apply perm_swap.
  - by etrans.
Qed.

Lemma filter_all {A} (f : A -> bool) (l : list A) :
  (forall x, f x = true) -> List.filter f l = l.
Proof.
  intros Hf. induction l as [|x l IH]; simpl; [done|]. by rewrite Hf, IH.
Qed.

Lemma filter_pointwise {A} (f g : A -> bool) (l : list A) :
  (forall x, f x = g x) -> List.filter f l = List.filter g l.
Proof.
  intros Hfg. induction l as [|x l IH]; simpl; [done|]. by rewrite Hfg, IH.
Qed.

Lemma filter_shorter {A} (f : A -> bool) (l : list A) :
  (length (List.filter f l) <= length l)%nat.
Proof. induction l as [|x l IH]; simpl; [lia|]. destruct (f x); simpl; lia. Qed.

Lemma concat_fmap_Permutation {A B} (g : A -> list B) (l l' : list A) :
  l ≡ₚ l' -> concat (g <$> l) ≡ₚ concat (g <$> l').
Proof.
  induction 1 as [|x l l' _ IH|x y l|l l' l'' _ IH1 _ IH2]; simpl.
  - done.
  - by apply Permutation_app_head.
  - rewrite !app_assoc. apply Permutation_app_tail, Permutation_app_comm.
  - by etrans.
Qed.

Lemma concat_fmap_pointwise {A B} (g h : A -> list B) (l : list A) :
  (forall x, x ∈ l -> g x ≡ₚ h x) -> concat (g <$> l) ≡ₚ concat (h <$> l).
Proof.
  induction l as [|x l IH]; intros Hgh; simpl; [done|].
  apply Permutation_app.
  - apply Hgh. left.
  - apply IH. intros y Hy. apply Hgh. by right.
Qed.

Lemma concat_fmap_length {A B} (g : A -> list B) (l : list A) (bound : nat) :
  (forall x, x ∈ l -> length (g x) <= bound)%nat ->
  (length (concat (g <$> l)) <= length l * bound)%nat.
Proof.
  induction l as [|x l IH]; intros Hg; [simpl; lia|].
  rewrite fmap_cons. cbn [concat]. rewrite length_app, length_cons, Nat.mul_succ_l.
  assert (length (g x) <= bound)%nat by (apply Hg; left).
  assert (length (concat (g <$> l)) <= length l * bound)%nat
    by (apply IH; intros y Hy; apply Hg; by right).
  lia.
Qed.

Lemma range_empty (rt : Runtime) {K} `{Countable K} {V} :
  range rt K V ∅ = [].
Proof.
  apply length_zero_iff_nil. rewrite range_length. apply map_size_empty.
Qed.

(** The filter of the code is the filter of the specification. *)
Lemma keepPullRequest_matches (rt : Runtime) (filter : PullRequestFilter)
    (pr : PullRequest) :
  keepPullRequest rt filter pr = spec_matches rt filter (pr_State pr) (pr_UserLogin pr).
Proof.
  unfold keepPullRequest, spec_matches.
  destruct (decide (f_State filter = "")) as [Hs|Hs];
    destruct (decide (f_Author filter = "")) as [Ha|Ha].
  all: rewrite ?(bool_decide_eq_true_2 _ Hs), ?(bool_decide_eq_false_2 _ Hs),
         ?(bool_decide_eq_true_2 _ Ha), ?(bool_decide_eq_false_2 _ Ha).
  all: rewrite ?(bool_decide_eq_false_2 (f_State filter <> "")) by tauto.
  all: rewrite ?(bool_decide_eq_true_2 (f_State filter <> "")) by tauto.
  all: rewrite ?(bool_decide_eq_false_2 (f_Author filter <> "")) by tauto.
  all: rewrite ?(bool_decide_eq_true_2 (f_Author filter <> "")) by tauto.
  all: simpl.
  all: destruct (EqualFold rt (pr_State pr) (f_State filter));
    destruct (EqualFold rt (pr_UserLogin pr) (f_Author filter)); reflexivity.
Qed.

(** What [ListPullRequests(ctx, name, 1, 1000)] returns for a tracked
    repository: the first 1000 pull requests that [range] visits. *)
Lemma memory_ListPullRequests_tracked (rt : Runtime) (name : string) (c : memory.Cache) :
  is_Some (memory.repositories c !! name) ->
  exists total,
    memory.ListPullRequests rt name 1 1000 c
    = Returns (Ok (take 1000 (range rt _ _ (memory.at_key name (memory.pullRequests c))).*2,
                   total)).
Proof.
  intros [repo Hrepo]. unfold memory.ListPullRequests, memory.at_key. rewrite Hrepo.
  destruct (memory.pullRequests c !! name) as [repoMap|]; simpl.
  - rewrite <- (range_values_len rt repoMap), paginate_first_1000. eauto.
  - rewrite range_empty. eauto.
Qed.

Lemma collectPullRequests_tracked (rt : Runtime) (c : memory.Cache)
    (repos : list Repository) :
  Forall (fun repo => is_Some (memory.repositories c !! FullName repo)) repos ->
  collectPullRequests rt c repos
  = Returns (concat ((fun repo =>
                        take 1000 (range rt _ _ (memory.at_key (FullName repo)
                                                   (memory.pullRequests c))).*2)
                     <$> repos)).
Proof.
  induction 1 as [|repo repos Hrepo _ IH]; cbn [collectPullRequests]; [done|].
  destruct (memory_ListPullRequests_tracked rt (FullName repo) c Hrepo) as [total ->].
  rewrite IH. reflexivity.
Qed.

(** The repositories that the query processes are the repositories in
    scope, as long as there are at most 1000 of them. *)
Lemma reposToProcess_scope (rt : Runtime) (filter : PullRequestFilter) (s : Service)
    (scope : list string) :
  full_names_are_keys (cache s) ->
  spec_scope filter (cache s) = Some scope ->
  (length scope <= 1000)%nat ->
  exists repos,
    reposToProcess rt (f_Repo filter) s = Returns (Ok repos)
    /\ FullName <$> repos ≡ₚ scope
    /\ Forall (fun repo => is_Some (memory.repositories (cache s) !! FullName repo)) repos.
Proof.
  intros Hkeys Hscope Hlen. unfold spec_scope in Hscope. unfold reposToProcess.
  destruct (decide (f_Repo filter = "")) as [Hall|Hone].
  - injection Hscope as <-. rewrite decide_False by tauto.
    rewrite memory_ListRepositories_first_1000. simpl.
    set (R := memory.repositories (cache s)) in *.
    assert (Hwhole : take 1000 (range rt _ _ R).*2 = (range rt _ _ R).*2).
    { apply take_ge. rewrite length_fmap, range_length.
      rewrite length_fmap, length_map_to_list in Hlen. done. }
    rewrite Hwhole.
    assert (Hnames : forall l : list (string * Repository),
               (forall k r, (k, r) ∈ l -> R !! k = Some r) ->
               FullName <$> l.*2 = l.*1).
    { induction l as [|[k r] l IH]; intros Hl; simpl; [done|]. f_equal.
      - apply (Hkeys k r). apply Hl. left.
      - apply IH. intros k' r' Hin. apply Hl. by right. }
    eexists. split; [reflexivity|]. split.
    + rewrite Hnames.
      * by rewrite (range_perm rt).
      * intros k r Hin. rewrite (range_perm rt) in Hin.
        by apply elem_of_map_to_list in Hin.
    + apply Forall_forall. intros repo Hin.
      apply range_values_elem in Hin as [k Hk].
      rewrite (Hkeys k repo Hk). eauto.
  - rewrite decide_True by done.
    destruct (Split (f_Repo filter) "/") as [|owner [|name [|? ?]]]; try done.
    case_decide as Htracked; [|done]. injection Hscope as <-.
    destruct Htracked as [repo Hrepo]. unfold memory.GetRepository. rewrite Hrepo.
    exists [repo]. split; [done|]. simpl. rewrite (Hkeys _ repo Hrepo).
    split; [done|]. constructor; [|constructor].
    rewrite (Hkeys _ repo Hrepo). eauto.
Qed.

(** With at most 1000 pull requests in every repository in scope, what
    the query collects is the unfiltered result set of the specification,
    in another order. *)
Lemma collected_pullRequests (rt : Runtime) (c : memory.Cache) (repos : list Repository)
    (scope : list string) :
  FullName <$> repos ≡ₚ scope ->
  (forall name, name ∈ scope ->
                (size (memory.at_key name (memory.pullRequests c)) <= 1000)%nat) ->
  concat ((fun repo =>
             take 1000 (range rt _ _ (memory.at_key (FullName repo)
                                        (memory.pullRequests c))).*2) <$> repos)
  ≡ₚ concat ((fun name =>
                (map_to_list (memory.at_key name (memory.pullRequests c))).*2) <$> scope).
Proof.
  intros Hperm Hsizes.
  rewrite <- (concat_fmap_Permutation _ _ _ Hperm).
  rewrite <- list_fmap_compose.
  apply concat_fmap_pointwise. intros repo Hrepo. simpl.
  assert (Hin : FullName repo ∈ scope).
  { rewrite <- Hperm. apply list_elem_of_fmap. eauto. }
  rewrite take_ge by (rewrite length_fmap, range_length; apply Hsizes, Hin).
  by rewrite (range_perm rt).
Qed.

Lemma filteredPullRequests_len (rt : Runtime) (filter : PullRequestFilter)
    (all : list PullRequest) :
  len (filteredPullRequests rt filter all)
  = len (List.filter (fun pr => spec_matches rt filter (pr_State pr) (pr_UserLogin pr)) all).
Proof.
  unfold filteredPullRequests, len. rewrite (sort_Slice_perm rt).
  by rewrite (filter_pointwise _ _ all (keepPullRequest_matches rt filter)).
Qed.

(** The query, once the repositories to process are known. *)
Lemma listAllPullRequests_collected (rt : Runtime) (filter : PullRequestFilter)
    (s : Service) (repos : list Repository) :
  reposToProcess rt (f_Repo filter) s = Returns (Ok repos) ->
  Forall (fun repo => is_Some (memory.repositories (cache s) !! FullName repo)) repos ->
  listAllPullRequests rt filter s
  = paginateFiltered
      (filteredPullRequests rt filter
         (concat ((fun repo =>
                     take 1000 (range rt _ _ (memory.at_key (FullName repo)
                                                (memory.pullRequests (cache s)))).*2)
                  <$> repos)))
      (f_Page filter) (f_PerPage filter).
Proof.
  intros Hrepos Htracked. unfold listAllPullRequests. rewrite Hrepos. simpl.
  by rewrite collectPullRequests_tracked.
Qed.

Lemma pageWindow_past_the_end {A} (filter : PullRequestFilter) (set : list A) :
  (f_Page filter - 1) * f_PerPage filter >= len set -> pageWindow filter set = [].
Proof.
  intros Hge. unfold pageWindow, len in *. rewrite drop_ge by lia. apply take_nil.
Qed.

(** The same facts for the issue query. *)
Lemma keepIssue_matches (rt : Runtime) (filter : IssueFilter)
    (issue : Issue) :
  keepIssue rt filter issue = spec_matches rt filter (is_State issue) (is_UserLogin issue).
Proof.
  unfold keepIssue, spec_matches.
  destruct (decide (f_State filter = "")) as [Hs|Hs];
    destruct (decide (f_Author filter = "")) as [Ha|Ha].
  all: rewrite ?(bool_decide_eq_true_2 _ Hs), ?(bool_decide_eq_false_2 _ Hs),
         ?(bool_decide_eq_true_2 _ Ha), ?(bool_decide_eq_false_2 _ Ha).
  all: rewrite ?(bool_decide_eq_false_2 (f_State filter <> "")) by tauto.
  all: rewrite ?(bool_decide_eq_true_2 (f_State filter <> "")) by tauto.
  all: rewrite ?(bool_decide_eq_false_2 (f_Author filter <> "")) by tauto.
  all: rewrite ?(bool_decide_eq_true_2 (f_Author filter <> "")) by tauto.
  all: simpl.
  all: destruct (EqualFold rt (is_State issue) (f_State filter));
    destruct (EqualFold rt (is_UserLogin issue) (f_Author filter)); reflexivity.
Qed.

(** What [ListIssues(ctx, name, 1, 1000)] returns for a tracked
    repository: the first 1000 issues that [range] visits. *)
Lemma memory_ListIssues_tracked (rt : Runtime) (name : string) (c : memory.Cache) :
  is_Some (memory.repositories c !! name) ->
  exists total,
    memory.ListIssues rt name 1 1000 c
    = Returns (Ok (take 1000 (range rt _ _ (memory.at_key name (memory.issues c))).*2,
                   total)).
Proof.
  intros [repo Hrepo]. unfold memory.ListIssues, memory.at_key. rewrite Hrepo.
  destruct (memory.issues c !! name) as [repoMap|]; simpl.
  - rewrite <- (range_values_len rt repoMap), paginate_first_1000. eauto.
  - rewrite range_empty. eauto.
Qed.

Lemma collectIssues_tracked (rt : Runtime) (c : memory.Cache)
    (repos : list Repository) :
  Forall (fun repo => is_Some (memory.repositories c !! FullName repo)) repos ->
  collectIssues rt c repos
  = Returns (concat ((fun repo =>
                        take 1000 (range rt _ _ (memory.at_key (FullName repo)
                                                   (memory.issues c))).*2)
                     <$> repos)).
Proof.
  induction 1 as [|repo repos Hrepo _ IH]; cbn [collectIssues]; [done|].
  destruct (memory_ListIssues_tracked rt (FullName repo) c Hrepo) as [total ->].
  rewrite IH. reflexivity.
Qed.

(** With at most 1000 issues in every repository in scope, what
    the query collects is the unfiltered result set of the specification,
    in another order. *)
Lemma collected_issues (rt : Runtime) (c : memory.Cache) (repos : list Repository)
    (scope : list string) :
  FullName <$> repos ≡ₚ scope ->
  (forall name, name ∈ scope ->
                (size (memory.at_key name (memory.issues c)) <= 1000)%nat) ->
  concat ((fun repo =>
             take 1000 (range rt _ _ (memory.at_key (FullName repo)
                                        (memory.issues c))).*2) <$> repos)
  ≡ₚ concat ((fun name =>
                (map_to_list (memory.at_key name (memory.issues c))).*2) <$> scope).
Proof.
  intros Hperm Hsizes.
  rewrite <- (concat_fmap_Permutation _ _ _ Hperm).
  rewrite <- list_fmap_compose.
  apply concat_fmap_pointwise. intros repo Hrepo. simpl.
  assert (Hin : FullName repo ∈ scope).
  { rewrite <- Hperm. apply list_elem_of_fmap. eauto. }
  rewrite take_ge by (rewrite length_fmap, range_length; apply Hsizes, Hin).
  by rewrite (range_perm rt).
Qed.

Lemma filteredIssues_len (rt : Runtime) (filter : IssueFilter)
    (all : list Issue) :
  len (filteredIssues rt filter all)
  = len (List.filter (fun issue => spec_matches rt filter (is_State issue) (is_UserLogin issue)) all).
Proof.
  unfold filteredIssues, len. rewrite (sort_Slice_perm rt).
  by rewrite (filter_pointwise _ _ all (keepIssue_matches rt filter)).
Qed.

(** The query, once the repositories to process are known. *)
Lemma listAllIssues_collected (rt : Runtime) (filter : IssueFilter)
    (s : Service) (repos : list Repository) :
  reposToProcess rt (f_Repo filter) s = Returns (Ok repos) ->
  Forall (fun repo => is_Some (memory.repositories (cache s) !! FullName repo)) repos ->
  listAllIssues rt filter s
  = paginateFiltered
      (filteredIssues rt filter
         (concat ((fun repo =>
                     take 1000 (range rt _ _ (memory.at_key (FullName repo)
                                                (memory.issues (cache s)))).*2)
                  <$> repos)))
      (f_Page filter) (f_PerPage filter).
Proof.
  intros Hrepos Htracked. unfold listAllIssues. rewrite Hrepos. simpl.
  by rewrite collectIssues_tracked.
Qed.

(** The pull request query against the result set of the specification. *)
Lemma pull_request_query_totals (rt : Runtime) (filter : PullRequestFilter) (s : Service) :
  full_names_are_keys (cache s) ->
  1 <= f_Page filter ->
  1 <= f_PerPage filter <= MaxInt - 1000000 ->
  (f_Page filter - 1) * f_PerPage filter <= MaxInt ->
  (forall scope,
      spec_scope filter (cache s) = Some scope ->
      (length scope <= 1000)%nat ->
      (forall name, name ∈ scope ->
         (size (memory.at_key name (memory.pullRequests (cache s))) <= 1000)%nat) ->
      exists items,
        listAllPullRequests rt filter s
        = Returns (Ok (items,
                       descriptor filter
                         (len (spec_pullRequests rt filter (cache s) scope))))
        /\ ((f_Page filter - 1) * f_PerPage filter
              >= len (spec_pullRequests rt filter (cache s) scope) ->
            items = []))
  /\ (forall owner name repoMap,
         Split (f_Repo filter) "/" = [owner; name] ->
         is_Some (memory.repositories (cache s) !! memory.fullNameOf owner name) ->
         memory.pullRequests (cache s) !! memory.fullNameOf owner name = Some repoMap ->
         1000 < Z.of_nat (size repoMap) ->
         f_State filter = "" -> f_Author filter = "" ->
         spec_scope filter (cache s) = Some [memory.fullNameOf owner name]
         /\ len (spec_pullRequests rt filter (cache s) [memory.fullNameOf owner name])
            = Z.of_nat (size repoMap)
         /\ exists items,
              listAllPullRequests rt filter s
              = Returns (Ok (items, descriptor filter 1000))).
Proof.
  intros Hkeys Hpage [Hper Hper'] Hmul. split.
  - intros scope Hscope Hlen Hsizes.
    destruct (reposToProcess_scope rt filter s scope Hkeys Hscope Hlen)
      as (repos & Hrepos & Hperm & Htracked).
    rewrite (listAllPullRequests_collected rt filter s repos Hrepos Htracked).
    set (collected := concat _).
    assert (Hsame : len (filteredPullRequests rt filter collected)
                    = len (spec_pullRequests rt filter (cache s) scope)).
    { rewrite filteredPullRequests_len. unfold spec_pullRequests, len. f_equal.
      apply Permutation_length, filter_Permutation.
      exact (collected_pullRequests rt (cache s) repos scope Hperm Hsizes). }
    assert (Hbound : len (spec_pullRequests rt filter (cache s) scope) <= 1000000).
    { unfold spec_pullRequests, len.
      pose proof (filter_shorter
                    (fun pr => spec_matches rt filter (pr_State pr) (pr_UserLogin pr))
                    (concat ((fun name =>
                                (map_to_list (memory.at_key name
                                                (memory.pullRequests (cache s)))).*2)
                             <$> scope))) as Hfilter.
      pose proof (concat_fmap_length
                    (fun name => (map_to_list (memory.at_key name
                                                 (memory.pullRequests (cache s)))).*2)
                    scope 1000) as Hconcat.
      assert (length (concat ((fun name =>
                                 (map_to_list (memory.at_key name
                                                 (memory.pullRequests (cache s)))).*2)
                              <$> scope)) <= length scope * 1000)%nat.
      { apply Hconcat. intros name Hname.
        rewrite length_fmap, length_map_to_list. by apply Hsizes. }
      nia. }
    rewrite paginateFiltered_window; [|done|done|done|rewrite Hsame; lia].
    rewrite Hsame. eexists. split; [reflexivity|].
    intros Hpast. apply pageWindow_past_the_end. by rewrite Hsame.
  - intros owner name repoMap Hsplit Htracked Hmap Hsize Hstate Hauthor.
    set (key := memory.fullNameOf owner name) in *.
    assert (Hscope : spec_scope filter (cache s) = Some [key]).
    { unfold spec_scope. rewrite Hsplit. fold key.
      rewrite decide_False, decide_True; [done|done|].
      intros Hempty. by rewrite Hempty in Hsplit. }
    assert (Hall : forall state login, spec_matches rt filter state login = true).
    { intros state login. unfold spec_matches. by rewrite Hstate, Hauthor. }
    assert (Hvalues : memory.at_key key (memory.pullRequests (cache s)) = repoMap).
    { unfold memory.at_key. by rewrite Hmap. }
    split; [done|]. split.
    + unfold spec_pullRequests, len. rewrite filter_all by (intros pr; apply Hall).
      simpl. rewrite app_nil_r, Hvalues, length_fmap, length_map_to_list. done.
    + destruct (reposToProcess_scope rt filter s [key] Hkeys Hscope)
        as (repos & Hrepos & Hperm & Hknown); [simpl; lia|].
      rewrite (listAllPullRequests_collected rt filter s repos Hrepos Hknown).
      apply Permutation_singleton_r in Hperm.
      destruct repos as [|repo [|? ?]]; try discriminate. injection Hperm as Hname.
      simpl. rewrite app_nil_r, Hname, Hvalues.
      set (collected := take 1000 _).
      assert (Hthousand : len (filteredPullRequests rt filter collected) = 1000).
      { rewrite filteredPullRequests_len. unfold len.
        rewrite filter_all by (intros pr; apply Hall). unfold collected.
        rewrite length_take, length_fmap, range_length. lia. }
      rewrite paginateFiltered_window; [|done|done|done|rewrite Hthousand; lia].
      rewrite Hthousand. eauto.
Qed.

(** The issue query against the result set of the specification. *)
Lemma issue_query_totals (rt : Runtime) (filter : IssueFilter) (s : Service) :
  full_names_are_keys (cache s) ->
  1 <= f_Page filter ->
  1 <= f_PerPage filter <= MaxInt - 1000000 ->
  (f_Page filter - 1) * f_PerPage filter <= MaxInt ->
  (forall scope,
      spec_scope filter (cache s) = Some scope ->
      (length scope <= 1000)%nat ->
      (forall name, name ∈ scope ->
         (size (memory.at_key name (memory.issues (cache s))) <= 1000)%nat) ->
      exists items,
        listAllIssues rt filter s
        = Returns (Ok (items,
                       descriptor filter
                         (len (spec_issues rt filter (cache s) scope))))
        /\ ((f_Page filter - 1) * f_PerPage filter
              >= len (spec_issues rt filter (cache s) scope) ->
            items = []))
  /\ (forall owner name repoMap,
         Split (f_Repo filter) "/" = [owner; name] ->
         is_Some (memory.repositories (cache s) !! memory.fullNameOf owner name) ->
         memory.issues (cache s) !! memory.fullNameOf owner name = Some repoMap ->
         1000 < Z.of_nat (size repoMap) ->
         f_State filter = "" -> f_Author filter = "" ->
         spec_scope filter (cache s) = Some [memory.fullNameOf owner name]
         /\ len (spec_issues rt filter (cache s) [memory.fullNameOf owner name])
            = Z.of_nat (size repoMap)
         /\ exists items,
              listAllIssues rt filter s
              = Returns (Ok (items, descriptor filter 1000))).
Proof.
  intros Hkeys Hpage [Hper Hper'] Hmul. split.
  - intros scope Hscope Hlen Hsizes.
    destruct (reposToProcess_scope rt filter s scope Hkeys Hscope Hlen)
      as (repos & Hrepos & Hperm & Htracked).
    rewrite (listAllIssues_collected rt filter s repos Hrepos Htracked).
    set (collected := concat _).
    assert (Hsame : len (filteredIssues rt filter collected)
                    = len (spec_issues rt filter (cache s) scope)).
    { rewrite filteredIssues_len. unfold spec_issues, len. f_equal.
      apply Permutation_length, filter_Permutation.
      exact (collected_issues rt (cache s) repos scope Hperm Hsizes). }
    assert (Hbound : len (spec_issues rt filter (cache s) scope) <= 1000000).
    { unfold spec_issues, len.
      pose proof (filter_shorter
                    (fun issue => spec_matches rt filter (is_State issue) (is_UserLogin issue))
                    (concat ((fun name =>
                                (map_to_list (memory.at_key name
                                                (memory.issues (cache s)))).*2)
                             <$> scope))) as Hfilter.
      pose proof (concat_fmap_length
                    (fun name => (map_to_list (memory.at_key name
                                                 (memory.issues (cache s)))).*2)
                    scope 1000) as Hconcat.
      assert (length (concat ((fun name =>
                                 (map_to_list (memory.at_key name
                                                 (memory.issues (cache s)))).*2)
                              <$> scope)) <= length scope * 1000)%nat.
      { apply Hconcat. intros name Hname.
        rewrite length_fmap, length_map_to_list. by apply Hsizes. }
      nia. }
    rewrite paginateFiltered_window; [|done|done|done|rewrite Hsame; lia].
    rewrite Hsame. eexists. split; [reflexivity|].
    intros Hpast. apply pageWindow_past_the_end. by rewrite Hsame.
  - intros owner name repoMap Hsplit Htracked Hmap Hsize Hstate Hauthor.
    set (key := memory.fullNameOf owner name) in *.
    assert (Hscope : spec_scope filter (cache s) = Some [key]).
    { unfold spec_scope. rewrite Hsplit. fold key.
      rewrite decide_False, decide_True; [done|done|].
      intros Hempty. by rewrite Hempty in Hsplit. }
    assert (Hall : forall state login, spec_matches rt filter state login = true).
    { intros state login. unfold spec_matches. by rewrite Hstate, Hauthor. }
    assert (Hvalues : memory.at_key key (memory.issues (cache s)) = repoMap).
    { unfold memory.at_key. by rewrite Hmap. }
    split; [done|]. split.
    + unfold spec_issues, len. rewrite filter_all by (intros issue; apply Hall).
      simpl. rewrite app_nil_r, Hvalues, length_fmap, length_map_to_list. done.
    + destruct (reposToProcess_scope rt filter s [key] Hkeys Hscope)
        as (repos & Hrepos & Hperm & Hknown); [simpl; lia|].
      rewrite (listAllIssues_collected rt filter s repos Hrepos Hknown).
      apply Permutation_singleton_r in Hperm.
      destruct repos as [|repo [|? ?]]; try discriminate. injection Hperm as Hname.
      simpl. rewrite app_nil_r, Hname, Hvalues.
      set (collected := take 1000 _).
      assert (Hthousand : len (filteredIssues rt filter collected) = 1000).
      { rewrite filteredIssues_len. unfold len.
        rewrite filter_all by (intros issue; apply Hall). unfold collected.
        rewrite length_take, length_fmap, range_length. lia. }
      rewrite paginateFiltered_window; [|done|done|done|rewrite Hthousand; lia].
      rewrite Hthousand. eauto.
Qed.

(** C5. The totals of a list query against the result set of the
    specification, for a page number and a page size from 1 up and inside
    the range where the offsets do not wrap. With at most 1000 repositories
    in scope and at most 1000 items in each of them, [Total] is the size of
    the result set, [TotalPages] that size divided by the page size,
    rounded up, and a page past the end is empty, with no error. With more
    than 1000 items in the repository of a scoped query without filters,
    [Total] is 1000, and [TotalPages] is computed from 1000, while the
    result set has as many items as the repository holds: the query
    collects with [ListPullRequests(ctx, name, 1, 1000)] and
    [ListIssues(ctx, name, 1, 1000)]. The first half is about pull
    requests, the second about issues. *)
Theorem list_query_totals (rt : Runtime) (filter : PullRequestFilter) (s : Service) :
  full_names_are_keys (cache s) ->
  1 <= f_Page filter ->
  1 <= f_PerPage filter <= MaxInt - 1000000 ->
  (f_Page filter - 1) * f_PerPage filter <= MaxInt ->
  ((forall scope,
        spec_scope filter (cache s) = Some scope ->
        (length scope <= 1000)%nat ->
        (forall name, name ∈ scope ->
           (size (memory.at_key name (memory.pullRequests (cache s))) <= 1000)%nat) ->
        exists items,
          listAllPullRequests rt filter s
          = Returns (Ok (items,
                         descriptor filter
                           (len (spec_pullRequests rt filter (cache s) scope))))
          /\ ((f_Page filter - 1) * f_PerPage filter
                >= len (spec_pullRequests rt filter (cache s) scope) ->
              items = []))
    /\ (forall owner name repoMap,
           Split (f_Repo filter) "/" = [owner; name] ->
           is_Some (memory.repositories (cache s) !! memory.fullNameOf owner name) ->
           memory.pullRequests (cache s) !! memory.fullNameOf owner name = Some repoMap ->
           1000 < Z.of_nat (size repoMap) ->
           f_State filter = "" -> f_Author filter = "" ->
           spec_scope filter (cache s) = Some [memory.fullNameOf owner name]
           /\ len (spec_pullRequests rt filter (cache s) [memory.fullNameOf owner name])
              = Z.of_nat (size repoMap)
           /\ exists items,
                listAllPullRequests rt filter s
                = Returns (Ok (items, descriptor filter 1000))))
  /\ ((forall scope,
        spec_scope filter (cache s) = Some scope ->
        (length scope <= 1000)%nat ->
        (forall name, name ∈ scope ->
           (size (memory.at_key name (memory.issues (cache s))) <= 1000)%nat) ->
        exists items,
          listAllIssues rt filter s
          = Returns (Ok (items,
                         descriptor filter
                           (len (spec_issues rt filter (cache s) scope))))
          /\ ((f_Page filter - 1) * f_PerPage filter
                >= len (spec_issues rt filter (cache s) scope) ->
              items = []))
    /\ (forall owner name repoMap,
           Split (f_Repo filter) "/" = [owner; name] ->
           is_Some (memory.repositories (cache s) !! memory.fullNameOf owner name) ->
           memory.issues (cache s) !! memory.fullNameOf owner name = Some repoMap ->
           1000 < Z.of_nat (size repoMap) ->
           f_State filter = "" -> f_Author filter = "" ->
           spec_scope filter (cache s) = Some [memory.fullNameOf owner name]
           /\ len (spec_issues rt filter (cache s) [memory.fullNameOf owner name])
              = Z.of_nat (size repoMap)
           /\ exists items,
                listAllIssues rt filter s
                = Returns (Ok (items, descriptor filter 1000)))).
Proof.
  intros Hkeys Hpage Hper Hmul. split.
  - by apply pull_request_query_totals.
  - by apply issue_query_totals.
Qed.

(** C5 for [acme/widgets] holding the pull requests #1 to #1001, and the
    query for page 11 of size 100 of that repository: the result set has
    1001 items, so that page 11 is its last page, and the query reports a
    total of 1000 in 10 pages. *)
Lemma list_query_totals_witness :
  len (spec_pullRequests runtime0 (example.scoped "acme/widgets" 11 100)
         (cache example.crowded) ["acme/widgets"]) = 1001
  /\ exists items,
       listAllPullRequests runtime0 (example.scoped "acme/widgets" 11 100) example.crowded
       = Returns (Ok (items,
                      {| Page := 11; PerPage := 100; Total := 1000; TotalPages := 10 |})).
Proof.
  assert (Hkeys : full_names_are_keys (cache example.crowded)).
  { unfold full_names_are_keys.
    assert (memory.repositories (cache example.crowded)
            = {[ "acme/widgets" := example.repo ]}) as -> by (vm_compute; reflexivity).
    apply map_Forall_singleton. reflexivity. }
  destruct (list_query_totals runtime0 (example.scoped "acme/widgets" 11 100)
              example.crowded Hkeys) as [[_ Hpast] _];
    [vm_compute; discriminate | split; vm_compute; discriminate
    | vm_compute; discriminate |].
  destruct (Hpast "acme" "widgets"
              (memory.at_key "acme/widgets" (memory.pullRequests (cache example.crowded))))
    as (_ & Hset & items & Hquery);
    [reflexivity | vm_compute; eauto | vm_compute; reflexivity | vm_compute; reflexivity
    | reflexivity | reflexivity |].
  split.
  - etrans; [exact Hset|]. vm_compute. reflexivity.
  - exists items. exact Hquery.
Defined.

End query_totals.
